(** * Banco.py: a shallow embedding of the terminal bank and its properties

    The program is a single Python module.  Its values are modelled as the
    interpreter has them:
    - [str] is a sequence of Unicode code points ([list N]);
    - amounts are Python floats, i.e. IEEE 754 binary64 ([float] of
      [PrimFloat]); the two integer literals that meet floats in the source
      ([saldo = 0], [limite = 500]) are read as the floats [0.0] and [500.0],
      which is what Python's mixed int/float arithmetic and comparison
      compute for them;
    - counters and account numbers are Python ints ([Z]);
    - the user dictionaries are heap objects with an identity ([loc]),
      because [criar_conta] stores a reference to one of them;
    - console and files are explicit state ([world]). *)

From Stdlib Require Import ZArith NArith List Ascii String Floats Lia Bool Zpower.
From Stdlib Require DecimalFacts DecimalPos DecimalN.
From stdpp Require Import base option list gmap.

Local Open Scope N_scope.
Local Open Scope list_scope.

(** ** Text *)

Definition str := list N.

Definition nl : N := 10.
Definition tab : N := 9.

(** The source file is UTF-8; [py] turns the bytes of a literal into the code
    points of the [str] object the interpreter builds from it. *)
Fixpoint decode_utf8 (bs : list N) : str :=
  match bs with
  | [] => []
  | b :: r =>
      if b <? 128 then b :: decode_utf8 r
      else if b <? 224 then
        match r with
        | c :: r1 => ((b mod 32) * 64 + c mod 64) :: decode_utf8 r1
        | _ => []
        end
      else if b <? 240 then
        match r with
        | c :: d :: r2 =>
            ((b mod 16) * 4096 + (c mod 64) * 64 + d mod 64) :: decode_utf8 r2
        | _ => []
        end
      else
        match r with
        | c :: d :: e :: r3 =>
            ((b mod 8) * 262144 + (c mod 64) * 4096 + (d mod 64) * 64 + e mod 64)
              :: decode_utf8 r3
        | _ => []
        end
  end.

Definition py (s : string) : str :=
  decode_utf8 (map N_of_ascii (list_ascii_of_string s)).

(** ** The world: console, files, heap *)

Definition loc := positive.

(** A user dictionary, with the four keys [criar_usuario] gives it. *)
Record usuario_dict := mk_usuario {
  nome : str;
  data_nascimento : str;
  cpf : str;
  endereco : str
}.

(** An account dictionary; its ["usuario"] entry is a reference. *)
Record conta_dict := mk_conta {
  agencia : str;
  numero_conta : Z;
  usuario : loc
}.

Record world := mk_world {
  stdin : list str;              (* the lines still to be read *)
  stdout : list str;             (* what was written, one chunk per call *)
  files : gmap str str;          (* path to text content *)
  heap : gmap loc usuario_dict   (* the user dictionaries *)
}.

Inductive exn :=
| EOFError
| JSONDecodeError
| UnicodeEncodeError
| OutOfModel.   (* a heap or file shape the typed model does not cover *)

Inductive res (A : Type) :=
| Ok (a : A) (w : world)
| Exc (e : exn) (w : world).
Arguments Ok {A} a w.
Arguments Exc {A} e w.

Definition M (A : Type) := world -> res A.

Global Instance M_ret : MRet M := fun A a w => Ok a w.

Global Instance M_bind : MBind M := fun A B k m w =>
  match m w with
  | Ok a w' => k a w'
  | Exc e w' => Exc e w'
  end.

Definition raise {A} (e : exn) : M A := fun w => Exc e w.

Definition write (s : str) (w : world) : world :=
  mk_world (stdin w) (stdout w ++ [s]) (files w) (heap w).

(** The console encodes its output as UTF-8 with the strict error handler,
    the default of the interpreter on a terminal: every code point can be
    written but the surrogates, [U+D800] to [U+DFFF], which a [str] may
    hold after [json.load] has read a lone [\uD83D]. *)
Definition is_surrogate (c : N) : bool := (55296 <=? c) && (c <=? 57343).

Definition codificavel (s : str) : bool :=
  forallb (fun c => negb (is_surrogate c)) s.

(** [print(s)]: the text and a newline; a text the console cannot encode
    raises, and nothing of it is written. *)
Definition print (s : str) : M unit :=
  fun w =>
    if codificavel s then Ok tt (write (s ++ [nl]) w)
    else Exc UnicodeEncodeError w.

(** [input(prompt)]: writes the prompt, as [print] does but without the
    newline, then reads one line; end of input raises. *)
Definition input (prompt : str) : M str :=
  fun w =>
    if codificavel prompt then
      let w1 := write prompt w in
      match stdin w1 with
      | [] => Exc EOFError w1
      | l :: rest => Ok l (mk_world rest (stdout w1) (files w1) (heap w1))
      end
    else Exc UnicodeEncodeError w.

(** ** Constants *)

Definition LIMITE_SAQUES : Z := 3.
Definition AGENCIA : str := py "0001".
Definition USUARIOS_FILE : str := py "usuarios.json".
Definition CONTAS_FILE : str := py "contas.json".

(** ** Formatting a float with [:.2f] *)

Fixpoint uint_str (d : Decimal.uint) : str :=
  match d with
  | Decimal.Nil => []
  | Decimal.D0 d => 48 :: uint_str d
  | Decimal.D1 d => 49 :: uint_str d
  | Decimal.D2 d => 50 :: uint_str d
  | Decimal.D3 d => 51 :: uint_str d
  | Decimal.D4 d => 52 :: uint_str d
  | Decimal.D5 d => 53 :: uint_str d
  | Decimal.D6 d => 54 :: uint_str d
  | Decimal.D7 d => 55 :: uint_str d
  | Decimal.D8 d => 56 :: uint_str d
  | Decimal.D9 d => 57 :: uint_str d
  end.

(** Decimal digits of a natural number, as [str(n)] gives them. *)
Definition dec (n : N) : str := uint_str (N.to_uint n).

(** [n / d] rounded to the nearest integer, ties to even. *)
Definition div_half_even (n d : Z) : Z :=
  let q := (n / d)%Z in
  let r := (n mod d)%Z in
  match (2 * r ?= d)%Z with
  | Lt => q
  | Gt => (q + 1)%Z
  | Eq => if Z.even q then q else (q + 1)%Z
  end.

(** The exact value [m * 2^e] in hundredths, correctly rounded. *)
Definition centavos (m : positive) (e : Z) : Z :=
  if (0 <=? e)%Z then (Zpos m * 100 * 2 ^ e)%Z
  else div_half_even (Zpos m * 100) (2 ^ (- e)).

Definition sign_str (s : bool) : str := if s then py "-" else [].

Definition two_digits (n : N) : str :=
  if n <? 10 then 48 :: dec n else dec n.

Definition format_2f (x : float) : str :=
  match Prim2SF x with
  | S754_nan => py "nan"
  | S754_infinity s => sign_str s ++ py "inf"
  | S754_zero s => sign_str s ++ py "0.00"
  | S754_finite s m e =>
      let c := Z.to_N (centavos m e) in
      sign_str s ++ dec (c / 100) ++ py "." ++ two_digits (c mod 100)
  end.

(** ** The ledger *)

(** Python's [x > y] on floats. *)
Definition gt (x y : float) : bool := PrimFloat.ltb y x.

Definition msg_valor_invalido : str :=
  Eval vm_compute in (nl :: py "@@@ Operação falhou! O valor informado é inválido. @@@").
Definition msg_deposito_ok : str :=
  Eval vm_compute in (nl :: py "=== Depósito realizado com sucesso! ===").
Definition msg_sem_saldo : str :=
  Eval vm_compute in (nl :: py "@@@ Operação falhou! Você não tem saldo suficiente. @@@").
Definition msg_excede_limite : str :=
  Eval vm_compute in (nl :: py "@@@ Operação falhou! O valor do saque excede o limite. @@@").
Definition msg_excede_saques : str :=
  Eval vm_compute in (nl :: py "@@@ Operação falhou! Número máximo de saques excedido. @@@").
Definition msg_saque_ok : str :=
  Eval vm_compute in (nl :: py "=== Saque realizado com sucesso! ===").

Definition linha_deposito (valor : float) : str :=
  py "Depósito:" ++ [tab] ++ py "R$ " ++ format_2f valor ++ [nl].
Definition linha_saque (valor : float) : str :=
  py "Saque:" ++ [tab; tab] ++ py "R$ " ++ format_2f valor ++ [nl].

Definition depositar (saldo valor : float) (extrato : str) : M (float * str) :=
  let saldo := (saldo + valor)%float in
  let extrato := extrato ++ linha_deposito valor in
  print msg_deposito_ok ;;
  mret (saldo, extrato).

Definition sacar (saldo valor : float) (extrato : str) (limite : float)
    (numero_saques limite_saques : Z) : M (float * str * Z) :=
  let excedeu_saldo := gt valor saldo in
  let excedeu_limite := gt valor limite in
  let excedeu_saques := (numero_saques >=? limite_saques)%Z in
  if excedeu_saldo then
    print msg_sem_saldo ;; mret (saldo, extrato, numero_saques)
  else if excedeu_limite then
    print msg_excede_limite ;; mret (saldo, extrato, numero_saques)
  else if excedeu_saques then
    print msg_excede_saques ;; mret (saldo, extrato, numero_saques)
  else
    let saldo := (saldo - valor)%float in
    let extrato := extrato ++ linha_saque valor in
    let numero_saques := (numero_saques + 1)%Z in
    print msg_saque_ok ;; mret (saldo, extrato, numero_saques).

(** ** JSON text, as the [json] module writes and reads it

    [json.dump(dados, f, indent=4)] and [json.load(f)] are calls into the
    Python library.  The model follows the library's encoder (the pure Python
    [_make_iterencode], with [ensure_ascii] and an indent of four spaces) and
    its decoder ([scanstring], [JSONObject], [JSONArray], the number
    pattern, the constants [NaN], [Infinity] and [-Infinity]).  The program
    never stores a float in a record.  A float that [json.load] reads is
    kept as the text [t] of its literal, its value being [float(t)]; what
    [json.dump] would write for it is the [repr] of that value, which the
    model does not compute: [salvar_dados] refuses a value that holds a
    float. *)

#[local] Unset Elimination Schemes.
Inductive json :=
| JNull
| JBool (b : bool)
| JInt (z : Z)
| JStr (s : str)
| JArr (l : list json)
| JObj (kv : list (str * json))
| JFloat (t : str).
#[local] Set Elimination Schemes.

(** *** Encoder *)

Definition hex_digit (d : N) : N := if d <? 10 then 48 + d else 87 + d.

(** The six characters of a [\uXXXX] escape. *)
Definition u_escape (n : N) : str :=
  [92; 117; hex_digit (n / 4096 mod 16); hex_digit (n / 256 mod 16);
   hex_digit (n / 16 mod 16); hex_digit (n mod 16)].

Definition escape_char (c : N) : str :=
  if c =? 34 then [92; 34]
  else if c =? 92 then [92; 92]
  else if c =? 10 then [92; 110]
  else if c =? 13 then [92; 114]
  else if c =? 9 then [92; 116]
  else if c =? 8 then [92; 98]
  else if c =? 12 then [92; 102]
  else if (32 <=? c) && (c <=? 126) then [c]
  else if c <? 65536 then u_escape c
  else
    let n := c - 65536 in
    u_escape (N.lor 55296 (N.land (N.shiftr n 10) 1023))
      ++ u_escape (N.lor 56320 (N.land n 1023)).

Definition encode_basestring_ascii (s : str) : str :=
  34 :: flat_map escape_char s ++ [34].

(** [int.__repr__]. *)
Definition int_str (z : Z) : str :=
  match z with
  | Z0 => dec 0
  | Zpos p => dec (Npos p)
  | Zneg p => 45 :: dec (Npos p)
  end.

Definition newline_indent (level : nat) : str :=
  nl :: repeat 32 (4 * level)%nat.

Fixpoint iterencode (level : nat) (v : json) : str :=
  match v with
  | JNull => py "null"
  | JBool true => py "true"
  | JBool false => py "false"
  | JInt z => int_str z
  | JStr s => encode_basestring_ascii s
  | JArr [] => py "[]"
  | JArr (x :: xs) =>
      [91] ++ newline_indent (S level) ++ iterencode (S level) x
        ++ (fix items (l : list json) : str :=
              match l with
              | [] => []
              | y :: ys =>
                  [44] ++ newline_indent (S level) ++ iterencode (S level) y
                    ++ items ys
              end) xs
        ++ newline_indent level ++ [93]
  | JObj [] => py "{}"
  | JObj ((k, x) :: kvs) =>
      [123] ++ newline_indent (S level) ++ encode_basestring_ascii k
        ++ [58; 32] ++ iterencode (S level) x
        ++ (fix members (l : list (str * json)) : str :=
              match l with
              | [] => []
              | (k', y) :: ys =>
                  [44] ++ newline_indent (S level)
                    ++ encode_basestring_ascii k' ++ [58; 32]
                    ++ iterencode (S level) y ++ members ys
              end) kvs
        ++ newline_indent level ++ [125]
  | JFloat t => t
  end.

Definition json_dumps (v : json) : str := iterencode 0 v.

(** *** Decoder *)

Definition is_ws (c : N) : bool :=
  (c =? 32) || (c =? 9) || (c =? 10) || (c =? 13).

Fixpoint skip_ws (s : str) : str :=
  match s with
  | c :: r => if is_ws c then skip_ws r else s
  | [] => []
  end.

Definition is_digit (c : N) : bool := (48 <=? c) && (c <=? 57).

Definition hex_val (c : N) : option N :=
  if (48 <=? c) && (c <=? 57) then Some (c - 48)
  else if (97 <=? c) && (c <=? 102) then Some (c - 87)
  else if (65 <=? c) && (c <=? 70) then Some (c - 55)
  else None.

Definition decode_uXXXX (h1 h2 h3 h4 : N) : option N :=
  a ← hex_val h1; b ← hex_val h2; c ← hex_val h3; d ← hex_val h4;
  Some (a * 4096 + b * 256 + c * 16 + d).

(** The table [BACKSLASH] of the decoder. *)
Definition backslash (e : N) : option N :=
  if e =? 34 then Some 34
  else if e =? 92 then Some 92
  else if e =? 47 then Some 47
  else if e =? 98 then Some 8
  else if e =? 102 then Some 12
  else if e =? 110 then Some 10
  else if e =? 114 then Some 13
  else if e =? 116 then Some 9
  else None.

Definition is_high (u : N) : bool := (55296 <=? u) && (u <=? 56319).
Definition is_low (u : N) : bool := (56320 <=? u) && (u <=? 57343).

Definition cons_fst (c : N) (r : option (str * str)) : option (str * str) :=
  '(s, rest) ← r; Some (c :: s, rest).

(** [scanstring] in strict mode, entered after the opening quote. *)
Fixpoint scanstring (s : str) : option (str * str) :=
  match s with
  | [] => None
  | c :: r =>
      if c =? 34 then Some ([], r)
      else if c =? 92 then
        match r with
        | [] => None
        | e :: r1 =>
            if e =? 117 then
              match r1 with
              | h1 :: h2 :: h3 :: h4 :: r2 =>
                  match decode_uXXXX h1 h2 h3 h4 with
                  | None => None
                  | Some uni =>
                      if is_high uni then
                        match r2 with
                        | b :: r3 =>
                            if b =? 92 then
                              match r3 with
                              | u :: r4 =>
                                  if u =? 117 then
                                    match r4 with
                                    | g1 :: g2 :: g3 :: g4 :: r5 =>
                                        match decode_uXXXX g1 g2 g3 g4 with
                                        | None => None
                                        | Some uni2 =>
                                            if is_low uni2 then
                                              cons_fst
                                                (65536 + N.lor (N.shiftl (uni - 55296) 10)
                                                               (uni2 - 56320))
                                                (scanstring r5)
                                            else cons_fst uni (scanstring r2)
                                        end
                                    | _ => None
                                    end
                                  else cons_fst uni (scanstring r2)
                              | [] => cons_fst uni (scanstring r2)
                              end
                            else cons_fst uni (scanstring r2)
                        | [] => cons_fst uni (scanstring r2)
                        end
                      else cons_fst uni (scanstring r2)
                  end
              | _ => None
              end
            else
              match backslash e with
              | None => None
              | Some ch => cons_fst ch (scanstring r1)
              end
        end
      else if c <? 32 then None
      else cons_fst c (scanstring r)
  end.

Fixpoint span_digits (s : str) : str * str :=
  match s with
  | c :: r =>
      if is_digit c then let '(ds, rest) := span_digits r in (c :: ds, rest)
      else ([], s)
  | [] => ([], [])
  end.

Definition char_digit (c : N) (d : Decimal.uint) : Decimal.uint :=
  if c =? 48 then Decimal.D0 d
  else if c =? 49 then Decimal.D1 d
  else if c =? 50 then Decimal.D2 d
  else if c =? 51 then Decimal.D3 d
  else if c =? 52 then Decimal.D4 d
  else if c =? 53 then Decimal.D5 d
  else if c =? 54 then Decimal.D6 d
  else if c =? 55 then Decimal.D7 d
  else if c =? 56 then Decimal.D8 d
  else Decimal.D9 d.

Fixpoint uint_of_str (s : str) : Decimal.uint :=
  match s with
  | [] => Decimal.Nil
  | c :: r => char_digit c (uint_of_str r)
  end.

Definition is_sign (c : N) : bool := (c =? 43) || (c =? 45).

(** The fraction group of the number pattern, a point and digits: its text
    and what follows it; nothing when the group does not match. *)
Definition frac_group (s : str) : str * str :=
  match s with
  | c :: r =>
      if c =? 46 then
        match r with
        | d :: _ =>
            if is_digit d then let '(ds, rest) := span_digits r in (c :: ds, rest)
            else ([], s)
        | [] => ([], s)
        end
      else ([], s)
  | [] => ([], s)
  end.

(** The exponent group: [e] or [E], an optional sign, digits. *)
Definition exp_group (s : str) : str * str :=
  match s with
  | c :: r =>
      if (c =? 101) || (c =? 69) then
        match r with
        | d :: r1 =>
            if is_digit d then let '(ds, rest) := span_digits r in (c :: ds, rest)
            else if is_sign d then
              match r1 with
              | d1 :: _ =>
                  if is_digit d1 then
                    let '(ds, rest) := span_digits r1 in (c :: d :: ds, rest)
                  else ([], s)
              | [] => ([], s)
              end
            else ([], s)
        | [] => ([], s)
        end
      else ([], s)
  | [] => ([], s)
  end.

(** The number pattern.  The integer group is an optional minus sign, then
    a single zero or a non-zero digit followed by any digits.  With neither
    fraction nor exponent the number is an [int]; otherwise it is the float
    of the text matched. *)
Definition match_number (s : str) : option (json * str) :=
  let '(neg, s1) :=
    match s with
    | c :: r => if c =? 45 then (true, r) else (false, s)
    | [] => (false, s)
    end in
  match s1 with
  | c :: r =>
      let '(ds, rest) :=
        if c =? 48 then ([c], r)
        else let '(ds, rest) := span_digits r in (c :: ds, rest) in
      if is_digit c then
        let '(frac, r1) := frac_group rest in
        let '(exp, r2) := exp_group r1 in
        match frac, exp with
        | [], [] =>
            let n := Z.of_N (N.of_uint (uint_of_str ds)) in
            Some (JInt (if neg then (- n)%Z else n), rest)
        | _, _ =>
            Some (JFloat ((if neg then [45] else []) ++ ds ++ frac ++ exp), r2)
        end
      else None
  | [] => None
  end.

Fixpoint strip_prefix (p s : str) : option str :=
  match p, s with
  | [], _ => Some s
  | a :: p', b :: s' => if a =? b then strip_prefix p' s' else None
  | _ :: _, [] => None
  end.

(** [dict(pairs)]: a later pair with a key already present replaces its
    value and keeps the key's place. *)
Fixpoint dict_set (k : str) (v : json) (d : list (str * json)) : list (str * json) :=
  match d with
  | [] => [(k, v)]
  | (k', v') :: d' =>
      if decide (k' = k) then (k', v) :: d' else (k', v') :: dict_set k v d'
  end.

Definition dict_of_pairs (pairs : list (str * json)) : list (str * json) :=
  fold_left (fun d kv => dict_set (fst kv) (snd kv) d) pairs [].

(** The scanner.  [fuel] bounds the nesting and the number of items; the
    decoder below gives it the length of the text, which is always enough. *)
Fixpoint scan_once (fuel : nat) (s : str) : option (json * str) :=
  match fuel with
  | O => None
  | S n =>
      match s with
      | [] => None
      | c :: r =>
          if c =? 34 then
            '(k, rest) ← scanstring r; Some (JStr k, rest)
          else if c =? 123 then
            match skip_ws r with
            | q :: r1 =>
                if q =? 125 then Some (JObj [], r1)
                else if q =? 34 then
                  '(kvs, rest) ← JSONObject n r1;
                  Some (JObj (dict_of_pairs kvs), rest)
                else None
            | [] => None
            end
          else if c =? 91 then
            match skip_ws r with
            | q :: r1 =>
                if q =? 93 then Some (JArr [], r1)
                else '(vs, rest) ← JSONArray n (q :: r1); Some (JArr vs, rest)
            | [] => None
            end
          else
            match strip_prefix (py "null") s with
            | Some rest => Some (JNull, rest)
            | None =>
            match strip_prefix (py "true") s with
            | Some rest => Some (JBool true, rest)
            | None =>
            match strip_prefix (py "false") s with
            | Some rest => Some (JBool false, rest)
            | None =>
            match match_number s with
            | Some p => Some p
            | None =>
            match strip_prefix (py "NaN") s with
            | Some rest => Some (JFloat (py "NaN"), rest)
            | None =>
            match strip_prefix (py "Infinity") s with
            | Some rest => Some (JFloat (py "Infinity"), rest)
            | None =>
            match strip_prefix (py "-Infinity") s with
            | Some rest => Some (JFloat (py "-Infinity"), rest)
            | None => None
            end end end end
            end end end
      end
  end
with JSONArray (fuel : nat) (s : str) : option (list json * str) :=
  match fuel with
  | O => None
  | S n =>
      '(v, r) ← scan_once n s;
      match skip_ws r with
      | c :: r1 =>
          if c =? 93 then Some ([v], r1)
          else if c =? 44 then
            '(vs, rest) ← JSONArray n (skip_ws r1); Some (v :: vs, rest)
          else None
      | [] => None
      end
  end
with JSONObject (fuel : nat) (s : str) : option (list (str * json) * str) :=
  match fuel with
  | O => None
  | S n =>
      '(k, r) ← scanstring s;
      match skip_ws r with
      | c :: r1 =>
          if c =? 58 then
            '(v, r2) ← scan_once n (skip_ws r1);
            match skip_ws r2 with
            | d :: r3 =>
                if d =? 125 then Some ([(k, v)], r3)
                else if d =? 44 then
                  match skip_ws r3 with
                  | q :: r4 =>
                      if q =? 34 then
                        '(kvs, rest) ← JSONObject n r4; Some ((k, v) :: kvs, rest)
                      else None
                  | [] => None
                  end
                else None
            | [] => None
            end
          else None
      | [] => None
      end
  end.

(** [json.loads]: one value, white space around it, nothing else. *)
Definition json_loads (s : str) : option json :=
  '(v, rest) ← scan_once (S (length s)) (skip_ws s);
  match skip_ws rest with
  | [] => Some v
  | _ :: _ => None
  end.

(** ** Persistence *)

(** What [json.dump] makes of a Python value; the heap is read where the
    value holds references. *)
Class ToJson (A : Type) := to_json : gmap loc usuario_dict -> A -> option json.

(** A value without a float in it. *)
Fixpoint sem_float (v : json) : bool :=
  match v with
  | JFloat _ => false
  | JArr l => forallb sem_float l
  | JObj kv => forallb (fun p => sem_float (snd p)) kv
  | _ => true
  end.

Global Instance json_ToJson : ToJson json := fun _ j =>
  if sem_float j then Some j else None.

Definition json_of_usuario (u : usuario_dict) : json :=
  JObj [(py "nome", JStr (nome u));
        (py "data_nascimento", JStr (data_nascimento u));
        (py "cpf", JStr (cpf u));
        (py "endereco", JStr (endereco u))].

(** A reference to a user dictionary. *)
Global Instance loc_ToJson : ToJson loc := fun h l =>
  json_of_usuario <$> h !! l.

Global Instance conta_ToJson : ToJson conta_dict := fun h c =>
  ju ← to_json h (usuario c);
  Some (JObj [(py "agencia", JStr (agencia c));
              (py "numero_conta", JInt (numero_conta c));
              (py "usuario", ju)]).

Global Instance list_ToJson `{ToJson A} : ToJson (list A) := fun h l =>
  JArr <$> mapM (to_json h) l.

Definition set_files (f : gmap str str) (w : world) : world :=
  mk_world (stdin w) (stdout w) f (heap w).

Definition carregar_dados (arquivo : str) : M json :=
  fun w =>
    match files w !! arquivo with
    | Some text =>
        match json_loads text with
        | Some v => Ok v w
        | None => Exc JSONDecodeError w
        end
    | None => Ok (JArr []) w
    end.

Definition salvar_dados `{ToJson A} (arquivo : str) (dados : A) : M unit :=
  fun w =>
    match to_json (heap w) dados with
    | Some j => Ok tt (set_files (<[arquivo := json_dumps j]> (files w)) w)
    | None => Exc OutOfModel w
    end.

(** ** Directory *)

Definition msg_usuario_existe : str :=
  Eval vm_compute in (nl :: py "@@@ Já existe usuário com esse CPF! @@@").
Definition msg_usuario_criado : str :=
  Eval vm_compute in (py "=== Usuário criado com sucesso! ===").
Definition msg_conta_criada : str :=
  Eval vm_compute in (nl :: py "=== Conta criada com sucesso! ===").
Definition msg_usuario_nao_encontrado : str :=
  Eval vm_compute in (nl :: py "@@@ Usuário não encontrado, fluxo de criação de conta encerrado! @@@").

(** A new dictionary object. *)
Definition alloc (u : usuario_dict) : M loc :=
  fun w =>
    let l := fresh (dom (heap w)) in
    Ok l (mk_world (stdin w) (stdout w) (files w) (<[l := u]> (heap w))).

(** The first user of the list whose ["cpf"] equals [cpf_], or [None]. *)
Fixpoint filtrar_usuario (cpf_ : str) (usuarios : list loc) : M (option loc) :=
  fun w =>
    match usuarios with
    | [] => Ok None w
    | l :: rest =>
        match heap w !! l with
        | Some u =>
            if decide (cpf u = cpf_) then Ok (Some l) w
            else filtrar_usuario cpf_ rest w
        | None => Exc OutOfModel w
        end
    end.

(** [usuarios.append] changes the caller's list; the model returns it. *)
Definition criar_usuario (usuarios : list loc) : M (list loc) :=
  cpf_ ← input (py "Informe o CPF (somente número): ");
  usuario_ ← filtrar_usuario cpf_ usuarios;
  match usuario_ with
  | Some _ =>
      print msg_usuario_existe ;;
      mret usuarios
  | None =>
      nome_ ← input (py "Informe o nome completo: ");
      data_ ← input (py "Informe a data de nascimento (dd-mm-aaaa): ");
      endereco_ ← input (py "Informe o endereço (logradouro, nro - bairro - cidade/sigla estado): ");
      l ← alloc (mk_usuario nome_ data_ cpf_ endereco_);
      let usuarios := usuarios ++ [l] in
      salvar_dados USUARIOS_FILE usuarios ;;
      print msg_usuario_criado ;;
      mret usuarios
  end.

Definition criar_conta (agencia_ : str) (numero_conta_ : Z)
    (usuarios : list loc) (contas : list conta_dict) : M (list conta_dict) :=
  cpf_ ← input (py "Informe o CPF do usuário: ");
  usuario_ ← filtrar_usuario cpf_ usuarios;
  match usuario_ with
  | Some l =>
      let conta := mk_conta agencia_ numero_conta_ l in
      let contas := contas ++ [conta] in
      salvar_dados CONTAS_FILE contas ;;
      print msg_conta_criada ;;
      mret contas
  | None =>
      print msg_usuario_nao_encontrado ;;
      mret contas
  end.

(** *** [textwrap.dedent] *)

Definition is_blank (c : N) : bool := (c =? 32) || (c =? 9).

Fixpoint split_lines (s : str) : list str :=
  match s with
  | [] => [[]]
  | c :: r =>
      if c =? nl then [] :: split_lines r
      else
        match split_lines r with
        | l :: ls => (c :: l) :: ls
        | [] => [[c]]
        end
  end.

Fixpoint join_lines (ls : list str) : str :=
  match ls with
  | [] => []
  | [l] => l
  | l :: ls' => l ++ nl :: join_lines ls'
  end.

Fixpoint leading_ws (l : str) : str :=
  match l with
  | c :: r => if is_blank c then c :: leading_ws r else []
  | [] => []
  end.

Fixpoint common_prefix (a b : str) : str :=
  match a, b with
  | x :: a', y :: b' => if x =? y then x :: common_prefix a' b' else []
  | _, _ => []
  end.

Definition dedent (text : str) : str :=
  let lines :=
    map (fun l => if forallb is_blank l then [] else l) (split_lines text) in
  let indents :=
    map leading_ws (filter (fun l => negb (forallb is_blank l)) lines) in
  let margin :=
    match indents with
    | [] => []
    | i :: rest => fold_left common_prefix rest i
    end in
  join_lines (map (drop (length margin)) lines).

Definition int_repr (z : Z) : str := int_str z.

Definition listar_contas (contas : list conta_dict) : M unit :=
  (fix each (cs : list conta_dict) : M unit :=
     match cs with
     | [] => mret tt
     | conta :: rest =>
         u ← (fun w => match heap w !! usuario conta with
                       | Some u => Ok u w
                       | None => Exc OutOfModel w
                       end);
         let linha :=
           py "            Agência:" ++ [tab] ++ agencia conta ++ [nl]
           ++ py "            C/C:" ++ [tab; tab] ++ int_repr (numero_conta conta) ++ [nl]
           ++ py "            Titular:" ++ [tab] ++ nome u ++ [nl]
           ++ py "        " in
         print (repeat 61 50) ;;
         print (dedent linha) ;;
         each rest
     end) contas ;;
  print (repeat 61 50).

Definition menu_text : str :=
  [nl; nl]
  ++ py "    ================ MENU ================" ++ [nl]
  ++ py "    [d]" ++ [tab] ++ py "Depositar" ++ [nl]
  ++ py "    [s]" ++ [tab] ++ py "Sacar" ++ [nl]
  ++ py "    [e]" ++ [tab] ++ py "Extrato" ++ [nl]
  ++ py "    [nc]" ++ [tab] ++ py "Nova conta" ++ [nl]
  ++ py "    [lc]" ++ [tab] ++ py "Listar contas" ++ [nl]
  ++ py "    [nu]" ++ [tab] ++ py "Novo usuário" ++ [nl]
  ++ py "    [q]" ++ [tab] ++ py "Sair" ++ [nl]
  ++ py "    => ".

Definition menu : M str := input (dedent menu_text).

Definition exibir_extrato (saldo : float) (extrato : str) : M unit :=
  print (nl :: py "================ EXTRATO ================") ;;
  print (match extrato with
         | [] => py "Não foram realizadas movimentações."
         | _ :: _ => extrato
         end) ;;
  print ([nl] ++ py "Saldo:" ++ [tab; tab] ++ py "R$ " ++ format_2f saldo) ;;
  print (py "==========================================").

(** ** Reading the directories back at start-up

    [json.load] builds new objects.  The model's directories are typed, so
    the decoded value is turned into user and account dictionaries of the
    shape the program writes; any other content is outside the model
    ([OutOfModel]).  The interpreter raises at start-up for a text that does
    not decode and never for a shape, so [main] decodes both files before
    it looks at the shape of either. *)

Definition usuario_of_json (j : json) : option usuario_dict :=
  match j with
  | JObj [(k1, JStr a); (k2, JStr b); (k3, JStr c); (k4, JStr d)] =>
      if decide (k1 = py "nome" /\ k2 = py "data_nascimento"
                 /\ k3 = py "cpf" /\ k4 = py "endereco")
      then Some (mk_usuario a b c d) else None
  | _ => None
  end.

Definition novo_usuario (j : json) : M loc :=
  match usuario_of_json j with
  | Some u => alloc u
  | None => raise OutOfModel
  end.

Definition nova_conta (j : json) : M conta_dict :=
  match j with
  | JObj [(k1, JStr a); (k2, JInt n); (k3, ju)] =>
      if decide (k1 = py "agencia" /\ k2 = py "numero_conta" /\ k3 = py "usuario")
      then l ← novo_usuario ju; mret (mk_conta a n l)
      else raise OutOfModel
  | _ => raise OutOfModel
  end.

Fixpoint cada {A B} (f : A -> M B) (l : list A) : M (list B) :=
  match l with
  | [] => mret []
  | x :: r => y ← f x; ys ← cada f r; mret (y :: ys)
  end.

Definition usuarios_of_json (j : json) : M (list loc) :=
  match j with
  | JArr js => cada novo_usuario js
  | _ => raise OutOfModel
  end.

Definition contas_of_json (j : json) : M (list conta_dict) :=
  match j with
  | JArr js => cada nova_conta js
  | _ => raise OutOfModel
  end.

(** ** The shell *)

(** The local variables of [main]. *)
Record sessao := mk_sessao {
  saldo : float;
  limite : float;
  extrato : str;
  numero_saques : Z;
  usuarios : list loc;
  contas : list conta_dict
}.

Definition sessao_inicial (us : list loc) (cs : list conta_dict) : sessao :=
  mk_sessao 0%float 500%float [] 0 us cs.

Definition set_ledger (s : sessao) (sd : float) (ex : str) (n : Z) : sessao :=
  mk_sessao sd (limite s) ex n (usuarios s) (contas s).

(** Truth value of what [validar_valor] returns: [None] is false, a float
    is true unless it equals zero. *)
Definition truthy (v : option float) : bool :=
  match v with
  | None => false
  | Some x => negb (PrimFloat.eqb x 0)
  end.

Section Programa.

(** The builtin [float(text)]; [None] stands for [ValueError]. *)
Variable py_float : str -> option float.

Definition validar_valor (valor : str) : M (option float) :=
  match py_float valor with
  | Some valor =>
      if gt valor 0 then mret (Some valor)
      else print msg_valor_invalido ;; mret None
  | None => print msg_valor_invalido ;; mret None
  end.

(** One turn of the [while True] loop; [None] is the [break]. *)
Definition main_body (s : sessao) : M (option sessao) :=
  opcao ← menu;
  if decide (opcao = py "d") then
    text ← input (py "Informe o valor do depósito: ");
    valor ← validar_valor text;
    match valor with
    | Some v =>
        if truthy valor then
          '(sd, ex) ← depositar (saldo s) v (extrato s);
          mret (Some (set_ledger s sd ex (numero_saques s)))
        else mret (Some s)
    | None => mret (Some s)
    end
  else if decide (opcao = py "s") then
    text ← input (py "Informe o valor do saque: ");
    valor ← validar_valor text;
    match valor with
    | Some v =>
        if truthy valor then
          '(sd, ex, n) ← sacar (saldo s) v (extrato s) (limite s)
                               (numero_saques s) LIMITE_SAQUES;
          mret (Some (set_ledger s sd ex n))
        else mret (Some s)
    | None => mret (Some s)
    end
  else if decide (opcao = py "e") then
    exibir_extrato (saldo s) (extrato s) ;;
    mret (Some s)
  else if decide (opcao = py "nu") then
    us ← criar_usuario (usuarios s);
    mret (Some (mk_sessao (saldo s) (limite s) (extrato s) (numero_saques s)
                          us (contas s)))
  else if decide (opcao = py "nc") then
    let numero_conta_ := (Z.of_nat (length (contas s)) + 1)%Z in
    cs ← criar_conta AGENCIA numero_conta_ (usuarios s) (contas s);
    mret (Some (mk_sessao (saldo s) (limite s) (extrato s) (numero_saques s)
                          (usuarios s) cs))
  else if decide (opcao = py "lc") then
    listar_contas (contas s) ;;
    mret (Some s)
  else if decide (opcao = py "q") then
    print (py "Saindo do sistema. Até mais!") ;;
    mret None
  else
    print (py "Operação inválida, por favor selecione novamente a operação desejada.") ;;
    mret (Some s).

(** The loop, for at most [fuel] turns; [None] when they do not suffice.
    Every turn reads a line, so one turn more than there are lines of
    input always suffices. *)
Fixpoint main_loop (fuel : nat) (s : sessao) (w : world) : option (res unit) :=
  match fuel with
  | O => None
  | S n =>
      match main_body s w with
      | Ok (Some s') w' => main_loop n s' w'
      | Ok None w' => Some (Ok tt w')
      | Exc e w' => Some (Exc e w')
      end
  end.

Definition main (w : world) : option (res unit) :=
  match (ju ← carregar_dados USUARIOS_FILE;
         jc ← carregar_dados CONTAS_FILE;
         us ← usuarios_of_json ju;
         cs ← contas_of_json jc;
         mret (us, cs)) w with
  | Ok (us, cs) w' => main_loop (S (length (stdin w'))) (sessao_inicial us cs) w'
  | Exc e w' => Some (Exc e w')
  end.

(** The states [main] passes through at the head of its loop. *)
Inductive alcanca (s0 : sessao) (w0 : world) : sessao -> world -> Prop :=
| alcanca_inicio : alcanca s0 w0 s0 w0
| alcanca_passo s w s' w' :
    alcanca s0 w0 s w ->
    main_body s w = Ok (Some s') w' ->
    alcanca s0 w0 s' w'.

End Programa.

(** ** Vocabulary of the properties *)

(** Sign classes of a binary64 value, on its specification form. *)
Definition sf_nonneg (x : spec_float) : Prop :=
  match x with
  | S754_zero _ => True
  | S754_infinity s => s = false
  | S754_nan => False
  | S754_finite s _ _ => s = false
  end.

Definition sf_pos (x : spec_float) : Prop :=
  match x with
  | S754_infinity s => s = false
  | S754_finite s _ _ => s = false
  | _ => False
  end.

Definition w_vazio : world := mk_world [] [] ∅ ∅.

(** A world with one user, Ana, CPF 123, and that CPF typed in. *)
Definition mundo_ana : world :=
  mk_world [py "123"] [] ∅
    {[ 1%positive := mk_usuario (py "Ana") (py "01-01-2000") (py "123") (py "Rua A") ]}.

(** A call on the ledger: [depositar] or [sacar] with some amount. *)
Inductive operacao :=
| Deposito (valor : float)
| Saque (valor : float).

Definition valor_de (o : operacao) : float :=
  match o with Deposito v => v | Saque v => v end.

Definition ledger : Type := float * str * Z.

Definition ledger_inicial : ledger := (0%float, [], 0%Z).

(** The calls of a sequence, one after the other, with the limit and the
    maximum that [main] passes to [sacar]. *)
Fixpoint executar (ops : list operacao) (l : ledger) : M ledger :=
  match ops with
  | [] => mret l
  | o :: rest =>
      let '(sd, ex, n) := l in
      match o with
      | Deposito v =>
          '(sd', ex') ← depositar sd v ex;
          executar rest (sd', ex', n)
      | Saque v =>
          l' ← sacar sd v ex 500%float n LIMITE_SAQUES;
          executar rest l'
      end
  end.

(** The ledger invariant. *)
Definition ledger_ok (sd : float) (n : Z) : Prop :=
  PrimFloat.leb 0 sd = true /\ (0 <= n <= LIMITE_SAQUES)%Z.

(** The Python statement [usuario["nome"] = novo] on the dictionary object
    at [l].  The program has no such statement; it serves to say what a
    reference shares. *)
Definition editar_nome (l : loc) (novo : str) : M unit :=
  fun w =>
    match heap w !! l with
    | Some u =>
        Ok tt (mk_world (stdin w) (stdout w) (files w)
                 (<[l := mk_usuario novo (data_nascimento u) (cpf u) (endereco u)]> (heap w)))
    | None => Exc OutOfModel w
    end.

(** The text a Python [str] can hold after console input or [json.load]:
    code points below 0x110000, and no high surrogate directly followed by
    a low one. *)
Fixpoint str_ok (s : str) : bool :=
  match s with
  | [] => true
  | c :: r =>
      (c <? 1114112)
      && negb (is_high c && match r with d :: _ => is_low d | [] => false end)
      && str_ok r
  end.

Fixpoint chaves_distintas (ks : list str) : bool :=
  match ks with
  | [] => true
  | k :: r => negb (bool_decide (k ∈ r)) && chaves_distintas r
  end.

(** A value a Python object tree can be: strings as above, and the keys of
    a dictionary pairwise distinct.  Floats are left out. *)
Fixpoint json_ok (v : json) : bool :=
  match v with
  | JStr s => str_ok s
  | JArr l => forallb json_ok l
  | JObj kv =>
      chaves_distintas (map fst kv)
      && forallb (fun p => let '(k, x) := p in str_ok k && json_ok x) kv
  | JFloat _ => false
  | _ => true
  end.

Fixpoint size (v : json) : nat :=
  match v with
  | JArr l => S (fold_right (fun x n => S (size x + n)) 0%nat l)
  | JObj kv => S (fold_right (fun p n => let '(_, x) := p in S (size x + n)) 0%nat kv)
  | JFloat _ => 0
  | _ => 1
  end.

(** The rest of the items of a list, and of the members of a dictionary, as
    [iterencode] writes them. *)
Fixpoint encode_items (level : nat) (l : list json) : str :=
  match l with
  | [] => []
  | y :: ys =>
      [44] ++ newline_indent (S level) ++ iterencode (S level) y
        ++ encode_items level ys
  end.

Fixpoint encode_members (level : nat) (l : list (str * json)) : str :=
  match l with
  | [] => []
  | (k, y) :: ys =>
      [44] ++ newline_indent (S level) ++ encode_basestring_ascii k ++ [58; 32]
        ++ iterencode (S level) y ++ encode_members level ys
  end.

(** What may follow a value in the text [iterencode] writes: nothing, a
    comma or a line break. *)
Definition delim (rest : str) : Prop :=
  match rest with
  | [] => True
  | c :: _ => c = 44 \/ c = 10
  end.

(** Every reference of the directory points to a dictionary. *)
Definition dir_ok (h : gmap loc usuario_dict) (us : list loc) : Prop :=
  Forall (fun l => is_Some (h !! l)) us.

Definition contas_ok (h : gmap loc usuario_dict) (cs : list conta_dict) : Prop :=
  Forall (fun c => is_Some (h !! usuario c)) cs.

(** The directory holds a user with this CPF. *)
Definition tem_cpf (h : gmap loc usuario_dict) (us : list loc) (c : str) : Prop :=
  Exists (fun l => exists u, h !! l = Some u /\ cpf u = c) us.

(** The user data seen through an account. *)
Definition titular (h : gmap loc usuario_dict) (c : conta_dict) : option usuario_dict :=
  h !! usuario c.

(** *** Vocabulary of the round trip *)

(** What follows a [\uXXXX] escape never reads as the low half of a pair. *)
Definition safe_tail (r2 : str) : Prop :=
  match r2 with
  | b :: u :: r =>
      if (b =? 92) && (u =? 117) then
        match r with
        | g1 :: g2 :: g3 :: g4 :: _ =>
            exists uni2, decode_uXXXX g1 g2 g3 g4 = Some uni2 /\ is_low uni2 = false
        | _ => False
        end
      else True
  | _ => True
  end.

Definition not_digit_head (rest : str) : Prop :=
  match rest with
  | c :: _ => is_digit c = false
  | [] => True
  end.

Definition value_head (s : str) : Prop :=
  match s with
  | c :: _ => is_ws c = false /\ (c =? 93) = false
  | [] => False
  end.

Definition size_items (l : list json) : nat :=
  fold_right (fun x n => S (size x + n)) 0%nat l.

Definition size_members (kv : list (str * json)) : nat :=
  fold_right (fun p n => let '(_, x) := p in S (size x + n)) 0%nat kv.

(** What the round trip says of one value. *)
Definition scans_back (v : json) : Prop :=
  json_ok v = true ->
  forall level rest fuel,
    (size v <= fuel)%nat -> delim rest ->
    scan_once fuel (iterencode level v ++ rest) = Some (v, rest).

(** Induction on JSON values, through the lists. *)
Section json_induction.
Variable P : json -> Prop.
Hypothesis HNull : P JNull.
Hypothesis HBool : forall b, P (JBool b).
Hypothesis HInt : forall z, P (JInt z).
Hypothesis HStr : forall s, P (JStr s).
Hypothesis HArr : forall l, Forall P l -> P (JArr l).
Hypothesis HObj : forall kv, Forall (fun p => P (snd p)) kv -> P (JObj kv).
Hypothesis HFloat : forall t, P (JFloat t).

Fixpoint json_induction (v : json) : P v :=
  match v with
  | JNull => HNull
  | JBool b => HBool b
  | JInt z => HInt z
  | JStr s => HStr s
  | JArr l =>
      HArr l ((fix go (l : list json) : Forall P l :=
                 match l with
                 | [] => List.Forall_nil _
                 | x :: xs => List.Forall_cons _ x xs (json_induction x) (go xs)
                 end) l)
  | JObj kv =>
      HObj kv ((fix go (kv : list (str * json)) : Forall (fun p => P (snd p)) kv :=
                  match kv with
                  | [] => List.Forall_nil _
                  | p :: r =>
                      List.Forall_cons _ p r (json_induction (snd p)) (go r)
                  end) kv)
  | JFloat t => HFloat t
  end.
End json_induction.

(** A user whose four fields are text as [str_ok] describes. *)
Definition usuario_ok (u : usuario_dict) : bool :=
  str_ok (nome u) && str_ok (data_nascimento u) && str_ok (cpf u)
  && str_ok (endereco u).

(** Two records, as they stand in the two files. *)
Definition registros_exemplo : list json :=
  [json_of_usuario (mk_usuario (py "Ana Souza") (py "01-01-2000") (py "123") (py "Rua A, 1"));
   JObj [(py "agencia", JStr AGENCIA); (py "numero_conta", JInt 1);
         (py "usuario",
          json_of_usuario (mk_usuario (py "João") (py "02-02-1990") (py "456") (py "Rua B")))]].

(** An action that consumes input lines at most: it never adds any. *)
Definition nao_cresce {A} (m : M A) : Prop :=
  forall w a w', m w = Ok a w' -> (length (stdin w') <= length (stdin w))%nat.

(** An action that reads the console and writes to it, and leaves the heap
    alone; [Q] holds of what it returns. *)
Definition so_console {A} (m : M A) (Q : A -> Prop) : Prop :=
  forall w a w', m w = Ok a w' ->
    (exists lidas, stdin w = lidas ++ stdin w') /\ heap w' = heap w /\ Q a.

(** What [main] relies on between two turns of its loop. *)
Definition sessao_ok (s : sessao) (w : world) : Prop :=
  Forall (fun l => str_ok l = true) (stdin w)
  /\ map_Forall (fun _ u => usuario_ok u = true) (heap w)
  /\ dir_ok (heap w) (usuarios s)
  /\ contas_ok (heap w) (contas s).

(** ** Vocabulary of the properties of the shell *)

(** An action that only reads and writes the console: files and heap stay,
    the lines read are a prefix of the input, what is written is added at
    the end of the output; [Q] holds of what it returns. *)
Definition quadro {A} (m : M A) (Q : A -> Prop) : Prop :=
  forall w a w', m w = Ok a w' ->
    (exists lidas, stdin w = lidas ++ stdin w')
    /\ (exists escritas, stdout w' = stdout w ++ escritas)
    /\ files w' = files w /\ heap w' = heap w /\ Q a.

(** The CPFs of a directory, in its order. *)
Definition lista_cpfs (h : gmap loc usuario_dict) (us : list loc) : list str :=
  omap (fun l => cpf <$> h !! l) us.

(** A turn that touches the ledger at most: the directories and the limit
    stay, the statement grows at its end, the count goes up by one at most. *)
Definition ledger_avanca (s s' : sessao) : Prop :=
  usuarios s' = usuarios s /\ contas s' = contas s /\ limite s' = limite s
  /\ (exists novo, extrato s' = extrato s ++ novo)
  /\ (numero_saques s <= numero_saques s' <= numero_saques s + 1)%Z.

(** The accounts are numbered 1, 2, ... in the order of the directory, all
    at the one agency. *)
Definition contas_em_ordem (cs : list conta_dict) : Prop :=
  forall i c, cs !! i = Some c ->
    numero_conta c = (Z.of_nat i + 1)%Z /\ agencia c = AGENCIA.

(** The file at [arquivo] holds the present directory [dados], or both are
    as they were at the start ([dados0], [w0]). *)
Definition em_dia `{ToJson A} (arquivo : str) (dados0 : A) (w0 : world)
    (dados : A) (w : world) : Prop :=
  (dados = dados0 /\ files w !! arquivo = files w0 !! arquivo)
  \/ (exists j, to_json (heap w) dados = Some j
                /\ files w !! arquivo = Some (json_dumps j)).

(** [n] turns of the loop of [main], if none of them ends it. *)
Fixpoint turnos (py_float : str -> option float) (n : nat) (s : sessao) (w : world)
    : option (sessao * world) :=
  match n with
  | O => Some (s, w)
  | S n' =>
      match main_body py_float s w with
      | Ok (Some s') w' => turnos py_float n' s' w'
      | _ => None
      end
  end.

(** A sample session: a user is registered, the same CPF is refused, an
    account is opened, 100 is deposited, 100 is withdrawn, the statement
    is shown. *)
Definition float_exemplo (_ : str) : option float := Some 100%float.

Definition mundo_exemplo : world :=
  mk_world [py "nu"; py "123"; py "Ana"; py "01-01-2000"; py "Rua A";
            py "nu"; py "123";
            py "nc"; py "123";
            py "d"; py "100"; py "s"; py "100"; py "e"; py "q"] [] ∅ ∅.

Definition fim_exemplo : sessao * world :=
  Eval vm_compute in
    match turnos float_exemplo 6 (sessao_inicial [] []) mundo_exemplo with
    | Some p => p
    | None => (sessao_inicial [] [], mundo_exemplo)
    end.




(** The sample session, run to its end by [main]. *)
Definition saida_exemplo : world :=
  Eval vm_compute in
    match main float_exemplo mundo_exemplo with
    | Some (Ok _ w') => w'
    | _ => mundo_exemplo
    end.

(** An account as [json.dump] writes it, with the record of its owner. *)
Definition json_of_conta (c : conta_dict) (u : usuario_dict) : json :=
  JObj [(py "agencia", JStr (agencia c));
        (py "numero_conta", JInt (numero_conta c));
        (py "usuario", json_of_usuario u)].

(** The file at [arquivo] holds the directory [dados]; a directory that is
    still empty may have no file yet. *)
Definition gravado `{ToJson A} (arquivo : str) (dados : list A) (w : world) : Prop :=
  (dados = [] /\ files w !! arquivo = None)
  \/ (exists j, to_json (heap w) dados = Some j
                /\ files w !! arquivo = Some (json_dumps j)).

(** A new start on the files the sample session has left. *)
Definition mundo_reinicio : world :=
  mk_world [py "lc"; py "q"] [] (files (snd fim_exemplo)) ∅.

(** A registration followed by the opening of an account for the CPF just
    registered. *)
Definition mundo_cadastro : world :=
  mk_world [py "123"; py "Ana"; py "01-01-2000"; py "Rua A"; py "123"] [] ∅ ∅.

Definition apos_cadastro : list loc * world :=
  Eval vm_compute in
    match criar_usuario [] mundo_cadastro with
    | Ok us w => (us, w)
    | Exc _ w => ([], w)
    end.



(** The statement line of a movement, and what it does to the balance. *)
Definition linha_de (o : operacao) : str :=
  match o with
  | Deposito v => linha_deposito v
  | Saque v => linha_saque v
  end.

Definition aplicar (sd : float) (o : operacao) : float :=
  match o with
  | Deposito v => (sd + v)%float
  | Saque v => (sd - v)%float
  end.

Definition eh_saque (o : operacao) : bool :=
  match o with
  | Deposito _ => false
  | Saque _ => true
  end.

(** The ledger of the session is the one the movements [movs] make, taken
    in their order from the empty ledger: the statement is their lines,
    the balance their running total, the count the number of withdrawals
    among them. *)
Definition lancado (movs : list operacao) (s : sessao) : Prop :=
  extrato s = concat (map linha_de movs)
  /\ saldo s = fold_left aplicar movs 0%float
  /\ numero_saques s = Z.of_nat (length (List.filter eh_saque movs))
  /\ Forall (fun o => gt (valor_de o) 0 = true) movs.

(** Every account can be shown: its owner is there, and its agency and the
    name of its owner are text the console encodes. *)
Definition contas_imprimiveis (h : gmap loc usuario_dict) (cs : list conta_dict) : Prop :=
  Forall (fun c => codificavel (agencia c) = true
                   /\ exists u, h !! usuario c = Some u /\ codificavel (nome u) = true) cs.




(** The two files are those a sound state of the program leaves behind:
    each is absent, its directory being empty, or holds what [json.dump]
    writes for its directory; the accounts are numbered in order. *)
Definition arquivos_do_programa (w : world) : Prop :=
  exists s1 w1,
    files w1 = files w
    /\ map_Forall (fun _ u => usuario_ok u = true) (heap w1)
    /\ dir_ok (heap w1) (usuarios s1) /\ contas_ok (heap w1) (contas s1)
    /\ contas_em_ordem (contas s1)
    /\ gravado USUARIOS_FILE (usuarios s1) w1
    /\ gravado CONTAS_FILE (contas s1) w1.



(* ================================================================== *)
(** * Properties *)

(** ** Binary64 arithmetic: the sign of sums and differences *)

Lemma Prim2SF_zero : Prim2SF 0 = S754_zero false.
Proof. reflexivity. Qed.

Lemma leb_zero_nonneg x : PrimFloat.leb 0 x = true <-> sf_nonneg (Prim2SF x).
Proof.
  rewrite leb_spec, Prim2SF_zero. unfold SFleb, SFcompare.
  destruct (Prim2SF x) as [s|s| |s m e]; simpl; try destruct s; intuition congruence.
Qed.

Lemma ltb_zero_pos x : PrimFloat.ltb 0 x = true <-> sf_pos (Prim2SF x).
Proof.
  rewrite ltb_spec, Prim2SF_zero. unfold SFltb, SFcompare.
  destruct (Prim2SF x) as [s|s| |s m e]; simpl; try destruct s; intuition congruence.
Qed.

Lemma SFcompare_antisym x y :
  SFcompare y x = CompOpp <$> SFcompare x y.
Proof.
  destruct x as [sx|sx| |sx mx ex], y as [sy|sy| |sy my ey]; simpl;
    try destruct sx; try destruct sy; simpl; try reflexivity.
  - rewrite (Z.compare_antisym ey ex).
    destruct (ey ?= ex)%Z; simpl; try reflexivity.
    rewrite <- (Pos.compare_cont_antisym _ _ Eq). simpl.
    now destruct (Pos.compare_cont Eq mx my).
  - rewrite (Z.compare_antisym ey ex).
    destruct (ey ?= ex)%Z; simpl; try reflexivity.
    rewrite <- (Pos.compare_cont_antisym _ _ Eq). reflexivity.
Qed.

Lemma leb_ltb x y : PrimFloat.leb x y = true -> PrimFloat.ltb y x = false.
Proof.
  rewrite leb_spec, ltb_spec. unfold SFleb, SFltb.
  rewrite (SFcompare_antisym (Prim2SF x) (Prim2SF y)).
  destruct (SFcompare (Prim2SF x) (Prim2SF y)) as [[]|]; simpl; congruence.
Qed.

(** Rounding a non-negative mantissa never yields a negative number or a
    NaN. *)
Lemma iter_pos_inv {A} (P : A -> Prop) (f : A -> A) :
  (forall x, P x -> P (f x)) -> forall n x, P x -> P (SpecFloat.iter_pos f n x).
Proof.
  intros Hf. induction n as [n IH|n IH|]; simpl; intros x Hx; auto.
Qed.

Lemma shr_1_nonneg mrs : (0 <= shr_m mrs)%Z -> (0 <= shr_m (shr_1 mrs))%Z.
Proof.
  destruct mrs as [m r s]. simpl.
  destruct m as [|p|p]; simpl; try lia; destruct p; simpl; lia.
Qed.

Lemma shr_nonneg mrs e n : (0 <= shr_m mrs)%Z -> (0 <= shr_m (fst (shr mrs e n)))%Z.
Proof.
  intros H. unfold shr. destruct n; simpl; auto.
  apply (iter_pos_inv (fun x => (0 <= shr_m x)%Z)); auto using shr_1_nonneg.
Qed.

Lemma shr_fexp_nonneg m e l :
  (0 <= m)%Z -> (0 <= shr_m (fst (shr_fexp prec emax m e l)))%Z.
Proof.
  intros H. unfold shr_fexp. apply shr_nonneg.
  destruct l as [|[]]; simpl; exact H.
Qed.

Lemma round_nearest_even_nonneg m l : (0 <= m)%Z -> (0 <= round_nearest_even m l)%Z.
Proof.
  intros H. unfold round_nearest_even.
  destruct l as [|[]]; try lia. destruct (Z.even m); lia.
Qed.

Lemma binary_round_aux_nonneg m e l :
  (0 <= m)%Z -> sf_nonneg (binary_round_aux prec emax false m e l).
Proof.
  intros H. unfold binary_round_aux.
  pose proof (shr_fexp_nonneg m e l H) as H1.
  destruct (shr_fexp prec emax m e l) as [mrs' e'] eqn:E1. simpl in H1.
  pose proof (shr_fexp_nonneg _ e' loc_Exact
                (round_nearest_even_nonneg _ (loc_of_shr_record mrs') H1)) as H2.
  destruct (shr_fexp prec emax (round_nearest_even (shr_m mrs') (loc_of_shr_record mrs')) e' loc_Exact)
    as [mrs'' e''] eqn:E2.
  simpl in H2.
  destruct (shr_m mrs'') as [|p|p]; simpl; auto; try lia.
  destruct (e'' <=? emax - prec)%Z; simpl; auto.
Qed.

Lemma binary_round_nonneg m e : sf_nonneg (binary_round prec emax false m e).
Proof.
  unfold binary_round.
  destruct (shl_align m e _) as [mz ez].
  apply binary_round_aux_nonneg. lia.
Qed.

Lemma binary_normalize_nonneg m e : (0 <= m)%Z -> sf_nonneg (binary_normalize prec emax m e false).
Proof.
  intros H. destruct m; simpl; auto; try lia. apply binary_round_nonneg.
Qed.

Lemma SFadd_nonneg x y : sf_nonneg x -> sf_pos y -> sf_nonneg (SF64add x y).
Proof.
  unfold SF64add.
  destruct x as [sx|sx| |sx mx ex], y as [sy|sy| |sy my ey]; simpl; intros Hx Hy;
    subst; try contradiction; try destruct sx; simpl; auto.
  apply binary_round_nonneg.
Qed.

(** Aligned mantissas. *)
Lemma shl_align_value m e e' :
  (e' <= e)%Z -> Zpos (fst (shl_align m e e')) = (Zpos m * 2 ^ (e - e'))%Z.
Proof.
  intros H. unfold shl_align.
  destruct (e' - e)%Z as [|p|p] eqn:E; simpl.
  - replace (e - e')%Z with 0%Z by lia. simpl. lia.
  - lia.
  - change (Pos.iter xO m p) with (shift_pos p m).
    rewrite shift_pos_correct. replace (e - e')%Z with (Zpos p) by lia.
    rewrite Z.pow_pos_fold. lia.
Qed.

Lemma digits2_pos_bounds m :
  (2 ^ (Zpos (digits2_pos m) - 1) <= Zpos m < 2 ^ Zpos (digits2_pos m))%Z.
Proof.
  induction m as [m IH|m IH|]; simpl digits2_pos; [| |simpl; lia].
  all: rewrite Pos2Z.inj_succ;
    replace (Z.succ (Zpos (digits2_pos m)) - 1)%Z with (Zpos (digits2_pos m)) by lia;
    rewrite Z.pow_succ_r by lia;
    assert (2 ^ Zpos (digits2_pos m) = 2 * 2 ^ (Zpos (digits2_pos m) - 1))%Z as E
      by (rewrite <- Z.pow_succ_r by lia; f_equal; lia).
  all: revert IH E; generalize (2 ^ (Zpos (digits2_pos m) - 1))%Z;
    generalize (2 ^ Zpos (digits2_pos m))%Z; intros a b IH E.
  - rewrite Pos2Z.inj_xI. lia.
  - rewrite Pos2Z.inj_xO. lia.
Qed.

Lemma bounded_facts m e :
  bounded prec emax m e = true ->
  (Zpos m < 2 ^ 53)%Z /\ ((-1074 < e)%Z -> (2 ^ 52 <= Zpos m)%Z) /\ (-1074 <= e)%Z.
Proof.
  unfold bounded, canonical_mantissa, fexp, SpecFloat.emin, prec, emax.
  intros H. apply andb_true_iff in H as [H _]. apply Z.eqb_eq in H.
  pose proof (digits2_pos_bounds m) as [Hlo Hhi].
  assert (Zpos (digits2_pos m) <= 53)%Z as Hd by lia.
  split; [|split].
  - eapply Z.lt_le_trans; [exact Hhi|]. apply Z.pow_le_mono_r; lia.
  - intros He. assert (Zpos (digits2_pos m) = 53)%Z as E by lia.
    rewrite E in Hlo. exact Hlo.
  - lia.
Qed.

Lemma SFsub_nonneg x y :
  valid_binary x = true -> valid_binary y = true ->
  sf_nonneg x -> sf_pos y -> SFltb x y = false -> (exists s m e, y = S754_finite s m e) ->
  sf_nonneg (SF64sub x y).
Proof.
  unfold SF64sub, SFltb.
  intros Vx Vy Hx Hy Hc [s [m [e ->]]]. simpl in Hy. subst s.
  destruct x as [sx|sx| |sx mx ex]; simpl in *; subst; try contradiction; auto;
    try discriminate.
  apply binary_normalize_nonneg. unfold cond_Zopp.
    apply bounded_facts in Vx as (Hx1 & Hx2 & Hx3).
    apply bounded_facts in Vy as (Hy1 & Hy2 & Hy3).
    destruct (ex ?= e)%Z eqn:E.
    + apply Z.compare_eq in E. subst e. rewrite Z.min_id.
      rewrite !shl_align_value by lia. rewrite Z.sub_diag. simpl.
      assert (Pos.compare_cont Eq mx m <> Lt) as Hm by (destruct (Pos.compare_cont Eq mx m); congruence).
      change (Pos.compare_cont Eq mx m) with (mx ?= m)%positive in Hm.
      rewrite Pos.compare_lt_iff in Hm. rewrite Z.pow_0_r. lia.
    + discriminate.
    + rewrite Z.compare_gt_iff in E. rewrite Z.min_r by lia.
      rewrite !shl_align_value by lia. rewrite Z.sub_diag.
      assert (2 ^ 1 <= 2 ^ (ex - e))%Z by (apply Z.pow_le_mono_r; lia).
      specialize (Hx2 ltac:(lia)). nia.
Qed.

Lemma add_nonneg (s v : float) :
  PrimFloat.leb 0 s = true -> PrimFloat.ltb 0 v = true ->
  PrimFloat.leb 0 (s + v) = true.
Proof.
  rewrite !leb_zero_nonneg, ltb_zero_pos, add_spec. apply SFadd_nonneg.
Qed.

Lemma sub_nonneg (s v : float) :
  PrimFloat.leb 0 s = true -> PrimFloat.ltb 0 v = true ->
  gt v s = false -> gt v 500 = false ->
  PrimFloat.leb 0 (s - v) = true.
Proof.
  unfold gt. rewrite !leb_zero_nonneg, ltb_zero_pos, sub_spec, !ltb_spec.
  intros Hs Hv Hsv Hlim.
  apply SFsub_nonneg; auto using Prim2SF_valid.
  destruct (Prim2SF v) as [sv|sv| |sv mv ev]; simpl in Hv; try contradiction; eauto.
  subst sv. vm_compute in Hlim. discriminate.
Qed.

(** ** The monad *)

Lemma bind_Ok {A B} (m : M A) (k : A -> M B) w b w' :
  (m ≫= k) w = Ok b w' <-> exists a w1, m w = Ok a w1 /\ k a w1 = Ok b w'.
Proof.
  unfold mbind, M_bind. destruct (m w) as [a w1|e w1]; split.
  - eauto.
  - now intros (a' & w2 & [= <- <-] & H).
  - discriminate.
  - now intros (a' & w2 & [=] & _).
Qed.

Lemma bind_eq {A B} (m : M A) (k : A -> M B) w a w1 :
  m w = Ok a w1 -> (m ≫= k) w = k a w1.
Proof. unfold mbind, M_bind. now intros ->. Qed.

Lemma print_eq s w :
  codificavel s = true -> print s w = Ok tt (write (s ++ [nl]) w).
Proof. unfold print. now intros ->. Qed.

Lemma print_Ok s w a w' : print s w = Ok a w' -> w' = write (s ++ [nl]) w.
Proof. unfold print. destruct (codificavel s); [|discriminate]. now intros [= _ <-]. Qed.

(** ** Statement lines *)

Lemma uint_str_not_nl d : nl ∉ uint_str d.
Proof.
  induction d; simpl; rewrite ?not_elem_of_cons; try (split; [discriminate|assumption]).
  apply not_elem_of_nil.
Qed.

Lemma dec_not_nl n : nl ∉ dec n.
Proof. apply uint_str_not_nl. Qed.

Lemma literal_not_nl (s : str) : forallb (fun c => negb (c =? nl)) s = true -> nl ∉ s.
Proof.
  induction s as [|c s IH]; simpl; [intros _; apply not_elem_of_nil|].
  intros [Hc Hs]%andb_true_iff. apply not_elem_of_cons. split; [|auto].
  apply negb_true_iff, N.eqb_neq in Hc. congruence.
Qed.

Lemma format_2f_not_nl x : nl ∉ format_2f x.
Proof.
  unfold format_2f, two_digits, sign_str.
  destruct (Prim2SF x) as [s|s| |s m e]; try destruct s;
    repeat match goal with |- context [if ?b then _ else _] => destruct b end;
    rewrite ?not_elem_of_app, ?not_elem_of_cons;
    repeat split; try apply dec_not_nl; try discriminate;
    try (apply literal_not_nl; reflexivity).
Qed.

Lemma linha_deposito_uma_linha valor :
  exists corpo, linha_deposito valor = corpo ++ [nl] /\ nl ∉ corpo.
Proof.
  exists (py "Depósito:" ++ [tab] ++ py "R$ " ++ format_2f valor).
  split; [unfold linha_deposito; now rewrite <- !app_assoc|].
  rewrite !not_elem_of_app. repeat split; try apply format_2f_not_nl;
    apply literal_not_nl; reflexivity.
Qed.

Lemma linha_saque_uma_linha valor :
  exists corpo, linha_saque valor = corpo ++ [nl] /\ nl ∉ corpo.
Proof.
  exists (py "Saque:" ++ [tab; tab] ++ py "R$ " ++ format_2f valor).
  split; [unfold linha_saque; now rewrite <- !app_assoc|].
  rewrite !not_elem_of_app. repeat split; try apply format_2f_not_nl;
    apply literal_not_nl; reflexivity.
Qed.

(** ** The ledger *)

(** C4: a deposit always succeeds; it returns the balance plus the amount
    and the statement with exactly one more line, the deposit line; of the
    world only the console output grows, by the success message.  The
    amount need not even be positive for this. *)
Theorem depositar_soma_e_registra (saldo_ valor : float) (extrato_ : str) (w : world) :
  depositar saldo_ valor extrato_ w
    = Ok ((saldo_ + valor)%float, extrato_ ++ linha_deposito valor)
         (write (msg_deposito_ok ++ [nl]) w)
  /\ (exists corpo, linha_deposito valor = corpo ++ [nl] /\ nl ∉ corpo)
  /\ stdin (write (msg_deposito_ok ++ [nl]) w) = stdin w
  /\ files (write (msg_deposito_ok ++ [nl]) w) = files w
  /\ heap (write (msg_deposito_ok ++ [nl]) w) = heap w.
Proof.
  split; [reflexivity|]. split; [apply linha_deposito_uma_linha|]. now split.
Qed.

(** The four outcomes of [sacar], in the order the source tests them. *)
Lemma sacar_eq saldo_ valor extrato_ limite_ n lim w :
  sacar saldo_ valor extrato_ limite_ n lim w =
    if gt valor saldo_ then
      Ok (saldo_, extrato_, n) (write (msg_sem_saldo ++ [nl]) w)
    else if gt valor limite_ then
      Ok (saldo_, extrato_, n) (write (msg_excede_limite ++ [nl]) w)
    else if (n >=? lim)%Z then
      Ok (saldo_, extrato_, n) (write (msg_excede_saques ++ [nl]) w)
    else
      Ok ((saldo_ - valor)%float, extrato_ ++ linha_saque valor, (n + 1)%Z)
         (write (msg_saque_ok ++ [nl]) w).
Proof.
  unfold sacar.
  destruct (gt valor saldo_); [reflexivity|].
  destruct (gt valor limite_); [reflexivity|].
  destruct (n >=? lim)%Z; reflexivity.
Qed.

Lemma mensagens_distintas :
  msg_sem_saldo <> msg_excede_limite /\ msg_sem_saldo <> msg_excede_saques
  /\ msg_excede_limite <> msg_excede_saques.
Proof. repeat split; vm_compute; discriminate. Qed.

(** C2: an amount above the balance is refused with the "insufficient
    balance" message and nothing else, whatever the limit and the count;
    the three refusals are tried in the order balance, limit, count, and
    the first that applies gives the one message written; balance,
    statement and count come back unchanged. *)
Theorem sacar_prioridade (saldo_ valor : float) (extrato_ : str) (limite_ : float)
    (n lim : Z) (w : world) :
  (gt valor saldo_ = true ->
     sacar saldo_ valor extrato_ limite_ n lim w
       = Ok (saldo_, extrato_, n) (write (msg_sem_saldo ++ [nl]) w))
  /\ (gt valor saldo_ = false -> gt valor limite_ = true ->
     sacar saldo_ valor extrato_ limite_ n lim w
       = Ok (saldo_, extrato_, n) (write (msg_excede_limite ++ [nl]) w))
  /\ (gt valor saldo_ = false -> gt valor limite_ = false -> (lim <= n)%Z ->
     sacar saldo_ valor extrato_ limite_ n lim w
       = Ok (saldo_, extrato_, n) (write (msg_excede_saques ++ [nl]) w))
  /\ msg_sem_saldo <> msg_excede_limite /\ msg_sem_saldo <> msg_excede_saques
  /\ msg_excede_limite <> msg_excede_saques.
Proof.
  rewrite sacar_eq. split; [|split; [|split]].
  - now intros ->.
  - now intros -> ->.
  - intros -> -> H. now apply Z.geb_le in H as ->.
  - apply mensagens_distintas.
Qed.

Lemma sacar_prioridade_witness :
  sacar 10 20 [] 5 3 3 w_vazio = Ok (10%float, [], 3%Z) (write (msg_sem_saldo ++ [nl]) w_vazio)
  /\ sacar 1000 600 [] 500 0 3 w_vazio
     = Ok (1000%float, [], 0%Z) (write (msg_excede_limite ++ [nl]) w_vazio)
  /\ sacar 1000 100 [] 500 3 3 w_vazio
     = Ok (1000%float, [], 3%Z) (write (msg_excede_saques ++ [nl]) w_vazio).
Proof.
  split; [|split].
  - exact (proj1 (sacar_prioridade 10 20 [] 5 3 3 w_vazio) eq_refl).
  - exact (proj1 (proj2 (sacar_prioridade 1000 600 [] 500 0 3 w_vazio)) eq_refl eq_refl).
  - refine (proj1 (proj2 (proj2 (sacar_prioridade 1000 100 [] 500 3 3 w_vazio)))
              eq_refl eq_refl _).
    lia.
Defined.

(** C10: a positive amount within the balance and the limit, with
    withdrawals left, is paid out: the balance goes down by the amount, the
    statement gets exactly one withdrawal line, the count goes up by one.
    The comparisons are strict, so the whole balance, and the whole limit,
    can be withdrawn. *)
Theorem sacar_sucesso (saldo_ valor : float) (extrato_ : str) (limite_ : float)
    (n lim : Z) (w : world) :
  PrimFloat.ltb 0 valor = true ->
  PrimFloat.leb valor saldo_ = true ->
  PrimFloat.leb valor limite_ = true ->
  (n < lim)%Z ->
  sacar saldo_ valor extrato_ limite_ n lim w
    = Ok ((saldo_ - valor)%float, extrato_ ++ linha_saque valor, (n + 1)%Z)
         (write (msg_saque_ok ++ [nl]) w)
  /\ exists corpo, linha_saque valor = corpo ++ [nl] /\ nl ∉ corpo.
Proof.
  intros _ Hs Hl Hn. split; [|apply linha_saque_uma_linha].
  rewrite sacar_eq. unfold gt.
  rewrite (leb_ltb _ _ Hs), (leb_ltb _ _ Hl).
  destruct (n >=? lim)%Z eqn:E; [|reflexivity].
  apply Z.geb_le in E. lia.
Qed.

Lemma sacar_sucesso_witness :
  sacar 500 500 [] 500 2 3 w_vazio
    = Ok ((500 - 500)%float, [] ++ linha_saque 500, (2 + 1)%Z)
         (write (msg_saque_ok ++ [nl]) w_vazio).
Proof.
  apply (sacar_sucesso 500 500 [] 500 2 3 w_vazio); [reflexivity|reflexivity|reflexivity|lia].
Defined.

(** C1, as the code has it: once the count has reached the maximum, every
    call of [sacar] is refused, for any amount, and balance, statement and
    count come back unchanged with exactly one message written.  The
    message is the "max withdrawals" one only when the amount passes the
    two earlier tests; an amount above the balance gets the balance
    message, one within the balance but above the limit gets the limit
    message. *)
Theorem sacar_maximo_atingido (saldo_ valor : float) (extrato_ : str) (limite_ : float)
    (n lim : Z) (w : world) :
  (lim <= n)%Z ->
  sacar saldo_ valor extrato_ limite_ n lim w
    = Ok (saldo_, extrato_, n)
         (write ((if gt valor saldo_ then msg_sem_saldo
                  else if gt valor limite_ then msg_excede_limite
                  else msg_excede_saques) ++ [nl]) w).
Proof.
  intros H. rewrite sacar_eq.
  apply Z.geb_le in H as ->.
  destruct (gt valor saldo_); [reflexivity|].
  destruct (gt valor limite_); reflexivity.
Qed.

Lemma sacar_maximo_atingido_witness :
  sacar 100 10 [] 500 3 3 w_vazio
    = Ok (100%float, [], 3%Z)
         (write ((if gt 10 100 then msg_sem_saldo
                  else if gt 10 500 then msg_excede_limite
                  else msg_excede_saques) ++ [nl]) w_vazio).
Proof.
  apply (sacar_maximo_atingido 100 10 [] 500 3 3 w_vazio). lia.
Defined.

(** C1, as stated, fails: deposit 30, withdraw 10 three times; the balance
    is then 0 and the count 3.  A fourth withdrawal of 10 is refused with
    the balance message, not with the "max withdrawals" one. *)
Lemma sacar_maximo_mensagem_counterexample :
  exists ex w,
    executar [Deposito 30; Saque 10; Saque 10; Saque 10] ledger_inicial w_vazio
      = Ok (0%float, ex, 3%Z) w
    /\ sacar 0 10 ex 500 3 LIMITE_SAQUES w
       = Ok (0%float, ex, 3%Z) (write (msg_sem_saldo ++ [nl]) w)
    /\ sacar 0 10 ex 500 3 LIMITE_SAQUES w
       <> Ok (0%float, ex, 3%Z) (write (msg_excede_saques ++ [nl]) w).
Proof.
  eexists _, _. split; [vm_compute; reflexivity|].
  split; [reflexivity|].
  intros H. vm_compute in H. discriminate H.
Qed.

(** ** The ledger invariant *)

Lemma depositar_ok sd v ex n w :
  ledger_ok sd n -> PrimFloat.ltb 0 v = true ->
  exists sd' ex' w', depositar sd v ex w = Ok (sd', ex') w' /\ ledger_ok sd' n.
Proof.
  intros [Hs Hn] Hv. eexists _, _, _. split; [reflexivity|].
  split; [now apply add_nonneg|exact Hn].
Qed.

Lemma sacar_ok sd v ex n w :
  ledger_ok sd n -> PrimFloat.ltb 0 v = true ->
  exists sd' ex' n' w',
    sacar sd v ex 500 n LIMITE_SAQUES w = Ok (sd', ex', n') w' /\ ledger_ok sd' n'.
Proof.
  intros [Hs Hn] Hv. rewrite sacar_eq.
  destruct (gt v sd) eqn:E1; [eexists _, _, _, _; split; [reflexivity|now split]|].
  destruct (gt v 500) eqn:E2; [eexists _, _, _, _; split; [reflexivity|now split]|].
  destruct (n >=? LIMITE_SAQUES)%Z eqn:E3;
    [eexists _, _, _, _; split; [reflexivity|now split]|].
  eexists _, _, _, _; split; [reflexivity|]. split.
  - now apply sub_nonneg.
  - rewrite Z.geb_leb in E3. apply Z.leb_gt in E3. lia.
Qed.

Lemma executar_ok ops : forall sd ex n w,
  Forall (fun o => PrimFloat.ltb 0 (valor_de o) = true) ops ->
  ledger_ok sd n ->
  exists sd' ex' n' w',
    executar ops (sd, ex, n) w = Ok (sd', ex', n') w' /\ ledger_ok sd' n'.
Proof.
  induction ops as [|o ops IH]; intros sd ex n w Hops Hok.
  - eexists _, _, _, _. split; [reflexivity|exact Hok].
  - apply Forall_cons in Hops as [Ho Hops]. destruct o as [v|v]; simpl in Ho |- *.
    + destruct (depositar_ok sd v ex n w Hok Ho) as (sd' & ex' & w' & E & Hok').
      rewrite (bind_eq _ _ _ _ _ E). now apply IH.
    + destruct (sacar_ok sd v ex n w Hok Ho) as (sd' & ex' & n' & w' & E & Hok').
      rewrite (bind_eq _ _ _ _ _ E). now apply IH.
Qed.

(** C3: from the initial ledger, every finite sequence of deposits and
    withdrawals of positive amounts runs to its end and leaves a balance
    that is not negative and a count that is at most the maximum. *)
Theorem ledger_nunca_negativo (ops : list operacao) (w : world) :
  Forall (fun o => PrimFloat.ltb 0 (valor_de o) = true) ops ->
  exists sd ex n w',
    executar ops ledger_inicial w = Ok (sd, ex, n) w'
    /\ PrimFloat.leb 0 sd = true /\ (n <= LIMITE_SAQUES)%Z.
Proof.
  intros Hops.
  destruct (executar_ok ops 0%float [] 0%Z w Hops) as (sd & ex & n & w' & E & Hs & Hn).
  - split; [reflexivity|unfold LIMITE_SAQUES; lia].
  - exists sd, ex, n, w'. split; [exact E|]. split; [exact Hs|lia].
Qed.

Lemma ledger_nunca_negativo_witness :
  exists sd ex n w',
    executar [Deposito 100; Saque 50; Saque 600; Saque 50; Saque 0.5; Saque 0.25]
      ledger_inicial w_vazio = Ok (sd, ex, n) w'
    /\ PrimFloat.leb 0 sd = true /\ (n <= LIMITE_SAQUES)%Z.
Proof.
  apply (ledger_nunca_negativo
           [Deposito 100; Saque 50; Saque 600; Saque 50; Saque 0.5; Saque 0.25] w_vazio).
  repeat constructor.
Defined.

(** ** The validator and its caller *)

Lemma input_eq prompt w l rest :
  stdin w = l :: rest -> codificavel prompt = true ->
  input prompt w = Ok l (mk_world rest (stdout w ++ [prompt]) (files w) (heap w)).
Proof. unfold input. intros Hs ->. simpl. now rewrite Hs. Qed.

Lemma validar_valor_eq py_float text w :
  validar_valor py_float text w =
    match py_float text with
    | Some v =>
        if gt v 0 then Ok (Some v) w
        else Ok None (write (msg_valor_invalido ++ [nl]) w)
    | None => Ok None (write (msg_valor_invalido ++ [nl]) w)
    end.
Proof.
  unfold validar_valor. destruct (py_float text) as [v|]; [|reflexivity].
  destruct (gt v 0); reflexivity.
Qed.

Lemma validar_valor_Some py_float text w v w' :
  validar_valor py_float text w = Ok (Some v) w' ->
  py_float text = Some v /\ gt v 0 = true /\ w' = w.
Proof.
  rewrite validar_valor_eq. destruct (py_float text) as [x|]; [|discriminate].
  destruct (gt x 0) eqn:E; [|discriminate].
  now intros [= -> ->].
Qed.

Lemma Ok_inj {A} (a b : A) (w w' : world) : Ok a w = Ok b w' -> a = b /\ w = w'.
Proof. now intros [= -> ->]. Qed.

(** Taking a successful run of a [do]-block apart, one bind at a time. *)
Ltac inv_bind H :=
  repeat match type of H with
    | (_ ≫= _) _ = Ok _ _ =>
        let a := fresh "a" in let w := fresh "w" in let E := fresh "E" in
        apply bind_Ok in H as (a & w & E & H)
    | mret _ _ = Ok _ _ => apply Ok_inj in H as [? ?]; simplify_eq
    end.

(** C9: [validar_valor] returns the amount exactly when the text parses and
    the parsed value is strictly positive, and then writes nothing; in every
    other case it writes the failure message and returns [None]; and after
    a [None] the deposit and withdrawal commands of [main] leave the whole
    session, the ledger included, as it was. *)
Theorem validar_valor_contrato (py_float : str -> option float) (text : str) (w : world) :
  (forall v w',
     validar_valor py_float text w = Ok (Some v) w'
     <-> py_float text = Some v /\ gt v 0 = true /\ w' = w)
  /\ ((forall v, py_float text = Some v -> gt v 0 = false) ->
      validar_valor py_float text w = Ok None (write (msg_valor_invalido ++ [nl]) w)
      /\ forall s op rest w1,
           op = py "d" \/ op = py "s" ->
           stdin w1 = op :: text :: rest ->
           exists w2, main_body py_float s w1 = Ok (Some s) w2
                      /\ stdin w2 = rest /\ files w2 = files w1 /\ heap w2 = heap w1).
Proof.
  split.
  - intros v w'. split; [apply validar_valor_Some|].
    intros (E & Hv & ->). rewrite validar_valor_eq, E, Hv. reflexivity.
  - intros Hinv.
    assert (forall w0, validar_valor py_float text w0
                       = Ok None (write (msg_valor_invalido ++ [nl]) w0)) as Hval.
    { intros w0. rewrite validar_valor_eq. destruct (py_float text) as [v|] eqn:E; [|reflexivity].
      now rewrite (Hinv v eq_refl). }
    split; [apply Hval|].
    intros s op rest w1 Hop Hin. unfold main_body, menu.
    erewrite bind_eq by (apply input_eq; [exact Hin|vm_compute; reflexivity]).
    destruct Hop as [-> | ->].
    + rewrite decide_True by reflexivity.
      erewrite bind_eq by (apply input_eq; [reflexivity|vm_compute; reflexivity]).
      rewrite (bind_eq _ _ _ _ _ (Hval _)).
      eexists. split; [reflexivity|]. now repeat split.
    + rewrite decide_False by (vm_compute; discriminate).
      rewrite decide_True by reflexivity.
      erewrite bind_eq by (apply input_eq; [reflexivity|vm_compute; reflexivity]).
      rewrite (bind_eq _ _ _ _ _ (Hval _)).
      eexists. split; [reflexivity|]. now repeat split.
Qed.

Lemma validar_valor_contrato_witness :
  validar_valor (fun _ => Some 0%float) (py "0") w_vazio
    = Ok None (write (msg_valor_invalido ++ [nl]) w_vazio)
  /\ exists w2,
       main_body (fun _ => Some 0%float) (sessao_inicial [] [])
         (mk_world [py "s"; py "0"; py "q"] [] ∅ ∅) = Ok (Some (sessao_inicial [] [])) w2
       /\ stdin w2 = [py "q"].
Proof.
  destruct (proj2 (validar_valor_contrato (fun _ => Some 0%float) (py "0") w_vazio))
    as [H1 H2].
  - now intros v [= <-].
  - split; [exact H1|].
    destruct (H2 (sessao_inicial [] []) (py "s") [py "q"]
                 (mk_world [py "s"; py "0"; py "q"] [] ∅ ∅)) as (w2 & E & Hs & _).
    + now right.
    + reflexivity.
    + exists w2. now split.
Defined.

(** ** The invariant along [main] *)

Lemma truthy_pos v : gt v 0 = true -> truthy (Some v) = true.
Proof.
  unfold gt, truthy. rewrite ltb_spec, FloatAxioms.eqb_spec, Prim2SF_zero.
  unfold SFltb, SFeqb.
  rewrite (SFcompare_antisym (S754_zero false) (Prim2SF v)).
  now destruct (SFcompare (S754_zero false) (Prim2SF v)) as [[]|].
Qed.

Lemma main_body_ledger_ok py_float s w s' w' :
  main_body py_float s w = Ok (Some s') w' ->
  ledger_ok (saldo s) (numero_saques s) /\ limite s = 500%float ->
  ledger_ok (saldo s') (numero_saques s') /\ limite s' = 500%float.
Proof.
  intros H [Hok Hlim]. unfold main_body in H.
  apply bind_Ok in H as (op & w1 & _ & H).
  repeat match type of H with
    | (if decide ?P then _ else _) _ = _ => destruct (decide P) as [_|_]
    end; inv_bind H; try (now split).
  - (* d *)
    destruct a0 as [v|]; [|inv_bind H; now split].
    apply validar_valor_Some in E0 as (_ & Hv & ->).
    rewrite (truthy_pos _ Hv) in H.
    destruct (depositar_ok (saldo s) v (extrato s) (numero_saques s) w0 Hok Hv)
      as (sd' & ex' & w'' & E1 & Hok').
    rewrite (bind_eq _ _ _ _ _ E1) in H. inv_bind H. now split.
  - (* s *)
    destruct a0 as [v|]; [|inv_bind H; now split].
    apply validar_valor_Some in E0 as (_ & Hv & ->).
    rewrite (truthy_pos _ Hv), Hlim in H.
    destruct (sacar_ok (saldo s) v (extrato s) (numero_saques s) w0 Hok Hv)
      as (sd' & ex' & n' & w'' & E1 & Hok').
    rewrite (bind_eq _ _ _ _ _ E1) in H. inv_bind H. now split.
Qed.

(** X12: along every run of [main], whatever is typed, the balance is
    never negative and the count never above the maximum. *)
Theorem main_ledger_ok py_float us cs w0 s w :
  alcanca py_float (sessao_inicial us cs) w0 s w ->
  ledger_ok (saldo s) (numero_saques s) /\ limite s = 500%float.
Proof.
  induction 1 as [|s w s' w' _ IH Hstep].
  - repeat split; simpl; unfold LIMITE_SAQUES; lia.
  - exact (main_body_ledger_ok _ _ _ _ _ Hstep IH).
Qed.

(** ** The directory *)

Lemma filtrar_usuario_tem c us w :
  dir_ok (heap w) us -> tem_cpf (heap w) us c ->
  exists l u, filtrar_usuario c us w = Ok (Some l) w
              /\ l ∈ us /\ heap w !! l = Some u /\ cpf u = c.
Proof.
  unfold dir_ok, tem_cpf. induction us as [|l us IH]; intros Hd Ht.
  - inversion Ht.
  - apply Forall_cons in Hd as [[u Hu] Hd]. simpl. rewrite Hu.
    destruct (decide (cpf u = c)) as [E|NE].
    + exists l, u. repeat split; auto. apply list_elem_of_here.
    + apply Exists_cons in Ht as [(u' & Hu' & E)|Ht]; [congruence|].
      destruct (IH Hd Ht) as (l' & u' & E & Hin & Hl & Hc).
      exists l', u'. repeat split; auto. now apply list_elem_of_further.
Qed.

Lemma filtrar_usuario_nao_tem c us w :
  dir_ok (heap w) us -> ~ tem_cpf (heap w) us c ->
  filtrar_usuario c us w = Ok None w.
Proof.
  unfold dir_ok, tem_cpf. induction us as [|l us IH]; intros Hd Ht; [reflexivity|].
  apply Forall_cons in Hd as [[u Hu] Hd]. simpl. rewrite Hu.
  destruct (decide (cpf u = c)) as [E|NE].
  - exfalso. apply Ht. apply Exists_cons. left. eauto.
  - apply IH; [exact Hd|]. intros H. apply Ht. apply Exists_cons. now right.
Qed.

Lemma mapM_to_json_usuarios h us :
  dir_ok h us ->
  exists rs, Forall2 (fun l r => h !! l = Some r) us rs
             /\ mapM (to_json h) us = Some (map json_of_usuario rs).
Proof.
  unfold dir_ok. induction us as [|l us IH]; intros Hd.
  - exists []. split; [constructor|reflexivity].
  - apply Forall_cons in Hd as [[u Hu] Hd]. destruct (IH Hd) as (rs & HF & E).
    exists (u :: rs). split; [now constructor|].
    cbn. unfold to_json, loc_ToJson in *. rewrite Hu. cbn. rewrite E. reflexivity.
Qed.

Lemma to_json_usuarios h us :
  dir_ok h us ->
  exists rs, Forall2 (fun l r => h !! l = Some r) us rs
             /\ to_json h us = Some (JArr (map json_of_usuario rs)).
Proof.
  intros Hd. destruct (mapM_to_json_usuarios h us Hd) as (rs & HF & E).
  exists rs. split; [exact HF|]. unfold to_json, list_ToJson. now rewrite E.
Qed.

Lemma alloc_eq u w :
  alloc u w = Ok (fresh (dom (heap w)))
                 (mk_world (stdin w) (stdout w) (files w)
                           (<[fresh (dom (heap w)) := u]> (heap w))).
Proof. reflexivity. Qed.

Lemma salvar_dados_eq `{ToJson A} arquivo (dados : A) w j :
  to_json (heap w) dados = Some j ->
  salvar_dados arquivo dados w
    = Ok tt (set_files (<[arquivo := json_dumps j]> (files w)) w).
Proof. unfold salvar_dados. now intros ->. Qed.

Lemma dir_ok_insert h us l u :
  dir_ok h us -> dir_ok (<[l := u]> h) (us ++ [l]).
Proof.
  unfold dir_ok. intros Hd. apply Forall_app. split.
  - eapply Forall_impl; [exact Hd|]. intros l' [u' Hu'].
    destruct (decide (l = l')) as [->|NE];
      [rewrite lookup_insert_eq|rewrite lookup_insert_ne by exact NE]; eauto.
  - constructor; [|constructor]. rewrite lookup_insert_eq. eauto.
Qed.

(** C7: when the directory already holds a user with the CPF typed in,
    [criar_usuario] writes the duplicate message and returns the directory
    as it was: no dictionary is added and no file is written.  Otherwise it
    reads name, birth date and address, appends a new dictionary with these
    four fields, and writes the whole directory to the users file at once. *)
Theorem criar_usuario_contrato (us : list loc) (w : world) (c : str) (rest : list str) :
  dir_ok (heap w) us ->
  stdin w = c :: rest ->
  (tem_cpf (heap w) us c ->
     exists w', criar_usuario us w = Ok us w'
       /\ stdout w' = stdout w ++ [py "Informe o CPF (somente número): ";
                                    msg_usuario_existe ++ [nl]]
       /\ stdin w' = rest /\ files w' = files w /\ heap w' = heap w)
  /\ (~ tem_cpf (heap w) us c ->
      forall n d e rest',
        rest = n :: d :: e :: rest' ->
        exists l w' j,
          criar_usuario us w = Ok (us ++ [l]) w'
          /\ heap w !! l = None
          /\ heap w' = <[l := mk_usuario n d c e]> (heap w)
          /\ to_json (heap w') (us ++ [l]) = Some j
          /\ files w' = <[USUARIOS_FILE := json_dumps j]> (files w)
          /\ stdin w' = rest').
Proof.
  intros Hd Hin. split.
  - intros Ht. unfold criar_usuario.
    erewrite bind_eq by (apply input_eq; [exact Hin|vm_compute; reflexivity]).
    destruct (filtrar_usuario_tem c us
                (mk_world rest (stdout w ++ [py "Informe o CPF (somente número): "])
                          (files w) (heap w)) Hd Ht) as (l & u & E & _).
    rewrite (bind_eq _ _ _ _ _ E).
    eexists. split; [reflexivity|]. simpl. rewrite <- app_assoc. now repeat split.
  - intros Ht n d e rest' ->. unfold criar_usuario.
    erewrite bind_eq by (apply input_eq; [exact Hin|vm_compute; reflexivity]).
    rewrite (bind_eq _ _ _ _ _ (filtrar_usuario_nao_tem c us (mk_world _ _ _ _) Hd Ht)).
    do 3 (erewrite bind_eq by (apply input_eq; [reflexivity|vm_compute; reflexivity])).
    rewrite (bind_eq _ _ _ _ _ (alloc_eq _ _)). cbn [heap stdin stdout files].
    set (l := fresh (dom (heap w))).
    set (h' := <[l := mk_usuario n d c e]> (heap w)).
    destruct (to_json_usuarios h' (us ++ [l])) as (rs & _ & E);
      [now apply dir_ok_insert|].
    erewrite bind_eq by (apply salvar_dados_eq; exact E).
    eexists l, _, (JArr (map json_of_usuario rs)).
    split; [reflexivity|].
    split; [apply not_elem_of_dom, is_fresh|].
    split; [reflexivity|].
    split; [exact E|].
    split; reflexivity.
Qed.

Lemma criar_usuario_contrato_witness :
  (exists w', criar_usuario [1%positive] mundo_ana = Ok [1%positive] w'
     /\ stdout w' = stdout mundo_ana ++ [py "Informe o CPF (somente número): ";
                                          msg_usuario_existe ++ [nl]]
     /\ stdin w' = [] /\ files w' = files mundo_ana /\ heap w' = heap mundo_ana).
Proof.
  refine (proj1 (criar_usuario_contrato [1%positive] mundo_ana (py "123") [] _ _) _).
  - repeat constructor. vm_compute. eauto.
  - reflexivity.
  - constructor. eexists. split; reflexivity.
Defined.

(** C8: when no user of the directory has the CPF typed in, [criar_conta]
    writes the error message and returns the account directory as it was;
    no file is written and no dictionary is made or changed. *)
Theorem criar_conta_sem_usuario (ag : str) (num : Z) (us : list loc)
    (cs : list conta_dict) (w : world) (c : str) (rest : list str) :
  dir_ok (heap w) us ->
  stdin w = c :: rest ->
  ~ tem_cpf (heap w) us c ->
  exists w', criar_conta ag num us cs w = Ok cs w'
    /\ stdout w' = stdout w ++ [py "Informe o CPF do usuário: ";
                                 msg_usuario_nao_encontrado ++ [nl]]
    /\ stdin w' = rest /\ files w' = files w /\ heap w' = heap w.
Proof.
  intros Hd Hin Ht. unfold criar_conta.
  erewrite bind_eq by (apply input_eq; [exact Hin|vm_compute; reflexivity]).
  rewrite (bind_eq _ _ _ _ _ (filtrar_usuario_nao_tem c us (mk_world _ _ _ _) Hd Ht)).
  eexists. split; [reflexivity|]. simpl. rewrite <- app_assoc. now repeat split.
Qed.

Lemma criar_conta_sem_usuario_witness :
  exists w', criar_conta AGENCIA 1 [] [] mundo_ana = Ok [] w'
    /\ stdout w' = stdout mundo_ana ++ [py "Informe o CPF do usuário: ";
                                         msg_usuario_nao_encontrado ++ [nl]]
    /\ stdin w' = [] /\ files w' = files mundo_ana /\ heap w' = heap mundo_ana.
Proof.
  apply (criar_conta_sem_usuario AGENCIA 1 [] [] mundo_ana (py "123") []).
  - constructor.
  - reflexivity.
  - intros H. inversion H.
Defined.

Lemma to_json_conta_eq h c u :
  h !! usuario c = Some u ->
  to_json h c = Some (JObj [(py "agencia", JStr (agencia c));
                            (py "numero_conta", JInt (numero_conta c));
                            (py "usuario", json_of_usuario u)]).
Proof.
  intros Hu. unfold to_json, conta_ToJson. unfold to_json, loc_ToJson.
  now rewrite Hu.
Qed.

Lemma to_json_contas h cs :
  contas_ok h cs -> exists j, to_json h cs = Some j.
Proof.
  unfold contas_ok. intros Hc.
  assert (exists js, mapM (to_json h) cs = Some js) as [js E].
  { induction cs as [|c cs IH]; [now exists []|].
    apply Forall_cons in Hc as [[u Hu] Hc]. destruct (IH Hc) as [js E].
    eexists. cbn. rewrite E. cbn. rewrite (to_json_conta_eq h c u Hu). reflexivity. }
  exists (JArr js). unfold to_json, list_ToJson. now rewrite E.
Qed.

Lemma contas_ok_app h cs c :
  contas_ok h cs -> is_Some (h !! usuario c) -> contas_ok h (cs ++ [c]).
Proof.
  unfold contas_ok. intros Hc Hu. apply Forall_app. split; [exact Hc|].
  now repeat constructor.
Qed.

Lemma editar_nome_eq l novo w u :
  heap w !! l = Some u ->
  editar_nome l novo w
    = Ok tt (mk_world (stdin w) (stdout w) (files w)
               (<[l := mk_usuario novo (data_nascimento u) (cpf u) (endereco u)]> (heap w))).
Proof. unfold editar_nome. now intros ->. Qed.

Lemma to_json_contas_app h cs c u :
  contas_ok h cs -> h !! usuario c = Some u ->
  exists js,
    length js = length cs
    /\ to_json h (cs ++ [c])
       = Some (JArr (js ++ [JObj [(py "agencia", JStr (agencia c));
                                  (py "numero_conta", JInt (numero_conta c));
                                  (py "usuario", json_of_usuario u)]])).
Proof.
  unfold contas_ok. intros Hc Hu. unfold to_json at 1, list_ToJson.
  match goal with
  | |- exists js, _ /\ _ = Some (JArr (js ++ [?J])) =>
      enough (exists js, length js = length cs
                         /\ mapM (to_json h) (cs ++ [c]) = Some (js ++ [J]))
        as (js & Hn & ->) by (now exists js)
  end.
  induction Hc as [|a cs [u' Hu'] _ (js & Hn & E)]; cbn [app].
  - exists []. split; [reflexivity|].
    cbn. rewrite (to_json_conta_eq h c u Hu). reflexivity.
  - eexists (_ :: js). split; [cbn [length]; now rewrite Hn|].
    cbn. rewrite E. cbn.
    rewrite (to_json_conta_eq h a u' Hu'). reflexivity.
Qed.

(** C5, as the code has it: when [criar_conta] succeeds, the new account
    holds a reference to the very dictionary found in the user directory,
    not a copy of it, and the accounts file is written with the user's
    fields as they are then.  No snapshot is kept: a later change made in
    place to that dictionary shows through the account, and the next
    [salvar_dados] of the accounts writes the account with the changed
    fields. *)
Theorem criar_conta_guarda_referencia (ag : str) (num : Z) (us : list loc)
    (cs : list conta_dict) (w : world) (c : str) (rest : list str) :
  dir_ok (heap w) us ->
  contas_ok (heap w) cs ->
  stdin w = c :: rest ->
  tem_cpf (heap w) us c ->
  exists l u w' j,
    criar_conta ag num us cs w = Ok (cs ++ [mk_conta ag num l]) w'
    /\ l ∈ us /\ heap w !! l = Some u /\ cpf u = c
    /\ heap w' = heap w
    /\ to_json (heap w) (cs ++ [mk_conta ag num l]) = Some j
    /\ files w' = <[CONTAS_FILE := json_dumps j]> (files w)
    /\ titular (heap w') (mk_conta ag num l) = Some u
    /\ forall novo, exists w'' js,
         editar_nome l novo w' = Ok tt w''
         /\ length js = length cs
         /\ titular (heap w'') (mk_conta ag num l)
            = Some (mk_usuario novo (data_nascimento u) (cpf u) (endereco u))
         /\ salvar_dados CONTAS_FILE (cs ++ [mk_conta ag num l]) w''
            = Ok tt
                (set_files
                   (<[CONTAS_FILE :=
                        json_dumps
                          (JArr (js ++ [JObj [(py "agencia", JStr ag);
                                              (py "numero_conta", JInt num);
                                              (py "usuario",
                                               json_of_usuario
                                                 (mk_usuario novo (data_nascimento u)
                                                    (cpf u) (endereco u)))]]))]>
                      (files w'')) w'').
Proof.
  intros Hd Hc Hin Ht. unfold criar_conta.
  erewrite bind_eq by (apply input_eq; [exact Hin|vm_compute; reflexivity]).
  destruct (filtrar_usuario_tem c us
              (mk_world rest (stdout w ++ [py "Informe o CPF do usuário: "])
                        (files w) (heap w)) Hd Ht) as (l & u & E & Hl & Hu & Hcpf).
  rewrite (bind_eq _ _ _ _ _ E). cbn [heap] in Hu.
  destruct (to_json_contas (heap w) (cs ++ [mk_conta ag num l])) as [j Ej].
  { apply contas_ok_app; [exact Hc|]. simpl. eauto. }
  erewrite bind_eq by (apply salvar_dados_eq; exact Ej).
  exists l, u. eexists _, j.
  split; [reflexivity|].
  do 6 (split; [assumption || reflexivity|]).
  split; [exact Hu|].
  intros novo.
  set (u' := mk_usuario novo (data_nascimento u) (cpf u) (endereco u)).
  destruct (to_json_contas_app (<[l := u']> (heap w)) cs (mk_conta ag num l) u')
    as (js & Hjs & Ejs).
  { unfold contas_ok in *. eapply Forall_impl; [exact Hc|].
    intros a [ua Hua]. cbn beta.
    destruct (decide (l = usuario a)) as [->|NE];
      [rewrite lookup_insert_eq|rewrite lookup_insert_ne by exact NE]; eauto. }
  { cbn [usuario]. apply lookup_insert_eq. }
  eexists _, js. split; [apply editar_nome_eq; exact Hu|].
  split; [exact Hjs|].
  split; [unfold titular; cbn [heap usuario]; apply lookup_insert_eq|].
  apply salvar_dados_eq. exact Ejs.
Qed.

Lemma criar_conta_guarda_referencia_witness :
  exists l u w' j,
    criar_conta AGENCIA 1 [1%positive] [] mundo_ana = Ok ([] ++ [mk_conta AGENCIA 1 l]) w'
    /\ l ∈ [1%positive] /\ heap mundo_ana !! l = Some u /\ cpf u = py "123"
    /\ heap w' = heap mundo_ana
    /\ to_json (heap mundo_ana) ([] ++ [mk_conta AGENCIA 1 l]) = Some j
    /\ files w' = <[CONTAS_FILE := json_dumps j]> (files mundo_ana)
    /\ titular (heap w') (mk_conta AGENCIA 1 l) = Some u
    /\ forall novo, exists w'' js,
         editar_nome l novo w' = Ok tt w''
         /\ length js = length (@nil conta_dict)
         /\ titular (heap w'') (mk_conta AGENCIA 1 l)
            = Some (mk_usuario novo (data_nascimento u) (cpf u) (endereco u))
         /\ salvar_dados CONTAS_FILE ([] ++ [mk_conta AGENCIA 1 l]) w''
            = Ok tt
                (set_files
                   (<[CONTAS_FILE :=
                        json_dumps
                          (JArr (js ++ [JObj [(py "agencia", JStr AGENCIA);
                                              (py "numero_conta", JInt 1);
                                              (py "usuario",
                                               json_of_usuario
                                                 (mk_usuario novo (data_nascimento u)
                                                    (cpf u) (endereco u)))]]))]>
                      (files w'')) w'').
Proof.
  apply (criar_conta_guarda_referencia AGENCIA 1 [1%positive] [] mundo_ana (py "123") []).
  - repeat constructor. vm_compute. eauto.
  - constructor.
  - reflexivity.
  - constructor. eexists. split; reflexivity.
Defined.

(** C5, as stated, fails: Ana opens an account; her dictionary in the
    directory is then renamed in place; the user data of the account made
    before the change now reads the new name. *)
Lemma criar_conta_copia_counterexample :
  exists conta w1 w2,
    criar_conta AGENCIA 1 [1%positive] [] mundo_ana = Ok [conta] w1
    /\ nome <$> titular (heap w1) conta = Some (py "Ana")
    /\ editar_nome 1%positive (py "Bia") w1 = Ok tt w2
    /\ nome <$> titular (heap w2) conta = Some (py "Bia")
    /\ titular (heap w2) conta <> titular (heap w1) conta.
Proof.
  eexists _, _, _.
  split; [vm_compute; reflexivity|].
  split; [vm_compute; reflexivity|].
  split; [vm_compute; reflexivity|].
  split; [vm_compute; reflexivity|].
  vm_compute. discriminate.
Qed.

(** ** JSON: what [json.load] reads back from what [json.dump] wrote *)

(** *** Escapes *)

Lemma hex_val_digit d : d < 16 -> hex_val (hex_digit d) = Some d.
Proof.
  intros H.
  assert (d = 0 \/ d = 1 \/ d = 2 \/ d = 3 \/ d = 4 \/ d = 5 \/ d = 6 \/ d = 7 \/
          d = 8 \/ d = 9 \/ d = 10 \/ d = 11 \/ d = 12 \/ d = 13 \/ d = 14 \/ d = 15)
    as Hd by lia.
  repeat destruct Hd as [->|Hd]; try subst d; reflexivity.
Qed.

Lemma hex_digits_value n :
  n < 65536 ->
  (n / 4096 mod 16) * 4096 + (n / 256 mod 16) * 256 + (n / 16 mod 16) * 16 + n mod 16 = n.
Proof.
  intros H.
  pose proof (N.div_mod n 16 ltac:(lia)).
  pose proof (N.div_mod (n / 16) 16 ltac:(lia)).
  pose proof (N.div_mod (n / 16 / 16) 16 ltac:(lia)).
  pose proof (N.mod_lt n 16 ltac:(lia)).
  pose proof (N.mod_lt (n / 16) 16 ltac:(lia)).
  pose proof (N.mod_lt (n / 16 / 16) 16 ltac:(lia)).
  assert (n / 256 = n / 16 / 16) as E1 by (rewrite N.Div0.div_div; reflexivity).
  assert (n / 4096 = n / 16 / 16 / 16) as E2 by (rewrite !N.Div0.div_div; reflexivity).
  assert (n / 16 / 16 / 16 < 16) as Hq.
  { rewrite <- E2. apply N.Div0.div_lt_upper_bound; lia. }
  rewrite E1, E2. rewrite (N.mod_small (n / 16 / 16 / 16)) by exact Hq.
  pose proof (N.div_mod (n / 16 / 16) 16 ltac:(lia)).
  lia.
Qed.

Lemma decode_u_escape n :
  n < 65536 ->
  exists h1 h2 h3 h4,
    u_escape n = [92; 117; h1; h2; h3; h4]
    /\ decode_uXXXX h1 h2 h3 h4 = Some n.
Proof.
  intros H. eexists _, _, _, _. split; [reflexivity|].
  unfold decode_uXXXX.
  rewrite !hex_val_digit by (apply N.mod_lt; lia). cbn.
  f_equal. now apply hex_digits_value.
Qed.

Lemma lor_high_low a b k : b < 2 ^ k -> N.lor (a * 2 ^ k) b = a * 2 ^ k + b.
Proof.
  intros H.
  assert (N.land (a * 2 ^ k) b = 0) as E.
  { apply N.bits_inj. intros i. rewrite N.land_spec, N.bits_0.
    destruct (N.lt_ge_cases i k) as [Hi|Hi].
    - rewrite N.mul_pow2_bits_low by exact Hi. reflexivity.
    - rewrite <- (N.mod_small b (2 ^ k)) by exact H.
      rewrite N.mod_pow2_bits_high by exact Hi. apply andb_false_r. }
  rewrite N.add_nocarry_lxor by exact E. now rewrite N.lxor_lor.
Qed.

Lemma surrogates c :
  65536 <= c -> c < 1114112 ->
  let n := c - 65536 in
  let hi := N.lor 55296 (N.land (N.shiftr n 10) 1023) in
  let lo := N.lor 56320 (N.land n 1023) in
  hi < 65536 /\ lo < 65536 /\ is_high hi = true /\ is_low lo = true
  /\ 65536 + N.lor (N.shiftl (hi - 55296) 10) (lo - 56320) = c.
Proof.
  intros H1 H2 n hi lo.
  assert (n < 1048576) as Hn by (unfold n; lia).
  assert (N.land (N.shiftr n 10) 1023 = n / 1024) as E1.
  { change 1023 with (N.ones 10). rewrite N.land_ones, N.shiftr_div_pow2.
    change (2 ^ 10) with 1024. apply N.mod_small.
    apply N.Div0.div_lt_upper_bound. lia. }
  assert (N.land n 1023 = n mod 1024) as E2.
  { change 1023 with (N.ones 10). now rewrite N.land_ones. }
  assert (n / 1024 < 1024) as Hq by (apply N.Div0.div_lt_upper_bound; lia).
  assert (n mod 1024 < 1024) as Hr by (apply N.mod_lt; lia).
  assert (hi = 55296 + n / 1024) as Ehi.
  { unfold hi. rewrite E1. exact (lor_high_low 54 (n / 1024) 10 Hq). }
  assert (lo = 56320 + n mod 1024) as Elo.
  { unfold lo. rewrite E2. exact (lor_high_low 55 (n mod 1024) 10 Hr). }
  rewrite Ehi, Elo. unfold is_high, is_low.
  split; [lia|]. split; [lia|].
  split; [apply andb_true_iff; split; apply N.leb_le; lia|].
  split; [apply andb_true_iff; split; apply N.leb_le; lia|].
  replace (55296 + n / 1024 - 55296) with (n / 1024) by lia.
  replace (56320 + n mod 1024 - 56320) with (n mod 1024) by lia.
  rewrite N.shiftl_mul_pow2. rewrite (lor_high_low (n / 1024) (n mod 1024) 10 Hr).
  change (2 ^ 10) with 1024.
  pose proof (N.div_mod n 1024 ltac:(lia)). unfold n in *. lia.
Qed.

Lemma scanstring_u h1 h2 h3 h4 uni r2 :
  decode_uXXXX h1 h2 h3 h4 = Some uni ->
  safe_tail r2 ->
  scanstring (92 :: 117 :: h1 :: h2 :: h3 :: h4 :: r2) = cons_fst uni (scanstring r2).
Proof.
  intros E Hs. cbn [scanstring]. change (92 =? 34) with false.
  change (92 =? 92) with true. change (117 =? 117) with true. cbv iota.
  rewrite E. destruct (is_high uni); [|reflexivity].
  destruct r2 as [|b [|u r]]; [reflexivity| |].
  - destruct (b =? 92); reflexivity.
  - simpl in Hs. destruct (b =? 92); [|reflexivity].
    destruct (u =? 117); [|reflexivity]. simpl in Hs.
    destruct r as [|g1 [|g2 [|g3 [|g4 r]]]]; try contradiction.
    destruct Hs as (uni2 & -> & ->). reflexivity.
Qed.

Lemma scanstring_pair h1 h2 h3 h4 g1 g2 g3 g4 hi lo r :
  decode_uXXXX h1 h2 h3 h4 = Some hi -> is_high hi = true ->
  decode_uXXXX g1 g2 g3 g4 = Some lo -> is_low lo = true ->
  scanstring (92 :: 117 :: h1 :: h2 :: h3 :: h4 :: 92 :: 117 :: g1 :: g2 :: g3 :: g4 :: r)
    = cons_fst (65536 + N.lor (N.shiftl (hi - 55296) 10) (lo - 56320)) (scanstring r).
Proof.
  intros E1 H1 E2 H2. cbn [scanstring]. change (92 =? 34) with false.
  change (92 =? 92) with true. change (117 =? 117) with true. cbv iota.
  rewrite E1, H1, E2, H2. reflexivity.
Qed.

Lemma scanstring_backslash e ch r :
  backslash e = Some ch -> (e =? 117) = false ->
  scanstring (92 :: e :: r) = cons_fst ch (scanstring r).
Proof.
  intros E H. cbn [scanstring]. change (92 =? 34) with false.
  change (92 =? 92) with true. cbv iota. now rewrite H, E.
Qed.

Lemma scanstring_plain c r :
  (c =? 34) = false -> (c =? 92) = false -> (c <? 32) = false ->
  scanstring (c :: r) = cons_fst c (scanstring r).
Proof. intros H1 H2 H3. cbn [scanstring]. now rewrite H1, H2, H3. Qed.

Lemma safe_tail_escape d s rest :
  d < 1114112 -> is_low d = false ->
  safe_tail (escape_char d ++ flat_map escape_char s ++ 34 :: rest).
Proof.
  intros Hd Hl. generalize (flat_map escape_char s ++ 34 :: rest). intros T.
  unfold escape_char.
  repeat match goal with
    | |- context [if ?b then _ else _] =>
        lazymatch b with
        | (_ =? _) => destruct b eqn:?; [exact I|]
        end
    end.
  destruct ((32 <=? d) && (d <=? 126)) eqn:Hr.
  - simpl app. destruct T; [exact I|].
    unfold safe_tail. now rewrite Heqb0.
  - destruct (d <? 65536) eqn:Hb.
    + apply N.ltb_lt in Hb. destruct (decode_u_escape d Hb) as (h1 & h2 & h3 & h4 & -> & E).
      simpl. eauto.
    + apply N.ltb_ge in Hb.
      destruct (surrogates d Hb Hd) as (Hhi & _ & Hh & _).
      destruct (decode_u_escape _ Hhi) as (h1 & h2 & h3 & h4 & -> & E).
      simpl. eexists. split; [exact E|].
      unfold is_high in Hh. unfold is_low.
      apply andb_true_iff in Hh as [_ Hh]. apply N.leb_le in Hh.
      apply andb_false_iff. left. apply N.leb_gt. lia.
Qed.

Lemma scanstring_encode s : forall rest,
  str_ok s = true ->
  scanstring (flat_map escape_char s ++ 34 :: rest) = Some (s, rest).
Proof.
  induction s as [|c s IH]; intros rest Hok; [reflexivity|].
  simpl in Hok. apply andb_true_iff in Hok as [Hok Hs].
  apply andb_true_iff in Hok as [Hc Hpair]. apply N.ltb_lt in Hc.
  specialize (IH rest Hs).
  assert (safe_tail (flat_map escape_char s ++ 34 :: rest) \/ is_high c = false) as Hsafe.
  { destruct (is_high c) eqn:Hh; [left|now right].
    destruct s as [|d s']; [simpl; destruct rest; exact I|].
    simpl in Hpair, Hs. apply negb_true_iff in Hpair.
    apply andb_true_iff in Hs as [Hs _]. apply andb_true_iff in Hs as [Hd _].
    apply N.ltb_lt in Hd. simpl flat_map. rewrite <- app_assoc.
    now apply safe_tail_escape. }
  simpl flat_map. rewrite <- app_assoc.
  set (T := flat_map escape_char s ++ 34 :: rest) in *. unfold escape_char.
  destruct (c =? 34) eqn:E1;
    [apply N.eqb_eq in E1; subst c; simpl app;
     rewrite (scanstring_backslash 34 34) by reflexivity; now rewrite IH|].
  destruct (c =? 92) eqn:E2;
    [apply N.eqb_eq in E2; subst c; simpl app;
     rewrite (scanstring_backslash 92 92) by reflexivity; now rewrite IH|].
  destruct (c =? 10) eqn:E3;
    [apply N.eqb_eq in E3; subst c; simpl app;
     rewrite (scanstring_backslash 110 10) by reflexivity; now rewrite IH|].
  destruct (c =? 13) eqn:E4;
    [apply N.eqb_eq in E4; subst c; simpl app;
     rewrite (scanstring_backslash 114 13) by reflexivity; now rewrite IH|].
  destruct (c =? 9) eqn:E5;
    [apply N.eqb_eq in E5; subst c; simpl app;
     rewrite (scanstring_backslash 116 9) by reflexivity; now rewrite IH|].
  destruct (c =? 8) eqn:E6;
    [apply N.eqb_eq in E6; subst c; simpl app;
     rewrite (scanstring_backslash 98 8) by reflexivity; now rewrite IH|].
  destruct (c =? 12) eqn:E7;
    [apply N.eqb_eq in E7; subst c; simpl app;
     rewrite (scanstring_backslash 102 12) by reflexivity; now rewrite IH|].
  destruct ((32 <=? c) && (c <=? 126)) eqn:Hr.
  - apply andb_true_iff in Hr as [Hr _]. apply N.leb_le in Hr.
    simpl app. rewrite scanstring_plain; [now rewrite IH|assumption..|].
    apply N.ltb_ge. exact Hr.
  - destruct (c <? 65536) eqn:Hb.
    + apply N.ltb_lt in Hb.
      destruct (decode_u_escape c Hb) as (h1 & h2 & h3 & h4 & -> & E).
      simpl app. destruct Hsafe as [Hsafe|Hh].
      * rewrite (scanstring_u _ _ _ _ _ _ E Hsafe). now rewrite IH.
      * cbn [scanstring]. change (92 =? 34) with false.
        change (92 =? 92) with true. change (117 =? 117) with true. cbv iota.
        rewrite E, Hh, IH. reflexivity.
    + apply N.ltb_ge in Hb.
      destruct (surrogates c Hb Hc) as (Hhi & Hlo & Hh & Hl & Ec).
      destruct (decode_u_escape _ Hhi) as (h1 & h2 & h3 & h4 & -> & Eh).
      destruct (decode_u_escape _ Hlo) as (g1 & g2 & g3 & g4 & -> & El).
      simpl app.
      rewrite (scanstring_pair _ _ _ _ _ _ _ _ _ _ _ Eh Hh El Hl).
      rewrite IH. cbn. now rewrite Ec.
Qed.

Lemma uint_of_str_uint_str d : uint_of_str (uint_str d) = d.
Proof. induction d; simpl; unfold char_digit; simpl; congruence. Qed.

Lemma uint_str_digits d : Forall (fun c => is_digit c = true) (uint_str d).
Proof. induction d; simpl; constructor; auto. Qed.

Lemma span_digits_app ds rest :
  Forall (fun c => is_digit c = true) ds -> not_digit_head rest ->
  span_digits (ds ++ rest) = (ds, rest).
Proof.
  intros Hd Hr. induction Hd as [|c ds Hc _ IH]; cbn [app span_digits].
  - destruct rest as [|c r]; [reflexivity|]. cbn [span_digits]. simpl in Hr. now rewrite Hr.
  - now rewrite Hc, IH.
Qed.

Lemma delim_not_digit rest : delim rest -> not_digit_head rest.
Proof. destruct rest as [|c r]; [trivial|]. now intros [-> | ->]. Qed.

Lemma delim_groups rest :
  delim rest -> frac_group rest = ([], rest) /\ exp_group rest = ([], rest).
Proof. destruct rest as [|c r]; [now split|]. now intros [-> | ->]. Qed.

Lemma to_uint_pos_head p :
  exists c ds, uint_str (Pos.to_uint p) = c :: ds
               /\ is_digit c = true /\ (c =? 48) = false.
Proof.
  assert (Pos.to_uint p = Decimal.unorm (Pos.to_uint p)) as E.
  { change (Pos.to_uint p) with (N.to_uint (Npos p)) at 1.
    rewrite <- (DecimalPos.Unsigned.of_to p). apply DecimalPos.Unsigned.to_of. }
  pose proof (DecimalPos.Unsigned.to_uint_nonzero p) as Hz.
  destruct (Pos.to_uint p) as [|d|d|d|d|d|d|d|d|d|d] eqn:Ed;
    try (eexists _, _; split; [reflexivity|split; reflexivity]).
  - exfalso. revert E. unfold Decimal.unorm. simpl. discriminate.
  - exfalso. rewrite DecimalFacts.unorm_D0 in E. unfold Decimal.unorm in E.
    destruct (Decimal.nzhead d) eqn:En; try discriminate E.
    + injection E as ->. now apply Hz.
    + injection E as ->. exact (DecimalFacts.nzhead_nonzero _ _ En).
Qed.

Lemma dec_pos_head p :
  exists c ds, dec (Npos p) = c :: ds
               /\ Forall (fun c => is_digit c = true) (c :: ds) /\ (c =? 48) = false.
Proof.
  destruct (to_uint_pos_head p) as (c & ds & E & Hc & H0).
  exists c, ds. unfold dec. change (N.to_uint (Npos p)) with (Pos.to_uint p).
  split; [exact E|]. split; [|exact H0].
  rewrite <- E. apply uint_str_digits.
Qed.

Lemma uint_of_str_dec n : N.of_uint (uint_of_str (dec n)) = n.
Proof. unfold dec. rewrite uint_of_str_uint_str. apply DecimalN.Unsigned.of_to. Qed.

Lemma match_number_digits p rest :
  delim rest ->
  match_number (dec (Npos p) ++ rest) = Some (JInt (Zpos p), rest)
  /\ match_number (45 :: dec (Npos p) ++ rest) = Some (JInt (Zneg p), rest).
Proof.
  intros Hr. pose proof (uint_of_str_dec (Npos p)) as Ev.
  destruct (dec_pos_head p) as (c & ds & E & Hd & H0).
  rewrite E in Ev |- *. apply Forall_cons in Hd as [Hc Hds].
  assert ((c =? 45) = false) as H45.
  { apply N.eqb_neq. intros ->. discriminate Hc. }
  unfold match_number. cbn [app].
  change (45 =? 45) with true. rewrite H45, H0.
  rewrite (span_digits_app ds rest Hds (delim_not_digit _ Hr)).
  destruct (delim_groups _ Hr) as [Ef Ee].
  rewrite Hc, Ef, Ee, Ev. split; reflexivity.
Qed.

Lemma match_number_int z rest :
  delim rest -> match_number (int_str z ++ rest) = Some (JInt z, rest).
Proof.
  intros Hr. destruct z as [|p|p]; simpl int_str.
  - unfold match_number. change (dec 0) with [48]. cbn -[frac_group exp_group].
    destruct (delim_groups _ Hr) as [Ef Ee]. now rewrite Ef, Ee.
  - apply match_number_digits, Hr.
  - apply (match_number_digits p rest Hr).
Qed.

(** White space *)
Lemma skip_ws_spaces n s : skip_ws (repeat 32 n ++ s) = skip_ws s.
Proof. induction n as [|n IH]; [reflexivity|]. simpl. exact IH. Qed.

Lemma skip_ws_indent level s : skip_ws (newline_indent level ++ s) = skip_ws s.
Proof. unfold newline_indent. cbn [app skip_ws]. change (is_ws nl) with true. cbv iota. apply skip_ws_spaces. Qed.

Lemma skip_ws_head c s : is_ws c = false -> skip_ws (c :: s) = c :: s.
Proof. intros H. cbn [skip_ws]. now rewrite H. Qed.

(** Dictionaries *)
Lemma dict_set_fresh k v d : k ∉ map fst d -> dict_set k v d = d ++ [(k, v)].
Proof.
  induction d as [|[k' v'] d IH]; intros H; [reflexivity|].
  simpl in H. apply not_elem_of_cons in H as [Hk Hd]. simpl.
  rewrite decide_False by congruence. now rewrite IH.
Qed.

Lemma chaves_distintas_NoDup ks : chaves_distintas ks = true -> NoDup ks.
Proof.
  induction ks as [|k ks IH]; simpl; [constructor|].
  intros [Hk Hks]%andb_true_iff. apply negb_true_iff, bool_decide_eq_false in Hk.
  constructor; auto.
Qed.

Lemma dict_of_pairs_distinct kv :
  chaves_distintas (map fst kv) = true -> dict_of_pairs kv = kv.
Proof.
  intros H. apply chaves_distintas_NoDup in H. unfold dict_of_pairs.
  change kv with ([] ++ kv) at 2.
  assert (NoDup (map fst ([] : list (str * json)) ++ map fst kv)) as Hnd by exact H.
  clear H. revert Hnd. generalize ([] : list (str * json)) as d.
  induction kv as [|[k v] kv IH]; intros d Hnd; simpl.
  - now rewrite app_nil_r.
  - rewrite dict_set_fresh.
    + rewrite IH; [now rewrite <- app_assoc|].
      rewrite map_app, <- app_assoc. exact Hnd.
    + simpl in Hnd. apply NoDup_app in Hnd as (_ & Hd & _).
      intros Hin. apply (Hd k Hin). apply list_elem_of_here.
Qed.

Lemma iterencode_arr_cons level x xs :
  iterencode level (JArr (x :: xs))
    = 91 :: newline_indent (S level) ++ iterencode (S level) x
         ++ encode_items level xs ++ newline_indent level ++ [93].
Proof.
  cbn [iterencode].
  match goal with |- context [?f xs] => is_fix f; set (F := f) end.
  assert (forall l, F l = encode_items level l) as ->; [|reflexivity].
  induction l as [|y ys IH]; [reflexivity|].
  cbn [encode_items]. rewrite <- IH. reflexivity.
Qed.

Lemma iterencode_obj_cons level k x kvs :
  iterencode level (JObj ((k, x) :: kvs))
    = 123 :: newline_indent (S level) ++ encode_basestring_ascii k ++ [58; 32]
          ++ iterencode (S level) x
          ++ encode_members level kvs ++ newline_indent level ++ [125].
Proof.
  cbn [iterencode].
  match goal with |- context [?f kvs] => is_fix f; set (F := f) end.
  assert (forall l, F l = encode_members level l) as ->; [|reflexivity].
  induction l as [|[k' y] ys IH]; [reflexivity|].
  cbn [encode_members]. rewrite <- IH. reflexivity.
Qed.

Lemma is_digit_range c : is_digit c = true -> 48 <= c <= 57.
Proof.
  unfold is_digit. intros [H1 H2]%andb_true_iff.
  apply N.leb_le in H1, H2. lia.
Qed.

Lemma low_char_tests c :
  c <= 57 -> c <> 34 ->
  (c =? 34) = false /\ (c =? 123) = false /\ (c =? 91) = false
  /\ (110 =? c) = false /\ (116 =? c) = false /\ (102 =? c) = false.
Proof. intros H1 H2. repeat split; apply N.eqb_neq; lia. Qed.

Lemma scan_once_number n c r :
  c <= 57 -> c <> 34 ->
  forall p, match_number (c :: r) = Some p ->
  scan_once (S n) (c :: r) = Some p.
Proof.
  intros H1 H2.
  destruct (low_char_tests c H1 H2) as (T1 & T2 & T3 & T4 & T5 & T6).
  cbn [scan_once]. rewrite T1, T2, T3.
  change (py "null") with [110; 117; 108; 108].
  change (py "true") with [116; 114; 117; 101].
  change (py "false") with [102; 97; 108; 115; 101].
  cbn [strip_prefix]. rewrite T4, T5, T6. now intros p ->.
Qed.

Lemma int_str_head z rest :
  exists c r, int_str z ++ rest = c :: r /\ c <= 57 /\ c <> 34 /\ is_ws c = false
              /\ (c =? 93) = false.
Proof.
  destruct z as [|p|p]; simpl int_str.
  - exists 48, rest. now repeat split.
  - destruct (dec_pos_head p) as (c & ds & -> & Hd & _).
    apply Forall_cons in Hd as [Hc%is_digit_range _].
    exists c, (ds ++ rest). split; [reflexivity|].
    repeat split; try lia.
    + unfold is_ws. repeat (apply orb_false_iff; split); apply N.eqb_neq; lia.
    + apply N.eqb_neq; lia.
  - exists 45, (dec (Npos p) ++ rest). now repeat split.
Qed.

Lemma scan_once_int n z rest :
  delim rest -> scan_once (S n) (int_str z ++ rest) = Some (JInt z, rest).
Proof.
  intros Hr. pose proof (match_number_int z rest Hr) as E.
  destruct (int_str_head z rest) as (c & r & Ec & H1 & H2 & _).
  rewrite Ec in E |- *. exact (scan_once_number n c r H1 H2 _ E).
Qed.

Lemma scan_once_str n s rest :
  str_ok s = true ->
  scan_once (S n) (encode_basestring_ascii s ++ rest) = Some (JStr s, rest).
Proof.
  intros Hs. unfold encode_basestring_ascii. cbn [app scan_once].
  change (34 =? 34) with true. cbv iota.
  rewrite <- app_assoc. cbn [app]. now rewrite (scanstring_encode s rest Hs).
Qed.

Lemma iterencode_head level v rest :
  json_ok v = true -> value_head (iterencode level v ++ rest).
Proof.
  intros Hok.
  destruct v as [|[]|z|s|[|x xs]|[|[k x] kvs]|t];
    try (split; reflexivity); [|discriminate Hok].
  destruct (int_str_head z rest) as (c & r & Ec & _ & _ & H1 & H2).
  cbn [iterencode]. rewrite Ec. now split.
Qed.

Lemma skip_ws_value level v rest :
  json_ok v = true ->
  skip_ws (iterencode level v ++ rest) = iterencode level v ++ rest.
Proof.
  intros Hok. pose proof (iterencode_head level v rest Hok) as H.
  destruct (iterencode level v ++ rest) as [|c r]; [reflexivity|].
  destruct H as [H _]. now apply skip_ws_head.
Qed.

Lemma delim_items level xs rest' :
  delim (encode_items level xs ++ newline_indent level ++ rest').
Proof. destruct xs; [now right|now left]. Qed.

Lemma delim_members level kvs rest' :
  delim (encode_members level kvs ++ newline_indent level ++ rest').
Proof. destruct kvs as [|[k x] kvs]; [now right|now left]. Qed.

Lemma JSONArray_items level rest xs : forall x fuel,
  scans_back x -> Forall scans_back xs ->
  json_ok x = true -> forallb json_ok xs = true ->
  (S (size x + size_items xs) <= fuel)%nat ->
  JSONArray fuel (iterencode (S level) x ++ encode_items level xs
                    ++ newline_indent level ++ 93 :: rest)
    = Some (x :: xs, rest).
Proof.
  induction xs as [|y ys IH]; intros x fuel Hx Hxs Ox Oxs Hf;
    (destruct fuel as [|m]; [lia|]); cbn [JSONArray].
  - rewrite (Hx Ox (S level) _ m) by (simpl in Hf; lia || apply delim_items).
    cbn [mbind option_bind encode_items app]. 
    rewrite skip_ws_indent. reflexivity.
  - apply Forall_cons in Hxs as [Hy Hys]. simpl in Oxs.
    apply andb_true_iff in Oxs as [Oy Oys]. cbn [size_items fold_right] in Hf.
    rewrite (Hx Ox (S level) _ m) by (lia || apply delim_items).
    cbn [mbind option_bind encode_items app skip_ws].
    change (is_ws 44) with false. cbv iota.
    change (44 =? 93) with false. change (44 =? 44) with true. cbv iota.
    rewrite <- !app_assoc. rewrite skip_ws_indent, (skip_ws_value _ _ _ Oy).
    rewrite (IH y m Hy Hys Oy Oys) by (unfold size_items; lia).
    reflexivity.
Qed.

Lemma JSONObject_members level rest kvs : forall k x fuel,
  scans_back x -> Forall (fun p => scans_back (snd p)) kvs ->
  str_ok k = true -> json_ok x = true ->
  forallb (fun p => let '(k, x) := p in str_ok k && json_ok x) kvs = true ->
  (S (size x + size_members kvs) <= fuel)%nat ->
  JSONObject fuel (flat_map escape_char k ++ 34 :: 58 :: 32
                     :: iterencode (S level) x ++ encode_members level kvs
                     ++ newline_indent level ++ 125 :: rest)
    = Some ((k, x) :: kvs, rest).
Proof.
  induction kvs as [|[k' y] ys IH]; intros k x fuel Hx Hxs Ok Ox Oxs Hf;
    (destruct fuel as [|m]; [lia|]); cbn [JSONObject].
  - cbn [app]. rewrite (scanstring_encode k _ Ok).
    cbn [mbind option_bind skip_ws]. change (is_ws 58) with false. cbv iota.
    change (58 =? 58) with true. cbv iota.
    cbn [skip_ws]. change (is_ws 32) with true. cbv iota.
    rewrite (skip_ws_value _ _ _ Ox).
    rewrite (Hx Ox (S level) _ m) by (simpl in Hf; lia || apply delim_members).
    cbn [mbind option_bind encode_members app].
    rewrite skip_ws_indent. reflexivity.
  - apply Forall_cons in Hxs as [Hy Hys]. cbn [forallb] in Oxs.
    apply andb_true_iff in Oxs as [Oy Oys]. apply andb_true_iff in Oy as [Ok' Oy].
    cbn [size_members fold_right] in Hf.
    cbn [app]. rewrite (scanstring_encode k _ Ok).
    cbn [mbind option_bind skip_ws]. change (is_ws 58) with false. cbv iota.
    change (58 =? 58) with true. cbv iota.
    cbn [skip_ws]. change (is_ws 32) with true. cbv iota.
    rewrite (skip_ws_value _ _ _ Ox).
    rewrite (Hx Ox (S level) _ m) by (lia || apply delim_members).
    cbn [mbind option_bind encode_members app skip_ws].
    change (is_ws 44) with false. cbv iota.
    change (44 =? 125) with false. change (44 =? 44) with true. cbv iota.
    rewrite <- !app_assoc. rewrite skip_ws_indent.
    unfold encode_basestring_ascii. cbn [app skip_ws].
    change (is_ws 34) with false. cbv iota. change (34 =? 34) with true. cbv iota.
    rewrite <- !app_assoc. cbn [app].
    rewrite (IH k' y m Hy Hys Ok' Oy Oys) by (unfold size_members; lia).
    reflexivity.
Qed.

Lemma scan_once_iterencode v : scans_back v.
Proof.
  induction v as [| b | z | s | l IH | kv IH | t] using json_induction;
    intros Hok level rest fuel Hf Hr; try discriminate Hok;
    (destruct fuel as [|n]; [simpl in Hf; lia|]).
  - reflexivity.
  - destruct b; reflexivity.
  - now apply scan_once_int.
  - now apply scan_once_str.
  - destruct l as [|x xs]; [reflexivity|].
    apply Forall_cons in IH as [Hx Hxs]. simpl in Hok.
    apply andb_true_iff in Hok as [Ox Oxs].
    rewrite iterencode_arr_cons. cbn [app scan_once].
    change (91 =? 34) with false. change (91 =? 123) with false.
    change (91 =? 91) with true. cbv iota.
    rewrite <- !app_assoc. rewrite skip_ws_indent, (skip_ws_value _ _ _ Ox).
    pose proof (iterencode_head (S level) x
                  (encode_items level xs ++ newline_indent level ++ [93] ++ rest) Ox) as Hh.
    destruct (iterencode (S level) x ++ _) as [|q r1] eqn:E; [contradiction|].
    destruct Hh as [_ ->]. rewrite <- E.
    cbn [app]. rewrite (JSONArray_items level rest xs x n Hx Hxs Ox Oxs)
      by (simpl in Hf; unfold size_items; lia).
    reflexivity.
  - destruct kv as [|[k x] kvs]; [reflexivity|].
    apply Forall_cons in IH as [Hx Hxs]. cbn [json_ok] in Hok.
    apply andb_true_iff in Hok as [Hd Oall].
    pose proof Oall as Oall'. cbn [forallb] in Oall.
    apply andb_true_iff in Oall as [Okx Oxs]. apply andb_true_iff in Okx as [Ok Ox].
    rewrite iterencode_obj_cons. cbn [app scan_once].
    change (123 =? 34) with false. change (123 =? 123) with true. cbv iota.
    rewrite <- !app_assoc. rewrite skip_ws_indent.
    unfold encode_basestring_ascii. cbn [app skip_ws].
    change (is_ws 34) with false. cbv iota.
    change (34 =? 125) with false. change (34 =? 34) with true. cbv iota.
    rewrite <- !app_assoc. cbn [app].
    rewrite (JSONObject_members level rest kvs k x n Hx Hxs Ok Ox Oxs)
      by (simpl in Hf; unfold size_members; lia).
    cbn [mbind option_bind]. now rewrite (dict_of_pairs_distinct _ Hd).
Qed.

Lemma dec_length n : (1 <= length (dec n))%nat.
Proof.
  destruct n as [|p]; [simpl; lia|].
  destruct (dec_pos_head p) as (c & ds & -> & _). simpl. lia.
Qed.

Lemma newline_indent_length level : (1 <= length (newline_indent level))%nat.
Proof. unfold newline_indent. simpl. lia. Qed.

Lemma size_le_length v : forall level, (size v <= length (iterencode level v))%nat.
Proof.
  induction v as [| b | z | s | l IH | kv IH | t] using json_induction; intros level;
    [| | | | | | simpl; lia].
  - simpl. lia.
  - destruct b; simpl; lia.
  - destruct z as [|p|p]; cbn [size iterencode int_str];
      [simpl; lia|apply dec_length|]. pose proof (dec_length (Npos p)). simpl. lia.
  - simpl. lia.
  - destruct l as [|x xs]; [simpl; lia|].
    apply Forall_cons in IH as [Hx Hxs].
    rewrite iterencode_arr_cons. cbn [size fold_right length].
    rewrite !length_app. specialize (Hx (S level)).
    assert (fold_right (fun x n => S (size x + n)) 0%nat xs
            <= length (encode_items level xs))%nat as Hl.
    { induction Hxs as [|y ys Hy _ IHys]; [simpl; lia|].
      cbn [fold_right encode_items app length]. rewrite !length_app.
      specialize (Hy (S level)). lia. }
    pose proof (newline_indent_length (S level)). lia.
  - destruct kv as [|[k x] kvs]; [simpl; lia|].
    apply Forall_cons in IH as [Hx Hxs]. cbn [snd] in Hx.
    rewrite iterencode_obj_cons. cbn [size fold_right length].
    rewrite !length_app. specialize (Hx (S level)).
    assert (fold_right (fun p n => let '(_, x) := p in S (size x + n)) 0%nat kvs
            <= length (encode_members level kvs))%nat as Hl.
    { induction Hxs as [|[k' y] ys Hy _ IHys]; [simpl; lia|].
      cbn [fold_right encode_members app length]. rewrite !length_app.
      cbn [length]. rewrite ?length_app.
      cbn [snd] in Hy. specialize (Hy (S level)). lia. }
    cbn [length]. rewrite ?length_app.
    pose proof (newline_indent_length (S level)). lia.
Qed.

Lemma json_loads_dumps v : json_ok v = true -> json_loads (json_dumps v) = Some v.
Proof.
  intros Hok. unfold json_loads, json_dumps.
  pose proof (skip_ws_value 0 v [] Hok) as Hs. rewrite app_nil_r in Hs. rewrite Hs.
  pose proof (scan_once_iterencode v Hok 0%nat [] (S (length (iterencode 0 v)))) as E.
  rewrite app_nil_r in E. rewrite E.
  - reflexivity.
  - pose proof (size_le_length v 0). lia.
  - exact I.
Qed.

(** *** Files *)

Lemma json_ok_sem_float v : json_ok v = true -> sem_float v = true.
Proof.
  induction v as [| b | z | s | l IH | kv IH | t] using json_induction;
    try reflexivity; try discriminate; cbn [json_ok sem_float].
  - induction IH as [|x xs Hx _ IHxs]; [reflexivity|].
    cbn [forallb]. intros [Ox Oxs]%andb_true_iff. now rewrite Hx, IHxs.
  - intros [_ Hall]%andb_true_iff.
    induction IH as [|[k x] kvs Hx _ IHkvs]; [reflexivity|].
    cbn [forallb snd] in *. apply andb_true_iff in Hall as [Okx Oxs].
    apply andb_true_iff in Okx as [_ Ox]. now rewrite Hx, IHkvs.
Qed.

Lemma to_json_list_json h (dados : list json) :
  forallb json_ok dados = true -> to_json h dados = Some (JArr dados).
Proof.
  intros Hok. unfold to_json, list_ToJson.
  assert (mapM (to_json h) dados = Some dados) as ->; [|reflexivity].
  induction dados as [|j js IH]; [reflexivity|].
  cbn [forallb] in Hok. apply andb_true_iff in Hok as [Oj Ojs].
  cbn. unfold to_json, json_ToJson in *.
  rewrite (json_ok_sem_float j Oj), (IH Ojs). reflexivity.
Qed.

Lemma carregar_apos_salvar `{ToJson A} arquivo (dados : A) j w :
  to_json (heap w) dados = Some j -> json_ok j = true ->
  exists w1, salvar_dados arquivo dados w = Ok tt w1
             /\ carregar_dados arquivo w1 = Ok j w1
             /\ stdin w1 = stdin w /\ stdout w1 = stdout w /\ heap w1 = heap w.
Proof.
  intros Ej Hok. eexists. split; [apply salvar_dados_eq, Ej|].
  split; [|now repeat split].
  unfold carregar_dados, set_files. cbn [files].
  rewrite lookup_insert_eq, (json_loads_dumps j Hok). reflexivity.
Qed.

(** C6: a directory of records, saved to a path and loaded from the same
    path, comes back as the same list: as many records, the same field
    values, the same order.  The records are any JSON values a Python
    object tree of strings, integers, booleans, [None], lists and
    dictionaries can be ([json_ok]). *)
Theorem salvar_carregar (arquivo : str) (dados : list json) (w : world) :
  forallb json_ok dados = true ->
  exists w1,
    salvar_dados arquivo dados w = Ok tt w1
    /\ carregar_dados arquivo w1 = Ok (JArr dados) w1.
Proof.
  intros Hok.
  destruct (carregar_apos_salvar arquivo dados (JArr dados) w
              (to_json_list_json _ dados Hok) Hok) as (w1 & E1 & E2 & _).
  now exists w1.
Qed.

Lemma salvar_carregar_witness :
  exists w1,
    salvar_dados CONTAS_FILE registros_exemplo w_vazio = Ok tt w1
    /\ carregar_dados CONTAS_FILE w1 = Ok (JArr registros_exemplo) w1.
Proof.
  apply (salvar_carregar CONTAS_FILE registros_exemplo w_vazio).
  vm_compute. reflexivity.
Defined.

Lemma json_of_usuario_ok u : usuario_ok u = true -> json_ok (json_of_usuario u) = true.
Proof.
  unfold usuario_ok. intros H.
  apply andb_true_iff in H as [H H4]. apply andb_true_iff in H as [H H3].
  apply andb_true_iff in H as [H1 H2].
  unfold json_of_usuario. cbn [json_ok map fst forallb].
  rewrite H1, H2, H3, H4. vm_compute. reflexivity.
Qed.

Lemma usuario_of_json_of_usuario u : usuario_of_json (json_of_usuario u) = Some u.
Proof. destruct u. reflexivity. Qed.

(** The user directory itself: what is read back are the users' records,
    field by field and in order. *)
Theorem salvar_carregar_usuarios (us : list loc) (rs : list usuario_dict) (w : world) :
  Forall2 (fun l r => heap w !! l = Some r) us rs ->
  Forall (fun r => usuario_ok r = true) rs ->
  exists w1,
    salvar_dados USUARIOS_FILE us w = Ok tt w1
    /\ carregar_dados USUARIOS_FILE w1 = Ok (JArr (map json_of_usuario rs)) w1
    /\ Forall2 (fun j r => usuario_of_json j = Some r) (map json_of_usuario rs) rs.
Proof.
  intros HF Hok.
  assert (to_json (heap w) us = Some (JArr (map json_of_usuario rs))) as Ej.
  { unfold to_json, list_ToJson.
    assert (mapM (to_json (heap w)) us = Some (map json_of_usuario rs)) as ->;
      [|reflexivity].
    apply mapM_Some. apply Forall2_fmap_r.
    eapply Forall2_impl; [exact HF|]. intros l r Hl.
    unfold to_json, loc_ToJson. now rewrite Hl. }
  destruct (carregar_apos_salvar USUARIOS_FILE us _ w Ej) as (w1 & E1 & E2 & _).
  - cbn [json_ok]. apply forallb_forall. intros j Hj.
    apply in_map_iff in Hj as (r & <- & Hr).
    apply json_of_usuario_ok. rewrite Forall_forall in Hok. apply Hok.
    now apply list_elem_of_In.
  - exists w1. split; [exact E1|]. split; [exact E2|].
    apply Forall2_fmap_l. apply Forall_Forall2_diag.
    apply Forall_forall. intros r _. apply usuario_of_json_of_usuario.
Qed.

(** Outside [str_ok] the round trip can fail: a string made of a high
    surrogate directly followed by a low one is written as two escapes and
    read back as the one character they encode. *)
Remark par_de_substitutos :
  json_loads (json_dumps (JStr [55357; 56832])) = Some (JStr [128512]).
Proof. vm_compute. reflexivity. Qed.

(** ** [main] comes to an end *)

Create HintDb entrada discriminated.

Lemma nao_cresce_ret {A} (a : A) : nao_cresce (mret a).
Proof. intros w a' w' H. apply Ok_inj in H as [_ <-]. lia. Qed.

Lemma nao_cresce_bind {A B} (m : M A) (k : A -> M B) :
  nao_cresce m -> (forall a, nao_cresce (k a)) -> nao_cresce (m ≫= k).
Proof.
  intros Hm Hk w b w' H. apply bind_Ok in H as (a & w1 & E1 & E2).
  specialize (Hm _ _ _ E1). specialize (Hk a _ _ _ E2). lia.
Qed.

Lemma nao_cresce_print s : nao_cresce (print s).
Proof. intros w a w' H. apply print_Ok in H as ->. simpl. lia. Qed.

Lemma input_consome prompt w l w' :
  input prompt w = Ok l w' -> (length (stdin w') < length (stdin w))%nat.
Proof.
  unfold input. destruct (codificavel prompt); [|discriminate]. simpl. destruct (stdin w) as [|x rest]; [discriminate|].
  intros [= _ <-]. simpl. lia.
Qed.

Lemma nao_cresce_input prompt : nao_cresce (input prompt).
Proof. intros w l w' H. apply input_consome in H. lia. Qed.

Lemma nao_cresce_filtrar c us : nao_cresce (filtrar_usuario c us).
Proof.
  induction us as [|l us IH]; intros w a w'; simpl.
  - intros [= _ <-]. lia.
  - destruct (heap w !! l) as [u|]; [|discriminate].
    destruct (decide (cpf u = c)); [intros [= _ <-]; lia|apply IH].
Qed.

Lemma nao_cresce_alloc u : nao_cresce (alloc u).
Proof. intros w a w' H. apply Ok_inj in H as [_ <-]. simpl. lia. Qed.

Lemma nao_cresce_salvar `{ToJson A} arquivo (dados : A) :
  nao_cresce (salvar_dados arquivo dados).
Proof.
  intros w a w'. unfold salvar_dados.
  destruct (to_json (heap w) dados); [|discriminate].
  intros H0. apply Ok_inj in H0 as [_ <-]. simpl. lia.
Qed.

#[local] Hint Resolve nao_cresce_ret nao_cresce_print nao_cresce_input
  nao_cresce_filtrar nao_cresce_alloc nao_cresce_salvar : entrada.

Ltac passo_entrada :=
  repeat first
    [ solve [auto with entrada]
    | apply nao_cresce_bind; [|intros ?]
    | match goal with
      | |- nao_cresce (match ?x with _ => _ end) => destruct x
      | |- nao_cresce (if ?b then _ else _) => destruct b
      end ].

Lemma nao_cresce_validar py_float text : nao_cresce (validar_valor py_float text).
Proof. unfold validar_valor. passo_entrada. Qed.

Lemma nao_cresce_depositar sd v ex : nao_cresce (depositar sd v ex).
Proof. unfold depositar. passo_entrada. Qed.

Lemma nao_cresce_sacar sd v ex lim n m : nao_cresce (sacar sd v ex lim n m).
Proof. unfold sacar. passo_entrada. Qed.

Lemma nao_cresce_extrato sd ex : nao_cresce (exibir_extrato sd ex).
Proof. unfold exibir_extrato. passo_entrada. Qed.

Lemma nao_cresce_criar_usuario us : nao_cresce (criar_usuario us).
Proof. unfold criar_usuario. passo_entrada. Qed.

Lemma nao_cresce_criar_conta ag n us cs : nao_cresce (criar_conta ag n us cs).
Proof. unfold criar_conta. passo_entrada. Qed.

Lemma nao_cresce_listar cs : nao_cresce (listar_contas cs).
Proof.
  unfold listar_contas. apply nao_cresce_bind; [|auto with entrada].
  induction cs as [|c cs IH]; [auto with entrada|].
  apply nao_cresce_bind; [|intros u; passo_entrada; exact IH].
  intros w u w'. destruct (heap w !! usuario c); [|discriminate].
  intros [= _ <-]. lia.
Qed.

#[local] Hint Resolve nao_cresce_validar nao_cresce_depositar nao_cresce_sacar
  nao_cresce_extrato nao_cresce_criar_usuario nao_cresce_criar_conta
  nao_cresce_listar : entrada.

(** Every turn of the loop reads at least the menu choice. *)
Lemma main_body_consome py_float s w r w' :
  main_body py_float s w = Ok r w' -> (length (stdin w') < length (stdin w))%nat.
Proof.
  unfold main_body, menu. intros H.
  apply bind_Ok in H as (op & w1 & E1 & H). apply input_consome in E1.
  enough (length (stdin w') <= length (stdin w1))%nat by lia.
  revert H.
  match goal with
  | |- ?m w1 = Ok r w' -> _ =>
      assert (nao_cresce m) as Hm; [|intros H; exact (Hm _ _ _ H)]
  end.
  passo_entrada.
Qed.

Lemma main_loop_termina py_float fuel : forall s w,
  (length (stdin w) < fuel)%nat -> is_Some (main_loop py_float fuel s w).
Proof.
  induction fuel as [|n IH]; intros s w Hf; [lia|].
  simpl. destruct (main_body py_float s w) as [[s'|] w'|e w'] eqn:E; eauto.
  apply IH. apply main_body_consome in E. lia.
Qed.

(** The turns given to the loop of [main] suffice: [main] always ends. *)
Lemma main_termina py_float w : is_Some (main py_float w).
Proof.
  unfold main.
  match goal with
  | |- is_Some (match ?m with _ => _ end) => destruct m as [[us cs] w'|e w']
  end; [|eauto].
  apply main_loop_termina. lia.
Qed.

(** ** The directories along [main] *)

Lemma so_console_ret {A} (a : A) (Q : A -> Prop) : Q a -> so_console (mret a) Q.
Proof.
  intros HQ w a' w' H. apply Ok_inj in H as [<- <-].
  split; [now exists []|]. now split.
Qed.

Lemma so_console_bind {A B} (m : M A) (k : A -> M B) Q R :
  so_console m Q -> (forall a, Q a -> so_console (k a) R) -> so_console (m ≫= k) R.
Proof.
  intros Hm Hk w b w' H. apply bind_Ok in H as (a & w1 & E1 & E2).
  destruct (Hm _ _ _ E1) as ([l1 H1] & Hh1 & HQ).
  destruct (Hk a HQ _ _ _ E2) as ([l2 H2] & Hh2 & HR).
  split; [exists (l1 ++ l2); rewrite <- app_assoc; congruence|].
  split; [congruence|exact HR].
Qed.

Lemma so_console_weaken {A} (m : M A) (Q R : A -> Prop) :
  so_console m Q -> (forall a, Q a -> R a) -> so_console m R.
Proof.
  intros Hm HQR w a w' H. destruct (Hm _ _ _ H) as (H1 & H2 & H3). auto.
Qed.

Lemma so_console_print s : so_console (print s) (fun _ => True).
Proof.
  intros w a w' H. apply print_Ok in H as ->.
  split; [now exists []|]. now split.
Qed.

Lemma so_console_input prompt : so_console (input prompt) (fun _ => True).
Proof.
  intros w l w'. unfold input. destruct (codificavel prompt); [|discriminate]. simpl.
  destruct (stdin w) as [|x rest] eqn:E; [discriminate|].
  intros H. apply Ok_inj in H as [-> <-]. simpl.
  split; [now exists [l]|]. now split.
Qed.

Lemma so_console_filtrar c us :
  so_console (filtrar_usuario c us)
    (fun r => True).
Proof.
  induction us as [|l us IH]; intros w a w'; simpl.
  - intros H. apply Ok_inj in H as [_ <-]. split; [now exists []|]. now split.
  - destruct (heap w !! l) as [u|]; [|discriminate].
    destruct (decide (cpf u = c)); [|apply IH].
    intros H. apply Ok_inj in H as [_ <-]. split; [now exists []|]. now split.
Qed.

Create HintDb console discriminated.
#[local] Hint Resolve so_console_print so_console_input so_console_filtrar : console.

Ltac passo_console :=
  repeat first
    [ solve [auto with console]
    | apply so_console_ret; solve [auto]
    | eapply so_console_bind; [solve [auto with console]|intros ? _]
    | match goal with
      | |- so_console (match ?x with _ => _ end) _ => destruct x
      | |- so_console (if ?b then _ else _) _ => destruct b
      end ].

Lemma so_console_validar py_float text :
  so_console (validar_valor py_float text) (fun _ => True).
Proof. unfold validar_valor. passo_console. Qed.

Lemma so_console_depositar sd v ex : so_console (depositar sd v ex) (fun _ => True).
Proof. unfold depositar. passo_console. Qed.

Lemma so_console_sacar sd v ex lim n m : so_console (sacar sd v ex lim n m) (fun _ => True).
Proof. unfold sacar. passo_console. Qed.

Lemma so_console_extrato sd ex : so_console (exibir_extrato sd ex) (fun _ => True).
Proof. unfold exibir_extrato. passo_console. Qed.

Lemma so_console_listar cs : so_console (listar_contas cs) (fun _ => True).
Proof.
  unfold listar_contas.
  apply (so_console_bind _ _ (fun _ => True)); [|intros ? _; auto with console].
  induction cs as [|c cs IH]; [now apply so_console_ret|].
  apply (so_console_bind _ _ (fun _ => True)); [|intros u _; passo_console; exact IH].
  intros w u w'. destruct (heap w !! usuario c); [|discriminate].
  intros H. apply Ok_inj in H as [_ <-]. split; [now exists []|]. now split.
Qed.

#[local] Hint Resolve so_console_validar so_console_depositar so_console_sacar
  so_console_extrato so_console_listar : console.

Lemma input_inv prompt w l w' :
  input prompt w = Ok l w' ->
  stdin w = l :: stdin w' /\ heap w' = heap w /\ files w' = files w.
Proof.
  unfold input. destruct (codificavel prompt); [|discriminate]. simpl. destruct (stdin w) as [|x rest]; [discriminate|].
  intros H. apply Ok_inj in H as [-> <-]. now repeat split.
Qed.

Lemma filtrar_usuario_inv c us w r w' :
  filtrar_usuario c us w = Ok r w' ->
  w' = w /\ forall l, r = Some l -> l ∈ us /\ is_Some (heap w !! l).
Proof.
  induction us as [|l us IH]; simpl.
  - intros H. apply Ok_inj in H as [<- <-]. split; [reflexivity|discriminate].
  - destruct (heap w !! l) as [u|] eqn:Hl; [|discriminate].
    destruct (decide (cpf u = c)).
    + intros H. apply Ok_inj in H as [<- <-]. split; [reflexivity|].
      intros l' [= <-]. split; [apply list_elem_of_here|eauto].
    + intros H. destruct (IH H) as [-> Hr]. split; [reflexivity|].
      intros l' E. destruct (Hr l' E). split; [now apply list_elem_of_further|assumption].
Qed.

Lemma salvar_dados_inv `{ToJson A} arquivo (dados : A) w a w' :
  salvar_dados arquivo dados w = Ok a w' ->
  stdin w' = stdin w /\ heap w' = heap w.
Proof.
  unfold salvar_dados. destruct (to_json (heap w) dados); [|discriminate].
  intros H0. apply Ok_inj in H0 as [_ <-]. now split.
Qed.

Lemma print_inv s w a w' :
  print s w = Ok a w' -> stdin w' = stdin w /\ heap w' = heap w.
Proof. intros H. apply print_Ok in H as ->. now split. Qed.

Lemma contas_ok_insert h cs l u :
  contas_ok h cs -> contas_ok (<[l := u]> h) cs.
Proof.
  unfold contas_ok. intros Hc. eapply Forall_impl; [exact Hc|].
  intros c [u' Hu]. cbn beta.
  destruct (decide (l = usuario c)) as [->|NE];
    [rewrite lookup_insert_eq|rewrite lookup_insert_ne by exact NE]; eauto.
Qed.

Lemma criar_usuario_ok us w us' w' :
  criar_usuario us w = Ok us' w' ->
  Forall (fun l => str_ok l = true) (stdin w) ->
  map_Forall (fun _ u => usuario_ok u = true) (heap w) ->
  dir_ok (heap w) us ->
  Forall (fun l => str_ok l = true) (stdin w')
  /\ map_Forall (fun _ u => usuario_ok u = true) (heap w')
  /\ dir_ok (heap w') us'
  /\ forall cs, contas_ok (heap w) cs -> contas_ok (heap w') cs.
Proof.
  intros H Hin Hh Hd. unfold criar_usuario in H.
  apply bind_Ok in H as (c & w1 & E1 & H). apply input_inv in E1 as (I1 & H1 & _).
  apply bind_Ok in H as (r & w2 & E2 & H). apply filtrar_usuario_inv in E2 as [-> _].
  rewrite I1 in Hin. apply Forall_cons in Hin as [Hc Hin].
  destruct r as [l|].
  - apply bind_Ok in H as (? & w3 & E3 & H). apply print_inv in E3 as [I3 H3].
    apply Ok_inj in H as [<- <-]. rewrite I3, H3, H1. auto.
  - apply bind_Ok in H as (n & w3 & E3 & H). apply input_inv in E3 as (I3 & H3 & _).
    apply bind_Ok in H as (d & w4 & E4 & H). apply input_inv in E4 as (I4 & H4 & _).
    apply bind_Ok in H as (e & w5 & E5 & H). apply input_inv in E5 as (I5 & H5 & _).
    rewrite I3 in Hin. apply Forall_cons in Hin as [Hn Hin].
    rewrite I4 in Hin. apply Forall_cons in Hin as [Hdt Hin].
    rewrite I5 in Hin. apply Forall_cons in Hin as [He Hin].
    apply bind_Ok in H as (l & w6 & E6 & H). rewrite alloc_eq in E6.
    apply Ok_inj in E6 as [<- <-].
    apply bind_Ok in H as (? & w7 & E7 & H). apply salvar_dados_inv in E7 as [I7 H7].
    apply bind_Ok in H as (? & w8 & E8 & H). apply print_inv in E8 as [I8 H8].
    apply Ok_inj in H as [<- <-].
    rewrite I8, I7, H8, H7. cbn [stdin heap]. rewrite H5, H4, H3, H1.
    split; [exact Hin|]. split; [|split].
    + apply map_Forall_insert_2; [|exact Hh].
      unfold usuario_ok. cbn. now rewrite Hn, Hdt, Hc, He.
    + now apply dir_ok_insert.
    + intros cs. apply contas_ok_insert.
Qed.

Lemma criar_conta_ok ag n us cs w cs' w' :
  criar_conta ag n us cs w = Ok cs' w' ->
  (exists lidas, stdin w = lidas ++ stdin w') /\ heap w' = heap w
  /\ (contas_ok (heap w) cs -> contas_ok (heap w') cs').
Proof.
  intros H. unfold criar_conta in H.
  apply bind_Ok in H as (c & w1 & E1 & H). apply input_inv in E1 as (I1 & H1 & _).
  apply bind_Ok in H as (r & w2 & E2 & H). apply filtrar_usuario_inv in E2 as [-> Hr].
  destruct r as [l|].
  - destruct (Hr l eq_refl) as [_ Hl].
    apply bind_Ok in H as (? & w3 & E3 & H). apply salvar_dados_inv in E3 as [I3 H3].
    apply bind_Ok in H as (? & w4 & E4 & H). apply print_inv in E4 as [I4 H4].
    apply Ok_inj in H as [<- <-].
    rewrite I4, I3, H4, H3, H1. split; [now exists [c]|]. split; [reflexivity|].
    intros Hc. apply contas_ok_app; [exact Hc|]. rewrite H1 in Hl. exact Hl.
  - apply bind_Ok in H as (? & w3 & E3 & H). apply print_inv in E3 as [I3 H3].
    apply Ok_inj in H as [<- <-].
    rewrite I3, H3, H1. split; [now exists [c]|]. now split.
Qed.

Lemma Forall_sufixo {A} (P : A -> Prop) l l1 l2 :
  l = l1 ++ l2 -> Forall P l -> Forall P l2.
Proof. intros ->. now intros [_ H]%Forall_app. Qed.

Lemma main_body_sessao_ok py_float s w s' w' :
  main_body py_float s w = Ok (Some s') w' -> sessao_ok s w -> sessao_ok s' w'.
Proof.
  intros H (Hin & Hh & Hd & Hc). unfold main_body, menu in H.
  apply bind_Ok in H as (op & w1 & E1 & H). apply input_inv in E1 as (I1 & H1 & _).
  rewrite I1 in Hin. apply Forall_cons in Hin as [_ Hin]. rewrite <- H1 in Hh, Hd, Hc.
  clear I1 H1 w.
  assert (forall m : M (option sessao),
            so_console m (fun r => forall s2, r = Some s2 ->
                                usuarios s2 = usuarios s /\ contas s2 = contas s) ->
            m w1 = Ok (Some s') w' -> sessao_ok s' w') as Hcons.
  { intros m Hm E. destruct (Hm _ _ _ E) as ([lidas Hl] & Hheap & Hs).
    destruct (Hs s' eq_refl) as [Eu Ec]. unfold sessao_ok.
    rewrite Eu, Ec, Hheap.
    repeat split; try assumption. exact (Forall_sufixo _ _ _ _ Hl Hin). }
  repeat match type of H with
    | (if decide ?P then _ else _) _ = _ => destruct (decide P) as [_|_]
    end.
  - (* d *) refine (Hcons _ _ H).
    apply (so_console_bind _ _ (fun _ => True)); [auto with console|intros text _].
    apply (so_console_bind _ _ (fun _ => True)); [auto with console|intros valor _].
    destruct valor as [v|]; [|apply so_console_ret; now intros s2 [= <-]].
    destruct (truthy (Some v)); [|apply so_console_ret; now intros s2 [= <-]].
    apply (so_console_bind _ _ (fun _ => True)); [auto with console|intros [sd ex] _].
    apply so_console_ret. now intros s2 [= <-].
  - (* s *) refine (Hcons _ _ H).
    apply (so_console_bind _ _ (fun _ => True)); [auto with console|intros text _].
    apply (so_console_bind _ _ (fun _ => True)); [auto with console|intros valor _].
    destruct valor as [v|]; [|apply so_console_ret; now intros s2 [= <-]].
    destruct (truthy (Some v)); [|apply so_console_ret; now intros s2 [= <-]].
    apply (so_console_bind _ _ (fun _ => True)); [auto with console|intros [[sd ex] n] _].
    apply so_console_ret. now intros s2 [= <-].
  - (* e *) refine (Hcons _ _ H).
    apply (so_console_bind _ _ (fun _ => True)); [auto with console|intros ? _].
    apply so_console_ret. now intros s2 [= <-].
  - (* nu *)
    apply bind_Ok in H as (us' & w2 & E & H). apply Ok_inj in H as [[= <-] <-].
    destruct (criar_usuario_ok _ _ _ _ E Hin Hh Hd) as (R1 & R2 & R3 & R4).
    unfold sessao_ok. cbn [usuarios contas]. repeat split; auto.
  - (* nc *)
    apply bind_Ok in H as (cs' & w2 & E & H). apply Ok_inj in H as [[= <-] <-].
    destruct (criar_conta_ok _ _ _ _ _ _ _ E) as ([lidas Hl] & Hheap & R).
    unfold sessao_ok. cbn [usuarios contas]. specialize (R Hc). rewrite Hheap in R |- *.
    repeat split; auto. exact (Forall_sufixo _ _ _ _ Hl Hin).
  - (* lc *) refine (Hcons _ _ H).
    apply (so_console_bind _ _ (fun _ => True)); [auto with console|intros ? _].
    apply so_console_ret. now intros s2 [= <-].
  - (* q *)
    apply bind_Ok in H as (? & w2 & _ & H). apply Ok_inj in H as [[=] _].
  - refine (Hcons _ _ H).
    apply (so_console_bind _ _ (fun _ => True)); [auto with console|intros ? _].
    apply so_console_ret. now intros s2 [= <-].
Qed.

(** Along every run of [main] the directories stay sound: the text held
    is text [json.dump] writes back faithfully, every user reference is
    live, and every account has its owner. *)
Theorem main_sessao_ok py_float s0 w0 s w :
  alcanca py_float s0 w0 s w -> sessao_ok s0 w0 -> sessao_ok s w.
Proof.
  induction 1 as [|s w s' w' _ IH Hstep]; intros H0; [exact H0|].
  exact (main_body_sessao_ok _ _ _ _ _ Hstep (IH H0)).
Qed.

(** So the user directory of every such state survives a save and a load. *)
Corollary main_salvar_carregar py_float s0 w0 s w :
  alcanca py_float s0 w0 s w -> sessao_ok s0 w0 ->
  exists rs w1,
    Forall2 (fun l r => heap w !! l = Some r) (usuarios s) rs
    /\ salvar_dados USUARIOS_FILE (usuarios s) w = Ok tt w1
    /\ carregar_dados USUARIOS_FILE w1 = Ok (JArr (map json_of_usuario rs)) w1.
Proof.
  intros Ha H0. destruct (main_sessao_ok _ _ _ _ _ Ha H0) as (_ & Hh & Hd & _).
  destruct (to_json_usuarios _ _ Hd) as (rs & HF & _).
  destruct (salvar_carregar_usuarios (usuarios s) rs w HF) as (w1 & E1 & E2 & _).
  - apply Forall_forall. intros r Hr.
    apply list_elem_of_lookup in Hr as [i Hi].
    destruct (Forall2_lookup_r _ _ _ _ _ HF Hi) as (l & _ & Hl).
    exact (Hh l r Hl).
  - exists rs, w1. auto.
Qed.

(** A first start, with no file yet and nothing in the heap, is sound as
    soon as the lines to be typed are. *)
Lemma sessao_ok_vazia (w : world) :
  heap w = ∅ -> Forall (fun l => str_ok l = true) (stdin w) ->
  sessao_ok (sessao_inicial [] []) w.
Proof.
  intros Hh Hin. unfold sessao_ok. rewrite Hh.
  split; [exact Hin|]. split; [apply map_Forall_empty|].
  split; constructor.
Qed.

(** ** [filtrar_usuario]: the first match *)

Lemma tem_cpf_lista h us c : tem_cpf h us c <-> c ∈ lista_cpfs h us.
Proof.
  unfold tem_cpf, lista_cpfs. rewrite Exists_exists, list_elem_of_omap.
  split.
  - intros (l & Hl & u & Hu & Hc). exists l. split; [exact Hl|].
    now rewrite Hu, <- Hc.
  - intros (l & Hl & E). exists l. split; [exact Hl|].
    destruct (h !! l) as [u|]; [|discriminate]. injection E as <-. eauto.
Qed.

(** X1: in a directory whose references are all live, [filtrar_usuario]
    never fails and changes nothing; it returns [None] exactly when no
    user has the CPF, and otherwise the first user of the list that has
    it: no user before the one returned has that CPF. *)
Theorem filtrar_usuario_primeiro (c : str) (us : list loc) (w : world) :
  dir_ok (heap w) us ->
  (filtrar_usuario c us w = Ok None w /\ ~ tem_cpf (heap w) us c)
  \/ (exists antes l depois u,
        us = antes ++ l :: depois
        /\ filtrar_usuario c us w = Ok (Some l) w
        /\ heap w !! l = Some u /\ cpf u = c
        /\ ~ tem_cpf (heap w) antes c).
Proof.
  unfold dir_ok. induction us as [|l us IH]; intros Hd.
  - left. split; [reflexivity|]. intros H. inversion H.
  - apply Forall_cons in Hd as [[u Hu] Hd]. simpl. rewrite Hu.
    destruct (decide (cpf u = c)) as [E|NE].
    + right. exists [], l, us, u. repeat split; auto. intros H. inversion H.
    + destruct (IH Hd) as [[E Hn]|(antes & l' & depois & u' & -> & E & Hl & Hc & Hn)].
      * left. split; [exact E|]. intros [(u' & Hu' & Ec)|H]%Exists_cons; [congruence|auto].
      * right. exists (l :: antes), l', depois, u'. repeat split; auto.
        intros [(u'' & Hu'' & Ec)|H]%Exists_cons; [congruence|auto].
Qed.

Lemma filtrar_usuario_None_inv c us w w' :
  filtrar_usuario c us w = Ok None w' ->
  w' = w /\ dir_ok (heap w) us /\ ~ tem_cpf (heap w) us c.
Proof.
  unfold dir_ok. induction us as [|l us IH]; simpl.
  - intros H. apply Ok_inj in H as [_ <-]. split; [reflexivity|].
    split; [constructor|]. intros H. inversion H.
  - destruct (heap w !! l) as [u|] eqn:Hl; [|discriminate].
    destruct (decide (cpf u = c)) as [E|NE]; [discriminate|].
    intros H. destruct (IH H) as (-> & Hd & Hn). split; [reflexivity|]. split.
    + constructor; eauto.
    + intros [(u' & Hu' & Ec)|H']%Exists_cons; [congruence|auto].
Qed.

Lemma filtrar_usuario_Some_inv c us w l w' :
  filtrar_usuario c us w = Ok (Some l) w' ->
  w' = w /\ l ∈ us /\ exists u, heap w !! l = Some u /\ cpf u = c.
Proof.
  induction us as [|l0 us IH]; simpl; [discriminate|].
  destruct (heap w !! l0) as [u|] eqn:Hl; [|discriminate].
  destruct (decide (cpf u = c)) as [E|NE].
  - intros H. apply Ok_inj in H as [[= <-] <-].
    split; [reflexivity|]. split; [apply list_elem_of_here|eauto].
  - intros H. destruct (IH H) as (-> & Hin & Hu). split; [reflexivity|].
    split; [now apply list_elem_of_further|exact Hu].
Qed.

(** ** What a call of [criar_usuario] or [criar_conta] can have done *)

Lemma criar_usuario_casos us w us' w' :
  criar_usuario us w = Ok us' w' ->
  (us' = us /\ heap w' = heap w /\ files w' = files w
   /\ exists c, stdin w = c :: stdin w' /\ tem_cpf (heap w) us c)
  \/ (exists c n d e l j,
        stdin w = c :: n :: d :: e :: stdin w'
        /\ dir_ok (heap w) us /\ ~ tem_cpf (heap w) us c
        /\ us' = us ++ [l] /\ heap w !! l = None
        /\ heap w' = <[l := mk_usuario n d c e]> (heap w)
        /\ to_json (heap w') us' = Some j
        /\ files w' = <[USUARIOS_FILE := json_dumps j]> (files w)).
Proof.
  intros H. unfold criar_usuario in H.
  apply bind_Ok in H as (c & w1 & E1 & H). apply input_inv in E1 as (I1 & H1 & F1).
  apply bind_Ok in H as (r & w2 & E2 & H). destruct r as [l|].
  - apply filtrar_usuario_Some_inv in E2 as (-> & Hl & u & Hu & Hc).
    apply bind_Ok in H as (? & w3 & E3 & H). apply Ok_inj in E3 as [_ <-].
    apply Ok_inj in H as [<- <-]. left. cbn [heap files stdin write].
    repeat split; auto. exists c. split; [exact I1|].
    apply Exists_exists. exists l. split; [exact Hl|].
    exists u. rewrite <- H1. auto.
  - apply filtrar_usuario_None_inv in E2 as (-> & Hd & Hn).
    apply bind_Ok in H as (n & w3 & E3 & H). apply input_inv in E3 as (I3 & H3 & F3).
    apply bind_Ok in H as (d & w4 & E4 & H). apply input_inv in E4 as (I4 & H4 & F4).
    apply bind_Ok in H as (e & w5 & E5 & H). apply input_inv in E5 as (I5 & H5 & F5).
    apply bind_Ok in H as (l & w6 & E6 & H). rewrite alloc_eq in E6.
    apply Ok_inj in E6 as [<- <-].
    apply bind_Ok in H as (? & w7 & E7 & H). unfold salvar_dados in E7.
    cbn [heap files] in E7.
    destruct (to_json _ (us ++ [fresh (dom (heap w5))])) as [j|] eqn:Ej; [|discriminate].
    apply Ok_inj in E7 as [_ <-].
    apply bind_Ok in H as (? & w8 & E8 & H). apply Ok_inj in E8 as [_ <-].
    apply Ok_inj in H as [<- <-].
    right. exists c, n, d, e, (fresh (dom (heap w5))), j.
    cbn [heap files stdin write set_files].
    rewrite H5, H4, H3, H1 in *. rewrite F5, F4, F3, F1.
    split; [congruence|]. split; [exact Hd|]. split; [exact Hn|].
    split; [reflexivity|]. split; [apply not_elem_of_dom, is_fresh|].
    split; [reflexivity|]. split; [exact Ej|reflexivity].
Qed.

Lemma criar_conta_casos ag n us cs w cs' w' :
  criar_conta ag n us cs w = Ok cs' w' ->
  heap w' = heap w
  /\ exists c, stdin w = c :: stdin w'
  /\ ((cs' = cs /\ files w' = files w /\ ~ tem_cpf (heap w) us c)
      \/ (exists l u j,
            l ∈ us /\ heap w !! l = Some u /\ cpf u = c
            /\ cs' = cs ++ [mk_conta ag n l]
            /\ to_json (heap w) cs' = Some j
            /\ files w' = <[CONTAS_FILE := json_dumps j]> (files w))).
Proof.
  intros H. unfold criar_conta in H.
  apply bind_Ok in H as (c & w1 & E1 & H). apply input_inv in E1 as (I1 & H1 & F1).
  apply bind_Ok in H as (r & w2 & E2 & H). destruct r as [l|].
  - apply filtrar_usuario_Some_inv in E2 as (-> & Hl & u & Hu & Hc).
    apply bind_Ok in H as (? & w3 & E3 & H). unfold salvar_dados in E3.
    destruct (to_json (heap w1) (cs ++ [mk_conta ag n l])) as [j|] eqn:Ej; [|discriminate].
    apply Ok_inj in E3 as [_ <-].
    apply bind_Ok in H as (? & w4 & E4 & H). apply Ok_inj in E4 as [_ <-].
    apply Ok_inj in H as [<- <-]. cbn [heap files stdin write set_files].
    rewrite H1 in *. split; [reflexivity|]. exists c. split; [exact I1|].
    right. exists l, u, j. rewrite F1. repeat split; auto.
  - apply filtrar_usuario_None_inv in E2 as (-> & Hd & Hn).
    apply bind_Ok in H as (? & w3 & E3 & H). apply Ok_inj in E3 as [_ <-].
    apply Ok_inj in H as [<- <-]. cbn [heap files stdin write].
    rewrite H1 in *. split; [reflexivity|]. exists c. split; [exact I1|].
    left. rewrite F1. auto.
Qed.

(** ** Console-only actions *)

Lemma quadro_ret {A} (a : A) (Q : A -> Prop) : Q a -> quadro (mret a) Q.
Proof.
  intros HQ w a' w' H. apply Ok_inj in H as [<- <-].
  split; [now exists []|]. split; [exists []; now rewrite app_nil_r|]. auto.
Qed.

Lemma quadro_bind {A B} (m : M A) (k : A -> M B) Q R :
  quadro m Q -> (forall a, Q a -> quadro (k a) R) -> quadro (m ≫= k) R.
Proof.
  intros Hm Hk w b w' H. apply bind_Ok in H as (a & w1 & E1 & E2).
  destruct (Hm _ _ _ E1) as ([l1 H1] & [o1 O1] & F1 & Hh1 & HQ).
  destruct (Hk a HQ _ _ _ E2) as ([l2 H2] & [o2 O2] & F2 & Hh2 & HR).
  split; [exists (l1 ++ l2); rewrite <- app_assoc; congruence|].
  split; [exists (o1 ++ o2); rewrite app_assoc; congruence|].
  split; [congruence|]. split; [congruence|exact HR].
Qed.

Lemma quadro_print s : quadro (print s) (fun _ => True).
Proof.
  intros w a w' H. apply print_Ok in H as ->.
  split; [now exists []|]. split; [now eexists|]. auto.
Qed.

Lemma quadro_input prompt : quadro (input prompt) (fun _ => True).
Proof.
  intros w l w'. unfold input. destruct (codificavel prompt); [|discriminate]. simpl.
  destruct (stdin w) as [|x rest] eqn:E; [discriminate|].
  intros H. apply Ok_inj in H as [-> <-]. simpl.
  split; [now exists [l]|]. split; [now eexists|]. auto.
Qed.

Lemma quadro_validar py_float text :
  quadro (validar_valor py_float text)
    (fun r => forall v, r = Some v -> gt v 0 = true).
Proof.
  unfold validar_valor.
  destruct (py_float text) as [v|]; [destruct (gt v 0) eqn:Hv|].
  - apply quadro_ret. now intros v' [= <-].
  - apply (quadro_bind _ _ (fun _ => True)); [apply quadro_print|intros ? _].
    now apply quadro_ret.
  - apply (quadro_bind _ _ (fun _ => True)); [apply quadro_print|intros ? _].
    now apply quadro_ret.
Qed.

Lemma quadro_depositar sd v ex :
  quadro (depositar sd v ex)
    (fun r => r = ((sd + v)%float, ex ++ linha_deposito v)).
Proof.
  unfold depositar.
  apply (quadro_bind _ _ (fun _ => True)); [apply quadro_print|intros ? _].
  now apply quadro_ret.
Qed.

Lemma quadro_sacar sd v ex lim n m :
  quadro (sacar sd v ex lim n m)
    (fun r => r = (sd, ex, n)
              \/ (r = ((sd - v)%float, ex ++ linha_saque v, (n + 1)%Z)
                  /\ gt v sd = false /\ gt v lim = false /\ (n < m)%Z)).
Proof.
  unfold sacar.
  destruct (gt v sd) eqn:E1; [|destruct (gt v lim) eqn:E2;
    [|destruct (n >=? m)%Z eqn:E3]];
    (apply (quadro_bind _ _ (fun _ => True)); [apply quadro_print|intros ? _]);
    apply quadro_ret; auto.
  right. repeat split. rewrite Z.geb_leb in E3. now apply Z.leb_gt in E3.
Qed.

Lemma quadro_extrato sd ex : quadro (exibir_extrato sd ex) (fun _ => True).
Proof.
  unfold exibir_extrato.
  repeat (apply (quadro_bind _ _ (fun _ => True)); [apply quadro_print|intros ? _]).
  apply quadro_print.
Qed.

Lemma quadro_listar cs : quadro (listar_contas cs) (fun _ => True).
Proof.
  unfold listar_contas.
  apply (quadro_bind _ _ (fun _ => True)); [|intros ? _; apply quadro_print].
  induction cs as [|c cs IH]; [now apply quadro_ret|].
  apply (quadro_bind _ _ (fun _ => True)).
  - intros w u w'. destruct (heap w !! usuario c); [|discriminate].
    intros H. apply Ok_inj in H as [_ <-].
    split; [now exists []|]. split; [exists []; now rewrite app_nil_r|]. auto.
  - intros u _. cbv zeta.
    repeat (apply (quadro_bind _ _ (fun _ => True)); [apply quadro_print|intros ? _]).
    exact IH.
Qed.

(** ** The three kinds of turn of [main] *)

Lemma main_body_casos py_float s w s' w' :
  main_body py_float s w = Ok (Some s') w' ->
  exists op w1,
    stdin w = op :: stdin w1 /\ heap w1 = heap w /\ files w1 = files w
    /\ ((op <> py "nu" /\ op <> py "nc" /\ ledger_avanca s s'
         /\ (exists lidas, stdin w1 = lidas ++ stdin w')
         /\ files w' = files w1 /\ heap w' = heap w1
         /\ (op <> py "d" -> op <> py "s" -> s' = s))
        \/ (op = py "nu"
            /\ criar_usuario (usuarios s) w1 = Ok (usuarios s') w'
            /\ s' = mk_sessao (saldo s) (limite s) (extrato s) (numero_saques s)
                              (usuarios s') (contas s))
        \/ (op = py "nc"
            /\ criar_conta AGENCIA (Z.of_nat (length (contas s)) + 1)
                 (usuarios s) (contas s) w1 = Ok (contas s') w'
            /\ s' = mk_sessao (saldo s) (limite s) (extrato s) (numero_saques s)
                              (usuarios s) (contas s'))).
Proof.
  intros H. unfold main_body, menu in H.
  apply bind_Ok in H as (op & w1 & E1 & H). apply input_inv in E1 as (I1 & H1 & F1).
  exists op, w1. repeat (split; [assumption|]).
  assert (ledger_avanca s s) as Hrefl.
  { repeat split; try lia. exists []. now rewrite app_nil_r. }
  set (Q := fun r : option sessao => forall s2, r = Some s2 ->
              ledger_avanca s s2 /\ (op <> py "d" -> op <> py "s" -> s2 = s)).
  assert (forall m : M (option sessao),
            quadro m Q -> m w1 = Ok (Some s') w' ->
            ledger_avanca s s' /\ (exists lidas, stdin w1 = lidas ++ stdin w')
            /\ files w' = files w1 /\ heap w' = heap w1
            /\ (op <> py "d" -> op <> py "s" -> s' = s)) as Hcons.
  { intros m Hm E. destruct (Hm _ _ _ E) as (Hl & _ & Hf & Hh & Hs).
    destruct (Hs _ eq_refl). auto. }
  assert (quadro (mret (Some s) : M (option sessao)) Q) as Hsame.
  { apply quadro_ret. now intros s2 [= <-]. }
  destruct (decide (op = py "d")) as [Ed|n1].
  { left. subst Q. rewrite Ed in *. split; [vm_compute; discriminate|]. split; [vm_compute; discriminate|].
    refine (Hcons _ _ H).
    apply (quadro_bind _ _ (fun _ => True)); [apply quadro_input|intros text _].
    eapply quadro_bind; [apply quadro_validar|intros valor Hv].
    destruct valor as [v|]; [|exact Hsame].
    destruct (truthy (Some v)); [|exact Hsame].
    eapply quadro_bind; [apply quadro_depositar|intros [sd ex] [= -> ->]].
    apply quadro_ret. intros s2 [= <-]. split; [|intros Hd; now destruct Hd].
    repeat split; cbn; try lia. eauto. }
  destruct (decide (op = py "s")) as [Es|n2].
  { left. subst Q. rewrite Es in *. split; [vm_compute; discriminate|]. split; [vm_compute; discriminate|].
    refine (Hcons _ _ H).
    apply (quadro_bind _ _ (fun _ => True)); [apply quadro_input|intros text _].
    eapply quadro_bind; [apply quadro_validar|intros valor Hv].
    destruct valor as [v|]; [|exact Hsame].
    destruct (truthy (Some v)); [|exact Hsame].
    eapply quadro_bind; [apply quadro_sacar|intros [[sd ex] n] Hr].
    apply quadro_ret. intros s2 [= <-]. split; [|intros _ Hs; now destruct Hs].
    destruct Hr as [[= -> -> ->]|([= -> -> ->] & _)].
    - exact Hrefl.
    - repeat split; cbn; try lia. eauto. }
  destruct (decide (op = py "e")) as [->|n3].
  { left. split; [vm_compute; discriminate|]. split; [vm_compute; discriminate|].
    refine (Hcons _ _ H).
    apply (quadro_bind _ _ (fun _ => True)); [apply quadro_extrato|intros ? _].
    exact Hsame. }
  destruct (decide (op = py "nu")) as [->|n4].
  { right. left. split; [reflexivity|].
    apply bind_Ok in H as (us' & w2 & E & H). apply Ok_inj in H as [[= <-] <-].
    split; [exact E|reflexivity]. }
  destruct (decide (op = py "nc")) as [->|n5].
  { right. right. split; [reflexivity|].
    apply bind_Ok in H as (cs' & w2 & E & H). apply Ok_inj in H as [[= <-] <-].
    split; [exact E|reflexivity]. }
  left. split; [exact n4|]. split; [exact n5|]. refine (Hcons _ _ H).
  destruct (decide (op = py "lc")) as [->|n6].
  { apply (quadro_bind _ _ (fun _ => True)); [apply quadro_listar|intros ? _].
    exact Hsame. }
  destruct (decide (op = py "q")) as [->|n7].
  { apply (quadro_bind _ _ (fun _ => True)); [apply quadro_print|intros ? _].
    apply quadro_ret. discriminate. }
  apply (quadro_bind _ _ (fun _ => True)); [apply quadro_print|intros ? _].
  exact Hsame.
Qed.

(** ** Sample runs *)

Lemma turnos_alcanca py_float n : forall s w s' w' s0 w0,
  alcanca py_float s0 w0 s w ->
  turnos py_float n s w = Some (s', w') ->
  alcanca py_float s0 w0 s' w'.
Proof.
  induction n as [|n IH]; intros s w s' w' s0 w0 Ha H; simpl in H.
  - now injection H as <- <-.
  - destruct (main_body py_float s w) as [[s1|] w1|] eqn:E; try discriminate.
    eapply IH; [|exact H]. eapply alcanca_passo; eauto.
Qed.

Lemma alcanca_exemplo :
  alcanca float_exemplo (sessao_inicial [] []) mundo_exemplo
    (fst fim_exemplo) (snd fim_exemplo).
Proof.
  apply (turnos_alcanca float_exemplo 6 (sessao_inicial [] []) mundo_exemplo).
  - apply alcanca_inicio.
  - vm_compute. reflexivity.
Qed.

(** ** The user directory along [main] *)

Lemma lista_cpfs_insert h us l u :
  dir_ok h us -> h !! l = None ->
  lista_cpfs (<[l := u]> h) (us ++ [l]) = lista_cpfs h us ++ [cpf u].
Proof.
  intros Hd Hl. unfold lista_cpfs. rewrite omap_app. f_equal.
  - apply list_omap_ext. eapply Forall_Forall2_diag, Forall_impl; [exact Hd|].
    intros l' [u' Hu']. cbn beta.
    rewrite lookup_insert_ne by congruence. reflexivity.
  - cbn. now rewrite lookup_insert_eq.
Qed.

Lemma main_body_cpfs py_float s w s' w' :
  main_body py_float s w = Ok (Some s') w' ->
  dir_ok (heap w) (usuarios s) /\ NoDup (lista_cpfs (heap w) (usuarios s)) ->
  dir_ok (heap w') (usuarios s') /\ NoDup (lista_cpfs (heap w') (usuarios s')).
Proof.
  intros H [Hd Hn].
  destruct (main_body_casos _ _ _ _ _ H) as (op & w1 & _ & H1 & _ & Hc).
  rewrite <- H1 in Hd, Hn.
  destruct Hc as [(_ & _ & (-> & _) & _ & _ & -> & _)|[(_ & E & _)|(_ & E & ->)]].
  - auto.
  - apply criar_usuario_casos in E
      as [(-> & -> & _)|(c & n & d & e & l & j & _ & _ & Ht & -> & Hl & -> & _)];
      [auto|].
    split; [now apply dir_ok_insert|].
    rewrite lista_cpfs_insert by assumption. cbn [cpf].
    apply NoDup_app. split; [exact Hn|]. split; [|apply NoDup_singleton].
    intros x Hx ->%list_elem_of_singleton. now apply Ht, tem_cpf_lista.
  - apply criar_conta_casos in E as [-> _]. auto.
Qed.

(** X5: along every run of [main] that starts from a directory of live
    references with pairwise distinct CPFs, the directory keeps both
    properties: [criar_usuario] never registers a CPF twice. *)
Theorem main_cpfs_distintos py_float s0 w0 s w :
  alcanca py_float s0 w0 s w ->
  dir_ok (heap w0) (usuarios s0) ->
  NoDup (lista_cpfs (heap w0) (usuarios s0)) ->
  dir_ok (heap w) (usuarios s) /\ NoDup (lista_cpfs (heap w) (usuarios s)).
Proof.
  induction 1 as [|s w s' w' _ IH Hstep]; intros Hd Hn; [now split|].
  exact (main_body_cpfs _ _ _ _ _ Hstep (IH Hd Hn)).
Qed.

Lemma main_cpfs_distintos_witness :
  dir_ok (heap (snd fim_exemplo)) (usuarios (fst fim_exemplo))
  /\ NoDup (lista_cpfs (heap (snd fim_exemplo)) (usuarios (fst fim_exemplo))).
Proof.
  apply (main_cpfs_distintos float_exemplo (sessao_inicial [] []) mundo_exemplo
           (fst fim_exemplo) (snd fim_exemplo) alcanca_exemplo); constructor.
Defined.

(** ** The account directory along [main] *)

Lemma main_body_contas py_float s w s' w' :
  main_body py_float s w = Ok (Some s') w' ->
  contas_em_ordem (contas s) -> contas_em_ordem (contas s').
Proof.
  intros H Ho.
  destruct (main_body_casos _ _ _ _ _ H) as (op & w1 & _ & _ & _ & Hc).
  destruct Hc as [(_ & _ & (_ & -> & _) & _)|[(_ & _ & ->)|(_ & E & ->)]];
    cbn [contas]; [exact Ho|exact Ho|].
  apply criar_conta_casos in E
    as (_ & c & _ & [(-> & _)|(l & u & j & _ & _ & _ & -> & _)]); [exact Ho|].
  intros i c' Hi. apply lookup_app_Some in Hi as [Hi|[Hlen Hi]]; [now apply Ho|].
  apply list_lookup_singleton_Some in Hi as [Hi <-]. cbn. split; [lia|reflexivity].
Qed.

(** X6: along every run of [main], the accounts stay numbered 1, 2, 3,
    ... in the order of the directory, all at agency [AGENCIA]: the number
    [main] computes from the length of the directory is always the next
    one. *)
Theorem main_contas_numeradas py_float s0 w0 s w :
  alcanca py_float s0 w0 s w ->
  contas_em_ordem (contas s0) -> contas_em_ordem (contas s).
Proof.
  induction 1 as [|s w s' w' _ IH Hstep]; intros Ho; [exact Ho|].
  exact (main_body_contas _ _ _ _ _ Hstep (IH Ho)).
Qed.

Lemma main_contas_numeradas_witness : contas_em_ordem (contas (fst fim_exemplo)).
Proof.
  apply (main_contas_numeradas float_exemplo (sessao_inicial [] []) mundo_exemplo
           (fst fim_exemplo) (snd fim_exemplo) alcanca_exemplo).
  intros i c Hi. discriminate Hi.
Defined.

Lemma main_body_titulares py_float s w s' w' :
  main_body py_float s w = Ok (Some s') w' ->
  Forall (fun c => usuario c ∈ usuarios s) (contas s) ->
  Forall (fun c => usuario c ∈ usuarios s') (contas s').
Proof.
  intros H Ht.
  destruct (main_body_casos _ _ _ _ _ H) as (op & w1 & _ & _ & _ & Hc).
  destruct Hc as [(_ & _ & (-> & -> & _) & _)|[(_ & E & ->)|(_ & E & ->)]];
    cbn [usuarios contas].
  - exact Ht.
  - apply criar_usuario_casos in E
      as [(-> & _)|(c & n & d & e & l & j & _ & _ & _ & -> & _)]; [exact Ht|].
    eapply Forall_impl; [exact Ht|]. intros c' Hc'. apply elem_of_app. now left.
  - apply criar_conta_casos in E
      as (_ & c & _ & [(-> & _)|(l & u & j & Hl & _ & _ & -> & _)]); [exact Ht|].
    apply Forall_app. split; [exact Ht|]. now repeat constructor.
Qed.

(** X7: along every run of [main], the owner of every account is one of
    the dictionaries of the user directory itself, when this holds at the
    start. *)
Theorem main_titulares_no_cadastro py_float s0 w0 s w :
  alcanca py_float s0 w0 s w ->
  Forall (fun c => usuario c ∈ usuarios s0) (contas s0) ->
  Forall (fun c => usuario c ∈ usuarios s) (contas s).
Proof.
  induction 1 as [|s w s' w' _ IH Hstep]; intros Ht; [exact Ht|].
  exact (main_body_titulares _ _ _ _ _ Hstep (IH Ht)).
Qed.

Lemma main_titulares_no_cadastro_witness :
  Forall (fun c => usuario c ∈ usuarios (fst fim_exemplo)) (contas (fst fim_exemplo)).
Proof.
  apply (main_titulares_no_cadastro float_exemplo (sessao_inicial [] []) mundo_exemplo
           (fst fim_exemplo) (snd fim_exemplo) alcanca_exemplo).
  constructor.
Defined.

(** ** The files along [main] *)

Lemma arquivos_distintos : USUARIOS_FILE <> CONTAS_FILE.
Proof. vm_compute. discriminate. Qed.

Lemma main_body_arquivos py_float s w s' w' p :
  main_body py_float s w = Ok (Some s') w' ->
  p <> USUARIOS_FILE -> p <> CONTAS_FILE ->
  files w' !! p = files w !! p.
Proof.
  intros H Hu Hc.
  destruct (main_body_casos _ _ _ _ _ H) as (op & w1 & _ & _ & F1 & Hcase).
  rewrite <- F1.
  destruct Hcase as [(_ & _ & _ & _ & -> & _)|[(_ & E & _)|(_ & E & _)]].
  - reflexivity.
  - apply criar_usuario_casos in E
      as [(_ & _ & -> & _)|(c & n & d & e & l & j & _ & _ & _ & _ & _ & _ & _ & ->)];
      [reflexivity|].
    now rewrite lookup_insert_ne.
  - apply criar_conta_casos in E
      as (_ & c & _ & [(_ & -> & _)|(l & u & j & _ & _ & _ & _ & _ & ->)]);
      [reflexivity|].
    now rewrite lookup_insert_ne.
Qed.

(** X8: along every run of [main], a file other than the users file and
    the accounts file is never created, changed or removed. *)
Theorem main_so_dois_arquivos py_float s0 w0 s w (p : str) :
  alcanca py_float s0 w0 s w ->
  p <> USUARIOS_FILE -> p <> CONTAS_FILE ->
  files w !! p = files w0 !! p.
Proof.
  induction 1 as [|s w s' w' _ IH Hstep]; intros Hu Hc; [reflexivity|].
  rewrite (main_body_arquivos _ _ _ _ _ p Hstep Hu Hc). now apply IH.
Qed.

Lemma main_so_dois_arquivos_witness :
  files (snd fim_exemplo) !! py "extrato.txt" = files mundo_exemplo !! py "extrato.txt".
Proof.
  apply (main_so_dois_arquivos float_exemplo (sessao_inicial [] []) mundo_exemplo
           (fst fim_exemplo) (snd fim_exemplo) (py "extrato.txt") alcanca_exemplo);
    vm_compute; discriminate.
Defined.

Lemma to_json_contas_insert h l u (cs : list conta_dict) j :
  h !! l = None -> to_json h cs = Some j ->
  to_json (<[l := u]> h) cs = Some j.
Proof.
  intros Hl. unfold to_json, list_ToJson. intros H.
  destruct (mapM (to_json h) cs) as [js|] eqn:E; [|discriminate].
  assert (mapM (to_json (<[l := u]> h)) cs = Some js) as ->; [|exact H].
  apply mapM_Some in E. apply mapM_Some.
  eapply Forall2_impl; [exact E|]. intros c jc Hc.
  unfold to_json, conta_ToJson in Hc |- *.
  unfold to_json, loc_ToJson in Hc |- *.
  destruct (h !! usuario c) as [uc|] eqn:Euc; [|discriminate].
  rewrite lookup_insert_ne by congruence. rewrite Euc. exact Hc.
Qed.

Lemma main_body_em_dia py_float s0 w0 s w s' w' :
  main_body py_float s w = Ok (Some s') w' ->
  em_dia USUARIOS_FILE (usuarios s0) w0 (usuarios s) w
  /\ em_dia CONTAS_FILE (contas s0) w0 (contas s) w ->
  em_dia USUARIOS_FILE (usuarios s0) w0 (usuarios s') w'
  /\ em_dia CONTAS_FILE (contas s0) w0 (contas s') w'.
Proof.
  intros H [Hu Hc]. pose proof arquivos_distintos as Hne.
  destruct (main_body_casos _ _ _ _ _ H) as (op & w1 & _ & H1 & F1 & Hcase).
  unfold em_dia in *. rewrite <- H1, <- F1 in Hu, Hc. clear H1 F1.
  destruct Hcase as [(_ & _ & (-> & -> & _) & _ & -> & -> & _)|[(_ & E & ->)|(_ & E & ->)]];
    cbn [usuarios contas].
  - auto.
  - apply criar_usuario_casos in E
      as [(-> & -> & -> & _)
         |(c & n & d & e & l & j & _ & _ & _ & -> & Hl & Hh & Ej & ->)]; [auto|].
    split; [right; exists j; split; [exact Ej|apply lookup_insert_eq]|].
    rewrite lookup_insert_ne by exact Hne.
    destruct Hc as [Hc|(jc & Ejc & Hf)]; [now left|right].
    exists jc. split; [|exact Hf]. rewrite Hh. now apply to_json_contas_insert.
  - apply criar_conta_casos in E
      as (-> & c & _ & [(-> & -> & _)|(l & u & j & _ & _ & _ & -> & Ej & ->)]); [auto|].
    split; [|right; exists j; split; [exact Ej|apply lookup_insert_eq]].
    rewrite lookup_insert_ne by congruence. exact Hu.
Qed.

(** X9: along every run of [main], each of the two files is in step with
    its directory: either the directory is still the one of the start and
    the file is untouched, or the file holds exactly what [json.dump]
    writes for the present directory. *)
Theorem main_arquivos_em_dia py_float s0 w0 s w :
  alcanca py_float s0 w0 s w ->
  em_dia USUARIOS_FILE (usuarios s0) w0 (usuarios s) w
  /\ em_dia CONTAS_FILE (contas s0) w0 (contas s) w.
Proof.
  induction 1 as [|s w s' w' _ IH Hstep].
  - split; now left.
  - exact (main_body_em_dia _ _ _ _ _ _ _ Hstep IH).
Qed.

Lemma main_arquivos_em_dia_witness :
  em_dia USUARIOS_FILE [] mundo_exemplo (usuarios (fst fim_exemplo)) (snd fim_exemplo)
  /\ em_dia CONTAS_FILE [] mundo_exemplo (contas (fst fim_exemplo)) (snd fim_exemplo).
Proof.
  exact (main_arquivos_em_dia float_exemplo (sessao_inicial [] []) mundo_exemplo
           (fst fim_exemplo) (snd fim_exemplo) alcanca_exemplo).
Defined.

(** ** The ledger along [main] *)

Lemma main_body_ledger_avanca py_float s w s' w' :
  main_body py_float s w = Ok (Some s') w' ->
  limite s' = limite s
  /\ (exists novo, extrato s' = extrato s ++ novo)
  /\ (numero_saques s <= numero_saques s')%Z.
Proof.
  intros H.
  destruct (main_body_casos _ _ _ _ _ H) as (op & w1 & _ & _ & _ & Hcase).
  destruct Hcase as [(_ & _ & (_ & _ & Hl & He & Hn) & _)|[(_ & _ & ->)|(_ & _ & ->)]];
    cbn [limite extrato numero_saques].
  - repeat split; auto; lia.
  - repeat split; try lia. exists []. now rewrite app_nil_r.
  - repeat split; try lia. exists []. now rewrite app_nil_r.
Qed.

(** X10: along every run of [main], the limit stays what it was, the
    statement only grows at its end, and the count of withdrawals never
    goes down. *)
Theorem main_extrato_so_cresce py_float s0 w0 s w :
  alcanca py_float s0 w0 s w ->
  limite s = limite s0
  /\ (exists novo, extrato s = extrato s0 ++ novo)
  /\ (numero_saques s0 <= numero_saques s)%Z.
Proof.
  induction 1 as [|s w s' w' _ (IH1 & [n1 IH2] & IH3) Hstep].
  - repeat split; try lia. exists []. now rewrite app_nil_r.
  - destruct (main_body_ledger_avanca _ _ _ _ _ Hstep) as (H1 & [n2 H2] & H3).
    split; [congruence|]. split; [|lia].
    exists (n1 ++ n2). rewrite H2, IH2. now rewrite app_assoc.
Qed.

Lemma main_extrato_so_cresce_witness :
  limite (fst fim_exemplo) = 500%float
  /\ (exists novo, extrato (fst fim_exemplo) = [] ++ novo)
  /\ (0 <= numero_saques (fst fim_exemplo))%Z.
Proof.
  exact (main_extrato_so_cresce float_exemplo (sessao_inicial [] []) mundo_exemplo
           (fst fim_exemplo) (snd fim_exemplo) alcanca_exemplo).
Defined.

(** ** What each command may touch *)

(** X4: what a turn of the loop of [main] may touch depends on the
    command read at the menu: only [d] and [s] change balance, statement
    or count; only [nu] changes the user directory, the heap or the users
    file; only [nc] changes the account directory or the accounts file;
    no command changes the limit. *)
Theorem main_body_cada_comando py_float s w s' w' op resto :
  main_body py_float s w = Ok (Some s') w' ->
  stdin w = op :: resto ->
  (op <> py "d" -> op <> py "s" ->
     saldo s' = saldo s /\ extrato s' = extrato s
     /\ numero_saques s' = numero_saques s)
  /\ (op <> py "nu" ->
     usuarios s' = usuarios s /\ heap w' = heap w
     /\ files w' !! USUARIOS_FILE = files w !! USUARIOS_FILE)
  /\ (op <> py "nc" ->
     contas s' = contas s
     /\ files w' !! CONTAS_FILE = files w !! CONTAS_FILE)
  /\ limite s' = limite s.
Proof.
  intros H Hin. pose proof arquivos_distintos as Hne.
  destruct (main_body_casos _ _ _ _ _ H) as (op' & w1 & I1 & H1 & F1 & Hc).
  rewrite Hin in I1. injection I1 as <- _. rewrite <- H1, <- F1.
  destruct Hc as [(_ & _ & (Hu & Hcs & Hl & _) & _ & -> & -> & Hs)
                 |[(-> & E & ->)|(-> & E & ->)]];
    cbn [saldo extrato numero_saques usuarios contas limite].
  - split; [intros Hd Hs'; now rewrite (Hs Hd Hs')|]. auto.
  - split; [auto|]. split; [now intros []|]. split; [|reflexivity].
    intros _. split; [reflexivity|].
    apply criar_usuario_casos in E
      as [(_ & _ & -> & _)|(c & n & d & e & l & j & _ & _ & _ & _ & _ & _ & _ & ->)];
      [reflexivity|].
    rewrite lookup_insert_ne by exact Hne. reflexivity.
  - split; [auto|]. split; [|split; [now intros []|reflexivity]].
    intros _. split; [reflexivity|].
    apply criar_conta_casos in E
      as (-> & c & _ & [(_ & -> & _)|(l & u & j & _ & _ & _ & _ & _ & ->)]);
      [auto|].
    split; [reflexivity|]. rewrite lookup_insert_ne by congruence. reflexivity.
Qed.

Lemma main_body_cada_comando_witness :
  (py "lc" <> py "d" -> py "lc" <> py "s" ->
     saldo (sessao_inicial [] []) = 0%float /\ extrato (sessao_inicial [] []) = []
     /\ numero_saques (sessao_inicial [] []) = 0%Z)
  /\ (py "lc" <> py "nu" ->
     usuarios (sessao_inicial [] []) = [] /\ (∅ : gmap loc usuario_dict) = ∅
     /\ (∅ : gmap str str) !! USUARIOS_FILE = (∅ : gmap str str) !! USUARIOS_FILE)
  /\ (py "lc" <> py "nc" ->
     contas (sessao_inicial [] []) = []
     /\ (∅ : gmap str str) !! CONTAS_FILE = (∅ : gmap str str) !! CONTAS_FILE)
  /\ limite (sessao_inicial [] []) = 500%float.
Proof.
  refine (main_body_cada_comando float_exemplo (sessao_inicial [] [])
            (mk_world [py "lc"] [] ∅ ∅) (sessao_inicial [] [])
            (mk_world [] [dedent menu_text; repeat 61%N 50 ++ [nl]] ∅ ∅)
            (py "lc") [] _ _).
  - vm_compute. reflexivity.
  - reflexivity.
Defined.

(** ** Listing the accounts *)

Lemma codificavel_app a b : codificavel (a ++ b) = codificavel a && codificavel b.
Proof. apply forallb_app. Qed.

Lemma codificavel_Forall s :
  codificavel s = true <-> Forall (fun c => is_surrogate c = false) s.
Proof.
  unfold codificavel. rewrite forallb_forall, Forall_forall. split.
  - intros H c Hc. apply negb_true_iff, H. now apply list_elem_of_In.
  - intros H c Hc. apply negb_true_iff, H. now apply list_elem_of_In.
Qed.

Lemma Forall_split_lines (P : N -> Prop) s :
  Forall P s -> Forall (Forall P) (split_lines s).
Proof.
  induction 1 as [|c r Hc _ IH]; cbn [split_lines]; [repeat constructor|].
  destruct (c =? nl); [constructor; [constructor|exact IH]|].
  destruct (split_lines r) as [|l ls]; [repeat constructor; exact Hc|].
  apply Forall_cons in IH as [Hl Hls]. constructor; [now constructor|exact Hls].
Qed.

Lemma Forall_join_lines (P : N -> Prop) ls :
  P nl -> Forall (Forall P) ls -> Forall P (join_lines ls).
Proof.
  intros Hnl. induction 1 as [|l ls Hl Hls IH]; cbn [join_lines]; [constructor|].
  destruct ls as [|l' ls']; [exact Hl|].
  apply Forall_app. split; [exact Hl|]. constructor; [exact Hnl|exact IH].
Qed.

Lemma Forall_dedent (P : N -> Prop) text :
  P nl -> Forall P text -> Forall P (dedent text).
Proof.
  intros Hnl Ht. unfold dedent. apply Forall_join_lines; [exact Hnl|].
  apply Forall_forall. intros l Hl.
  apply list_elem_of_In, in_map_iff in Hl as (l0 & <- & Hl0).
  apply Forall_drop.
  apply in_map_iff in Hl0 as (l1 & <- & Hl1).
  destruct (forallb is_blank l1); [constructor|].
  pose proof (Forall_split_lines P text Ht) as Hs.
  rewrite Forall_forall in Hs. apply Hs. now apply list_elem_of_In.
Qed.

Lemma codificavel_dedent text : codificavel text = true -> codificavel (dedent text) = true.
Proof.
  rewrite !codificavel_Forall. apply Forall_dedent. reflexivity.
Qed.

Lemma codificavel_uint_str d : codificavel (uint_str d) = true.
Proof. induction d; cbn [uint_str]; [reflexivity|..]; exact IHd. Qed.

Lemma codificavel_int_repr z : codificavel (int_repr z) = true.
Proof.
  unfold int_repr, int_str, dec. destruct z; apply codificavel_uint_str.
Qed.

Lemma cada_conta_escreve (cs : list conta_dict) : forall w,
  contas_imprimiveis (heap w) cs ->
  exists bloco,
    (fix each (cs : list conta_dict) : M unit :=
       match cs with
       | [] => mret tt
       | conta :: rest =>
           u ← (fun w => match heap w !! usuario conta with
                         | Some u => Ok u w
                         | None => Exc OutOfModel w
                         end);
           let linha :=
             py "            Agência:" ++ [tab] ++ agencia conta ++ [nl]
             ++ py "            C/C:" ++ [tab; tab] ++ int_repr (numero_conta conta) ++ [nl]
             ++ py "            Titular:" ++ [tab] ++ nome u ++ [nl]
             ++ py "        " in
           print (repeat 61 50) ;;
           print (dedent linha) ;;
           each rest
       end) cs w
      = Ok tt (mk_world (stdin w) (stdout w ++ bloco) (files w) (heap w))
    /\ length bloco = (2 * length cs)%nat
    /\ (forall i, (i < length cs)%nat ->
          bloco !! (2 * i)%nat = Some (repeat 61%N 50 ++ [nl])).
Proof.
  unfold contas_imprimiveis. induction cs as [|c cs IH]; intros w Hc.
  - exists []. split; [rewrite app_nil_r; now destruct w|].
    split; [reflexivity|]. intros i Hi. cbn in Hi. lia.
  - apply Forall_cons in Hc as [(Ha & u & Hu & Hn) Hc].
    cbv beta iota fix.
    erewrite bind_eq by (cbv beta; rewrite Hu; reflexivity).
    cbv zeta.
    erewrite bind_eq by (apply print_eq; reflexivity).
    erewrite bind_eq.
    2:{ apply print_eq, codificavel_dedent.
        rewrite !codificavel_app, Ha, Hn, codificavel_int_repr. reflexivity. }
    match goal with |- context [_ cs ?w2] => destruct (IH w2 Hc) as (bloco & E & Hlen & Hsep) end.
    eexists (_ :: _ :: bloco). split; [|split].
    + rewrite E. cbn [write stdin stdout files heap]. rewrite <- !app_assoc. reflexivity.
    + cbn [length]. lia.
    + intros [|i] Hi; [reflexivity|].
      replace (2 * S i)%nat with (S (S (2 * i))) by lia.
      cbn [length] in Hi. apply Hsep. lia.
Qed.

(** X3: when every account has its owner, and the agency of each account
    and the name of its owner are text the console can encode,
    [listar_contas] succeeds and only writes to the console: two chunks
    per account and one more, of which every second one, from the first to
    the last, is the rule of fifty [=] signs; input, files and heap are
    untouched. *)
Theorem listar_contas_escreve (cs : list conta_dict) (w : world) :
  contas_imprimiveis (heap w) cs ->
  exists linhas,
    listar_contas cs w
      = Ok tt (mk_world (stdin w) (stdout w ++ linhas) (files w) (heap w))
    /\ length linhas = (2 * length cs + 1)%nat
    /\ (forall i, (i <= length cs)%nat ->
          linhas !! (2 * i)%nat = Some (repeat 61%N 50 ++ [nl])).
Proof.
  intros Hc. destruct (cada_conta_escreve cs w Hc) as (bloco & E & Hlen & Hsep).
  exists (bloco ++ [repeat 61%N 50 ++ [nl]]). split; [|split].
  - unfold listar_contas. rewrite (bind_eq _ _ _ _ _ E), print_eq by reflexivity.
    cbn [write stdin stdout files heap]. now rewrite app_assoc.
  - rewrite length_app. cbn [length]. lia.
  - intros i Hi. destruct (decide (i = length cs)) as [->|Hne].
    + rewrite <- Hlen. now rewrite list_lookup_middle.
    + rewrite lookup_app_l; [apply Hsep; lia|].
      unfold str in *. lia.
Qed.

Lemma listar_contas_escreve_witness :
  exists linhas,
    listar_contas (contas (fst fim_exemplo)) (snd fim_exemplo)
      = Ok tt (mk_world (stdin (snd fim_exemplo)) (stdout (snd fim_exemplo) ++ linhas)
                 (files (snd fim_exemplo)) (heap (snd fim_exemplo)))
    /\ length linhas = (2 * length (contas (fst fim_exemplo)) + 1)%nat
    /\ (forall i, (i <= length (contas (fst fim_exemplo)))%nat ->
          linhas !! (2 * i)%nat = Some (repeat 61%N 50 ++ [nl])).
Proof.
  apply (listar_contas_escreve (contas (fst fim_exemplo)) (snd fim_exemplo)).
  repeat constructor. eexists. split; vm_compute; reflexivity.
Defined.

(** ** How a turn can fail *)














Lemma filtrar_usuario_total c us w :
  dir_ok (heap w) us -> exists r, filtrar_usuario c us w = Ok r w.
Proof.
  unfold dir_ok. induction us as [|l us IH]; intros Hd; [now exists None|].
  apply Forall_cons in Hd as [[u Hu] Hd]. simpl. rewrite Hu.
  destruct (decide (cpf u = c)); eauto.
Qed.









(** ** Starting again on the files of an earlier run *)

Lemma main_body_gravado py_float s w s' w' :
  main_body py_float s w = Ok (Some s') w' ->
  gravado USUARIOS_FILE (usuarios s) w /\ gravado CONTAS_FILE (contas s) w ->
  gravado USUARIOS_FILE (usuarios s') w' /\ gravado CONTAS_FILE (contas s') w'.
Proof.
  intros H [Hu Hc]. pose proof arquivos_distintos as Hne.
  destruct (main_body_casos _ _ _ _ _ H) as (op & w1 & _ & H1 & F1 & Hcase).
  unfold gravado in *. rewrite <- H1, <- F1 in Hu, Hc. clear H1 F1.
  destruct Hcase as [(_ & _ & (-> & -> & _) & _ & -> & -> & _)|[(_ & E & ->)|(_ & E & ->)]];
    cbn [usuarios contas].
  - auto.
  - apply criar_usuario_casos in E
      as [(-> & -> & -> & _)
         |(c & n & d & e & l & j & _ & _ & _ & -> & Hl & Hh & Ej & ->)]; [auto|].
    split; [right; exists j; split; [exact Ej|apply lookup_insert_eq]|].
    rewrite lookup_insert_ne by exact Hne.
    destruct Hc as [Hc|(jc & Ejc & Hf)]; [now left|right].
    exists jc. split; [|exact Hf]. rewrite Hh. now apply to_json_contas_insert.
  - apply criar_conta_casos in E
      as (-> & c & _ & [(-> & -> & _)|(l & u & j & _ & _ & _ & -> & Ej & ->)]); [auto|].
    split; [|right; exists j; split; [exact Ej|apply lookup_insert_eq]].
    rewrite lookup_insert_ne by congruence. exact Hu.
Qed.

Lemma to_json_contas_forma h cs :
  contas_ok h cs ->
  exists rs, Forall2 (fun c r => h !! usuario c = Some r) cs rs
             /\ to_json h cs = Some (JArr (zip_with json_of_conta cs rs)).
Proof.
  unfold contas_ok. intros Hc.
  assert (exists rs, Forall2 (fun c r => h !! usuario c = Some r) cs rs
            /\ mapM (to_json h) cs = Some (zip_with json_of_conta cs rs))
    as (rs & HF & E).
  { induction cs as [|c cs IH]; [exists []; split; [constructor|reflexivity]|].
    apply Forall_cons in Hc as [[u Hu] Hc]. destruct (IH Hc) as (rs & HF & E).
    exists (u :: rs). split; [now constructor|].
    cbn [mapM zip_with]. rewrite E, (to_json_conta_eq h c u Hu). reflexivity. }
  exists rs. split; [exact HF|]. unfold to_json, list_ToJson. now rewrite E.
Qed.

Lemma json_of_conta_ok c u :
  str_ok (agencia c) = true -> usuario_ok u = true ->
  json_ok (json_of_conta c u) = true.
Proof.
  intros Ha Hu. unfold json_of_conta. cbn [json_ok map fst forallb].
  rewrite Ha, (json_of_usuario_ok u Hu). vm_compute. reflexivity.
Qed.

Lemma fresco (h : gmap loc usuario_dict) : h !! fresh (dom h) = None.
Proof. apply not_elem_of_dom, is_fresh. Qed.

Lemma novo_usuario_eq r w :
  novo_usuario (json_of_usuario r) w
  = Ok (fresh (dom (heap w)))
       (mk_world (stdin w) (stdout w) (files w) (<[fresh (dom (heap w)) := r]> (heap w))).
Proof. unfold novo_usuario. now rewrite usuario_of_json_of_usuario. Qed.

Lemma nova_conta_eq c r w :
  nova_conta (json_of_conta c r) w
  = Ok (mk_conta (agencia c) (numero_conta c) (fresh (dom (heap w))))
       (mk_world (stdin w) (stdout w) (files w) (<[fresh (dom (heap w)) := r]> (heap w))).
Proof.
  unfold nova_conta, json_of_conta. cbv beta iota.
  match goal with
  | |- context [decide ?P] => destruct (decide P) as [_|n]; [|exfalso; apply n; now repeat split]
  end.
  rewrite (bind_eq _ _ _ _ _ (novo_usuario_eq r w)). reflexivity.
Qed.

Lemma cada_novo_usuario rs : forall w,
  exists us w',
    cada novo_usuario (map json_of_usuario rs) w = Ok us w'
    /\ Forall2 (fun l r => heap w' !! l = Some r) us rs
    /\ Forall (fun l => heap w !! l = None) us
    /\ heap w ⊆ heap w'
    /\ stdin w' = stdin w /\ stdout w' = stdout w /\ files w' = files w.
Proof.
  induction rs as [|r rs IH]; intros w.
  - exists [], w. repeat split; auto; constructor.
  - pose proof (fresco (heap w)) as Hl.
    destruct (IH (mk_world (stdin w) (stdout w) (files w)
                    (<[fresh (dom (heap w)) := r]> (heap w))))
      as (us & w' & E & HF & Hn & Hs & I & O & F).
    cbn [heap stdin stdout files] in *.
    exists (fresh (dom (heap w)) :: us), w'. split; [|split; [|split; [|split]]].
    + cbn [map cada]. rewrite (bind_eq _ _ _ _ _ (novo_usuario_eq r w)).
      rewrite (bind_eq _ _ _ _ _ E). reflexivity.
    + constructor; [|exact HF]. eapply lookup_weaken; [|exact Hs]. apply lookup_insert_eq.
    + constructor; [exact Hl|]. eapply Forall_impl; [exact Hn|].
      intros l' Hl'. cbn beta in Hl'.
      eapply lookup_weaken_None; [exact Hl'|]. now apply insert_subseteq.
    + etrans; [|exact Hs]. now apply insert_subseteq.
    + auto.
Qed.

Lemma cada_nova_conta cs : forall rs w,
  length cs = length rs ->
  exists cs2 w',
    cada nova_conta (zip_with json_of_conta cs rs) w = Ok cs2 w'
    /\ Forall2 (fun c2 c => agencia c2 = agencia c /\ numero_conta c2 = numero_conta c)
         cs2 cs
    /\ Forall2 (fun c2 r => heap w' !! usuario c2 = Some r) cs2 rs
    /\ Forall (fun c2 => heap w !! usuario c2 = None) cs2
    /\ heap w ⊆ heap w'
    /\ stdin w' = stdin w /\ stdout w' = stdout w /\ files w' = files w.
Proof.
  induction cs as [|c cs IH]; intros [|r rs] w Hlen; try discriminate Hlen.
  - exists [], w. repeat split; auto; constructor.
  - pose proof (fresco (heap w)) as Hl. injection Hlen as Hlen.
    destruct (IH rs (mk_world (stdin w) (stdout w) (files w)
                       (<[fresh (dom (heap w)) := r]> (heap w))) Hlen)
      as (cs2 & w' & E & HF & HF2 & Hn & Hs & I & O & F).
    cbn [heap stdin stdout files] in *.
    exists (mk_conta (agencia c) (numero_conta c) (fresh (dom (heap w))) :: cs2), w'.
    split; [|split; [|split; [|split; [|split]]]].
    + cbn [zip_with cada]. rewrite (bind_eq _ _ _ _ _ (nova_conta_eq c r w)).
      rewrite (bind_eq _ _ _ _ _ E). reflexivity.
    + constructor; [now split|exact HF].
    + constructor; [|exact HF2]. cbn [usuario].
      eapply lookup_weaken; [|exact Hs]. apply lookup_insert_eq.
    + constructor; [exact Hl|]. eapply Forall_impl; [exact Hn|].
      intros c' Hc'. cbn beta in Hc'.
      eapply lookup_weaken_None; [exact Hc'|]. now apply insert_subseteq.
    + etrans; [|exact Hs]. now apply insert_subseteq.
    + auto.
Qed.

Lemma carregar_gravado `{ToJson A} arquivo (dados : list A) w w2 js :
  to_json (heap w) dados = Some (JArr js) -> forallb json_ok js = true ->
  gravado arquivo dados w -> files w2 = files w ->
  carregar_dados arquivo w2 = Ok (JArr js) w2.
Proof.
  intros Ej Hok Hg Hf. unfold carregar_dados. rewrite Hf.
  destruct Hg as [[-> ->]|(j & Ej' & ->)].
  - cbn in Ej. injection Ej as <-. reflexivity.
  - rewrite Ej in Ej'. injection Ej' as <-.
    now rewrite (json_loads_dumps (JArr js) Hok).
Qed.


(** What the start of [main] makes of such files. *)
Lemma recarrega (s : sessao) (w w2 : world) :
  map_Forall (fun _ u => usuario_ok u = true) (heap w) ->
  dir_ok (heap w) (usuarios s) -> contas_ok (heap w) (contas s) ->
  contas_em_ordem (contas s) ->
  gravado USUARIOS_FILE (usuarios s) w -> gravado CONTAS_FILE (contas s) w ->
  files w2 = files w ->
  exists us2 cs2 w3,
    (ju ← carregar_dados USUARIOS_FILE;
     jc ← carregar_dados CONTAS_FILE;
     us ← usuarios_of_json ju;
     cs ← contas_of_json jc;
     mret (us, cs)) w2 = Ok (us2, cs2) w3
    /\ stdin w3 = stdin w2 /\ stdout w3 = stdout w2 /\ files w3 = files w2
    /\ Forall2 (fun l2 l => heap w3 !! l2 = heap w !! l) us2 (usuarios s)
    /\ Forall2 (fun c2 c => agencia c2 = agencia c /\ numero_conta c2 = numero_conta c
                            /\ heap w3 !! usuario c2 = heap w !! usuario c)
         cs2 (contas s)
    /\ Forall (fun c2 => usuario c2 ∉ us2) cs2
    /\ dir_ok (heap w3) us2 /\ contas_ok (heap w3) cs2.
Proof.
  intros Hh Hd Hc Ho Hgu Hgc Hf.
  destruct (to_json_usuarios _ _ Hd) as (rs & HFu & Eju).
  destruct (to_json_contas_forma _ _ Hc) as (rc & HFc & Ejc).
  assert (forallb json_ok (map json_of_usuario rs) = true) as Hoku.
  { apply forallb_forall. intros j Hj. apply in_map_iff in Hj as (r & <- & Hr).
    apply json_of_usuario_ok. apply list_elem_of_In in Hr.
    apply list_elem_of_lookup in Hr as [i Hi].
    destruct (Forall2_lookup_r _ _ _ _ _ HFu Hi) as (l & _ & Hl). exact (Hh l r Hl). }
  assert (forallb json_ok (zip_with json_of_conta (contas s) rc) = true) as Hokc.
  { apply forallb_forall. intros j Hj. apply list_elem_of_In in Hj.
    apply list_elem_of_lookup in Hj as [i Hi].
    apply lookup_zip_with_Some in Hi as (c & r & -> & Hci & Hri).
    apply json_of_conta_ok.
    - destruct (Ho i c Hci) as [_ ->]. vm_compute. reflexivity.
    - destruct (Forall2_lookup_r _ _ _ _ _ HFc Hri) as (c' & Hc' & Hl).
      exact (Hh _ _ Hl). }
  pose proof (carregar_gravado _ _ _ w2 _ Eju Hoku Hgu Hf) as E1.
  pose proof (carregar_gravado _ _ _ w2 _ Ejc Hokc Hgc Hf) as E3.
  destruct (cada_novo_usuario rs w2) as (us2 & w3 & E2 & HF2 & _ & Hs2 & I2 & O2 & F2).
  destruct (cada_nova_conta (contas s) rc w3 (Forall2_length _ _ _ HFc))
    as (cs2 & w4 & E4 & HF4 & HF4' & Hn4 & Hs4 & I4 & O4 & F4).
  exists us2, cs2, w4.
  split; [|split; [|split; [|split; [|split; [|split; [|split; [|split]]]]]]].
  - rewrite (bind_eq _ _ _ _ _ E1), (bind_eq _ _ _ _ _ E3).
    rewrite (bind_eq (usuarios_of_json (JArr _)) _ _ _ _ E2).
    rewrite (bind_eq (contas_of_json (JArr _)) _ _ _ _ E4). reflexivity.
  - congruence.
  - congruence.
  - congruence.
  - apply Forall2_same_length_lookup. split.
    + rewrite (Forall2_length _ _ _ HF2). symmetry. exact (Forall2_length _ _ _ HFu).
    + intros i l2 l Hi2 Hi.
      destruct (Forall2_lookup_l _ _ _ _ _ HF2 Hi2) as (r & Hr & E).
      destruct (Forall2_lookup_l _ _ _ _ _ HFu Hi) as (r' & Hr' & E').
      rewrite E'. eapply lookup_weaken; [|exact Hs4]. congruence.
  - apply Forall2_same_length_lookup. split; [exact (Forall2_length _ _ _ HF4)|].
    intros i c2 c Hi2 Hi.
    destruct (Forall2_lookup_lr _ _ _ _ _ _ HF4 Hi2 Hi) as [Eag En].
    split; [exact Eag|]. split; [exact En|].
    destruct (Forall2_lookup_l _ _ _ _ _ HF4' Hi2) as (r & Hr & E).
    destruct (Forall2_lookup_l _ _ _ _ _ HFc Hi) as (r' & Hr' & E').
    congruence.
  - eapply Forall_impl; [exact Hn4|]. intros c2 Hn Hin. cbn beta in Hn.
    apply list_elem_of_lookup in Hin as [i Hi].
    destruct (Forall2_lookup_l _ _ _ _ _ HF2 Hi) as (r & _ & E). congruence.
  - apply Forall_forall. intros l2 Hl2. apply list_elem_of_lookup in Hl2 as [i Hi].
    destruct (Forall2_lookup_l _ _ _ _ _ HF2 Hi) as (r & _ & E).
    exists r. eapply lookup_weaken; [exact E|exact Hs4].
  - apply Forall_forall. intros c2 Hc2. apply list_elem_of_lookup in Hc2 as [i Hi].
    destruct (Forall2_lookup_l _ _ _ _ _ HF4' Hi) as (r & _ & E). eauto.
Qed.

(** X17: a new start of [main] on the files an earlier run has left
    (a run that began sound and with its files holding its directories)
    enters the loop with the same users and accounts, field by field and
    in order, without reading or writing the console or the files.  The
    owner of each account loaded is a dictionary of its own, no longer
    one of the user directory. *)
Theorem main_recomeca py_float s0 w0 s w (w2 : world) :
  alcanca py_float s0 w0 s w ->
  sessao_ok s0 w0 -> contas_em_ordem (contas s0) ->
  gravado USUARIOS_FILE (usuarios s0) w0 -> gravado CONTAS_FILE (contas s0) w0 ->
  files w2 = files w ->
  exists us2 cs2 w3,
    main py_float w2
      = main_loop py_float (S (length (stdin w3))) (sessao_inicial us2 cs2) w3
    /\ stdin w3 = stdin w2 /\ stdout w3 = stdout w2 /\ files w3 = files w2
    /\ Forall2 (fun l2 l => heap w3 !! l2 = heap w !! l) us2 (usuarios s)
    /\ Forall2 (fun c2 c => agencia c2 = agencia c /\ numero_conta c2 = numero_conta c
                            /\ heap w3 !! usuario c2 = heap w !! usuario c)
         cs2 (contas s)
    /\ Forall (fun c2 => usuario c2 ∉ us2) cs2.
Proof.
  intros Ha H0 Ho0 Hgu0 Hgc0 Hf.
  assert (sessao_ok s w /\ contas_em_ordem (contas s)
          /\ gravado USUARIOS_FILE (usuarios s) w /\ gravado CONTAS_FILE (contas s) w)
    as ((_ & Hh & Hd & Hc) & Ho & Hgu & Hgc).
  { clear Hf. induction Ha as [|s w s1 w1 _ IH Hstep]; [auto|].
    destruct IH as (I1 & I2 & I3 & I4).
    split; [exact (main_body_sessao_ok _ _ _ _ _ Hstep I1)|].
    split; [exact (main_body_contas _ _ _ _ _ Hstep I2)|].
    exact (main_body_gravado _ _ _ _ _ Hstep (conj I3 I4)). }
  destruct (recarrega s w w2 Hh Hd Hc Ho Hgu Hgc Hf)
    as (us2 & cs2 & w3 & E & I & O & F & H1 & H2 & H3 & _).
  exists us2, cs2, w3. split; [|auto 10].
  unfold main. rewrite E. reflexivity.
Qed.

Lemma main_recomeca_witness :
  exists us2 cs2 w3,
    main float_exemplo mundo_reinicio
      = main_loop float_exemplo (S (length (stdin w3))) (sessao_inicial us2 cs2) w3
    /\ stdin w3 = stdin mundo_reinicio /\ stdout w3 = stdout mundo_reinicio
    /\ files w3 = files mundo_reinicio
    /\ Forall2 (fun l2 l => heap w3 !! l2 = heap (snd fim_exemplo) !! l)
         us2 (usuarios (fst fim_exemplo))
    /\ Forall2 (fun c2 c => agencia c2 = agencia c /\ numero_conta c2 = numero_conta c
                            /\ heap w3 !! usuario c2
                               = heap (snd fim_exemplo) !! usuario c)
         cs2 (contas (fst fim_exemplo))
    /\ Forall (fun c2 => usuario c2 ∉ us2) cs2.
Proof.
  apply (main_recomeca float_exemplo (sessao_inicial [] []) mundo_exemplo
           (fst fim_exemplo) (snd fim_exemplo) mundo_reinicio alcanca_exemplo).
  - apply sessao_ok_vazia; [reflexivity|]. repeat constructor.
  - intros i c Hi. discriminate Hi.
  - left. split; reflexivity.
  - left. split; reflexivity.
  - reflexivity.
Defined.

(** ** How [main] ends *)

Lemma main_body_sai py_float s w w' :
  main_body py_float s w = Ok None w' ->
  stdin w = py "q" :: stdin w'
  /\ exists tela, stdout w' = tela ++ [py "Saindo do sistema. Até mais!" ++ [nl]].
Proof.
  intros H. unfold main_body, menu in H.
  apply bind_Ok in H as (op & w1 & E1 & H). apply input_inv in E1 as (I1 & _ & _).
  assert (forall m : M (option sessao),
            quadro m (fun r => r <> None) -> m w1 = Ok None w' -> False) as Hnao.
  { intros m Hm E. destruct (Hm _ _ _ E) as (_ & _ & _ & _ & Hr). now apply Hr. }
  assert (quadro (mret (Some s) : M (option sessao)) (fun r => r <> None)) as Hsame.
  { now apply quadro_ret. }
  destruct (decide (op = py "d")) as [_|_].
  { exfalso. refine (Hnao _ _ H).
    apply (quadro_bind _ _ (fun _ => True)); [apply quadro_input|intros text _].
    eapply quadro_bind; [apply quadro_validar|intros valor _].
    destruct valor as [v|]; [|exact Hsame].
    destruct (truthy (Some v)); [|exact Hsame].
    eapply quadro_bind; [apply quadro_depositar|intros [sd ex] _].
    now apply quadro_ret. }
  destruct (decide (op = py "s")) as [_|_].
  { exfalso. refine (Hnao _ _ H).
    apply (quadro_bind _ _ (fun _ => True)); [apply quadro_input|intros text _].
    eapply quadro_bind; [apply quadro_validar|intros valor _].
    destruct valor as [v|]; [|exact Hsame].
    destruct (truthy (Some v)); [|exact Hsame].
    eapply quadro_bind; [apply quadro_sacar|intros [[sd ex] n] _].
    now apply quadro_ret. }
  destruct (decide (op = py "e")) as [_|_].
  { exfalso. refine (Hnao _ _ H).
    apply (quadro_bind _ _ (fun _ => True)); [apply quadro_extrato|intros ? _].
    exact Hsame. }
  destruct (decide (op = py "nu")) as [_|_].
  { apply bind_Ok in H as (us' & w2 & _ & H). apply Ok_inj in H as [[=] _]. }
  destruct (decide (op = py "nc")) as [_|_].
  { apply bind_Ok in H as (cs' & w2 & _ & H). apply Ok_inj in H as [[=] _]. }
  destruct (decide (op = py "lc")) as [_|_].
  { exfalso. refine (Hnao _ _ H).
    apply (quadro_bind _ _ (fun _ => True)); [apply quadro_listar|intros ? _].
    exact Hsame. }
  destruct (decide (op = py "q")) as [->|_].
  { apply bind_Ok in H as (? & w2 & E & H). apply Ok_inj in E as [_ <-].
    apply Ok_inj in H as [_ <-]. split; [exact I1|]. now exists (stdout w1). }
  exfalso. refine (Hnao _ _ H).
  apply (quadro_bind _ _ (fun _ => True)); [apply quadro_print|intros ? _].
  exact Hsame.
Qed.

Lemma main_body_sufixo py_float s w s' w' :
  main_body py_float s w = Ok (Some s') w' ->
  exists lidas, stdin w = lidas ++ stdin w'.
Proof.
  intros H.
  destruct (main_body_casos _ _ _ _ _ H) as (op & w1 & I1 & _ & _ & Hc).
  destruct Hc as [(_ & _ & _ & [lidas Hl] & _)|[(_ & E & _)|(_ & E & _)]].
  - exists (op :: lidas). rewrite I1, Hl. reflexivity.
  - apply criar_usuario_casos in E
      as [(_ & _ & _ & c & Hs & _)|(c & n & d & e & l & j & Hs & _)].
    + exists [op; c]. now rewrite I1, Hs.
    + exists [op; c; n; d; e]. now rewrite I1, Hs.
  - apply criar_conta_casos in E as (_ & c & Hs & _).
    exists [op; c]. now rewrite I1, Hs.
Qed.

Lemma main_loop_sai py_float fuel : forall s w w',
  main_loop py_float fuel s w = Some (Ok tt w') ->
  (exists antes, stdin w = antes ++ py "q" :: stdin w')
  /\ exists tela, stdout w' = tela ++ [py "Saindo do sistema. Até mais!" ++ [nl]].
Proof.
  induction fuel as [|n IH]; intros s w w' H; [discriminate|].
  simpl in H. destruct (main_body py_float s w) as [[s1|] w1|e w1] eqn:E.
  - destruct (IH _ _ _ H) as ([antes Ha] & Ht). split; [|exact Ht].
    destruct (main_body_sufixo _ _ _ _ _ E) as [lidas Hl].
    exists (lidas ++ antes). rewrite Hl, Ha. now rewrite app_assoc.
  - injection H as <-. destruct (main_body_sai _ _ _ _ E) as [Hq Ht].
    split; [now exists []|exact Ht].
  - discriminate.
Qed.

Lemma cada_inv {A B X} (f : A -> M B) (proj : world -> X) :
  (forall x w y w', f x w = Ok y w' -> proj w' = proj w) ->
  forall l w ys w', cada f l w = Ok ys w' -> proj w' = proj w.
Proof.
  intros Hf. induction l as [|x l IH]; intros w ys w' H; simpl in H.
  - now apply Ok_inj in H as [_ <-].
  - apply bind_Ok in H as (y & w1 & E1 & H). apply bind_Ok in H as (r & w2 & E2 & H).
    apply Ok_inj in H as [_ <-]. rewrite (IH _ _ _ E2). eauto.
Qed.

Lemma novo_usuario_inv j w l w' :
  novo_usuario j w = Ok l w' ->
  (stdin w', stdout w', files w') = (stdin w, stdout w, files w).
Proof.
  unfold novo_usuario. destruct (usuario_of_json j); [|discriminate].
  rewrite alloc_eq. now intros [= _ <-].
Qed.

Lemma nova_conta_inv j w c w' :
  nova_conta j w = Ok c w' ->
  (stdin w', stdout w', files w') = (stdin w, stdout w, files w).
Proof.
  unfold nova_conta. intros H.
  repeat match type of H with
         | match ?x with _ => _ end _ = Ok _ _ => destruct x; try discriminate H
         end.
  apply bind_Ok in H as (l & w1 & E & H). apply Ok_inj in H as [_ <-].
  exact (novo_usuario_inv _ _ _ _ E).
Qed.

Lemma usuarios_of_json_inv j w us w' :
  usuarios_of_json j w = Ok us w' ->
  stdin w' = stdin w /\ stdout w' = stdout w /\ files w' = files w.
Proof.
  intros H. destruct j; try discriminate H.
  pose proof (cada_inv _ (fun w => (stdin w, stdout w, files w))
                novo_usuario_inv _ _ _ _ H) as E.
  cbv beta in E. now injection E.
Qed.

Lemma contas_of_json_inv j w cs w' :
  contas_of_json j w = Ok cs w' ->
  stdin w' = stdin w /\ stdout w' = stdout w /\ files w' = files w.
Proof.
  intros H. destruct j; try discriminate H.
  pose proof (cada_inv _ (fun w => (stdin w, stdout w, files w))
                nova_conta_inv _ _ _ _ H) as E.
  cbv beta in E. now injection E.
Qed.

Lemma carregar_dados_inv arquivo w j w' : carregar_dados arquivo w = Ok j w' -> w' = w.
Proof.
  unfold carregar_dados.
  destruct (files w !! arquivo) as [t|]; [destruct (json_loads t)|];
    try discriminate; now intros [= _ <-].
Qed.



Lemma inicio_entrada (w : world) us cs w1 :
  (ju ← carregar_dados USUARIOS_FILE;
   jc ← carregar_dados CONTAS_FILE;
   us ← usuarios_of_json ju;
   cs ← contas_of_json jc;
   mret (us, cs)) w = Ok (us, cs) w1 ->
  stdin w1 = stdin w /\ stdout w1 = stdout w /\ files w1 = files w.
Proof.
  intros E.
  apply bind_Ok in E as (ju & w2 & E1 & E). apply carregar_dados_inv in E1 as ->.
  apply bind_Ok in E as (jc & w3 & E2 & E). apply carregar_dados_inv in E2 as ->.
  apply bind_Ok in E as (us' & w4 & E3 & E).
  apply bind_Ok in E as (cs' & w5 & E4 & E). apply Ok_inj in E as [_ <-].
  apply usuarios_of_json_inv in E3 as (I3 & O3 & F3).
  apply contas_of_json_inv in E4 as (I4 & O4 & F4). repeat split; congruence.
Qed.

(** X14: started on files the program itself has left, or on none, [main]
    returns normally only after the line [q] was read: the input left is
    what follows that line, and the last thing written is the farewell. *)
Theorem main_sai_com_q py_float (w w' : world) :
  arquivos_do_programa w ->
  main py_float w = Some (Ok tt w') ->
  (exists antes, stdin w = antes ++ py "q" :: stdin w')
  /\ exists tela, stdout w' = tela ++ [py "Saindo do sistema. Até mais!" ++ [nl]].
Proof.
  intros _. unfold main. intros H.
  match type of H with
  | match ?m with _ => _ end = _ => destruct m as [[us cs] w1|e w1] eqn:E
  end; [|discriminate].
  apply main_loop_sai in H. apply inicio_entrada in E as (<- & _). exact H.
Qed.

Lemma arquivos_do_programa_vazio (w : world) :
  files w !! USUARIOS_FILE = None -> files w !! CONTAS_FILE = None ->
  arquivos_do_programa w.
Proof.
  intros Hu Hc. exists (sessao_inicial [] []), (mk_world [] [] (files w) ∅).
  split; [reflexivity|]. split; [apply map_Forall_empty|].
  split; [constructor|]. split; [constructor|].
  split; [intros i c Hi; discriminate Hi|]. split; now left.
Qed.

Lemma main_sai_com_q_witness :
  (exists antes, stdin mundo_exemplo = antes ++ py "q" :: stdin saida_exemplo)
  /\ exists tela, stdout saida_exemplo = tela ++ [py "Saindo do sistema. Até mais!" ++ [nl]].
Proof.
  apply (main_sai_com_q float_exemplo mundo_exemplo saida_exemplo).
  - apply arquivos_do_programa_vazio; reflexivity.
  - vm_compute. reflexivity.
Defined.




(** ** An account for the user just registered *)

(** X2: when [criar_usuario] has just registered a new user and the same
    CPF is typed in next, [criar_conta] finds that user: the account it
    appends holds the very dictionary that was appended to the user
    directory, and that dictionary carries the CPF. *)
Theorem criar_conta_apos_criar_usuario (us us' : list loc) (w w1 : world)
    (c : str) (r1 r2 : list str) (ag : str) (n : Z) (cs : list conta_dict) :
  stdin w = c :: r1 ->
  criar_usuario us w = Ok us' w1 -> us' <> us ->
  stdin w1 = c :: r2 ->
  contas_ok (heap w) cs ->
  exists l u w2,
    us' = us ++ [l]
    /\ criar_conta ag n us' cs w1 = Ok (cs ++ [mk_conta ag n l]) w2
    /\ heap w2 !! l = Some u /\ cpf u = c /\ stdin w2 = r2.
Proof.
  intros Hin E Hne Hin1 Hc.
  apply criar_usuario_casos in E
    as [(-> & _)|(c' & nm & d & e & l & j & Hs & Hd & Hn & -> & Hl & Hh & Ej & Hf)];
    [now destruct Hne|].
  rewrite Hin in Hs. injection Hs as <- _.
  assert (dir_ok (heap w1) (us ++ [l])) as Hd1.
  { rewrite Hh. now apply dir_ok_insert. }
  assert (heap w1 !! l = Some (mk_usuario nm d c e)) as Hu1.
  { rewrite Hh. apply lookup_insert_eq. }
  assert (filtrar_usuario c (us ++ [l])
            (mk_world r2 (stdout w1 ++ [py "Informe o CPF do usuário: "])
               (files w1) (heap w1))
          = Ok (Some l) (mk_world r2 (stdout w1 ++ [py "Informe o CPF do usuário: "])
                           (files w1) (heap w1))) as Ef.
  { match goal with |- filtrar_usuario _ _ ?w3 = _ => set (w3' := w3) end.
    destruct (filtrar_usuario_total c (us ++ [l]) w3' Hd1) as [[l'|] Er].
    - destruct (filtrar_usuario_Some_inv _ _ _ _ _ Er) as (_ & Hin' & u & Hu & Hcpf).
      rewrite Er. apply elem_of_app in Hin' as [Hin'|Hin'%list_elem_of_singleton];
        [|now rewrite Hin'].
      exfalso. apply Hn. apply Exists_exists. exists l'. split; [exact Hin'|].
      exists u. split; [|exact Hcpf].
      cbn [w3' heap] in Hu. rewrite Hh in Hu.
      rewrite lookup_insert_ne in Hu; [exact Hu|]. intros <-.
      unfold dir_ok in Hd. rewrite Forall_forall in Hd.
      destruct (Hd _ Hin') as [? ?]. congruence.
    - destruct (filtrar_usuario_None_inv _ _ _ _ Er) as (_ & _ & Hnone).
      exfalso. apply Hnone. apply Exists_exists. exists l.
      split; [apply elem_of_app; right; apply list_elem_of_here|].
      exists (mk_usuario nm d c e). split; [exact Hu1|reflexivity]. }
  destruct (to_json_contas (heap w1) (cs ++ [mk_conta ag n l])) as [jc Ejc].
  { apply contas_ok_app; [rewrite Hh; now apply contas_ok_insert|]. cbn. eauto. }
  eexists l, _, _. split; [reflexivity|]. split; [|split; [|split]].
  - unfold criar_conta. erewrite bind_eq by (apply input_eq; [exact Hin1|vm_compute; reflexivity]).
    rewrite (bind_eq _ _ _ _ _ Ef). cbv zeta.
    erewrite bind_eq by (apply salvar_dados_eq; exact Ejc).
    erewrite bind_eq by (apply print_eq; reflexivity). reflexivity.
  - exact Hu1.
  - reflexivity.
  - reflexivity.
Qed.

Lemma criar_conta_apos_criar_usuario_witness :
  exists l u w2,
    fst apos_cadastro = [] ++ [l]
    /\ criar_conta AGENCIA 1 (fst apos_cadastro) [] (snd apos_cadastro)
       = Ok ([] ++ [mk_conta AGENCIA 1 l]) w2
    /\ heap w2 !! l = Some u /\ cpf u = py "123" /\ stdin w2 = [].
Proof.
  apply (criar_conta_apos_criar_usuario [] (fst apos_cadastro) mundo_cadastro
           (snd apos_cadastro) (py "123") [py "Ana"; py "01-01-2000"; py "Rua A"; py "123"]
           [] AGENCIA 1 []).
  - reflexivity.
  - vm_compute. reflexivity.
  - discriminate.
  - reflexivity.
  - constructor.
Defined.

(** ** Witnesses on the sample session *)

Lemma filtrar_usuario_primeiro_witness :
  (filtrar_usuario (py "123") (usuarios (fst fim_exemplo)) (snd fim_exemplo)
     = Ok None (snd fim_exemplo)
   /\ ~ tem_cpf (heap (snd fim_exemplo)) (usuarios (fst fim_exemplo)) (py "123"))
  \/ (exists antes l depois u,
        usuarios (fst fim_exemplo) = antes ++ l :: depois
        /\ filtrar_usuario (py "123") (usuarios (fst fim_exemplo)) (snd fim_exemplo)
           = Ok (Some l) (snd fim_exemplo)
        /\ heap (snd fim_exemplo) !! l = Some u /\ cpf u = py "123"
        /\ ~ tem_cpf (heap (snd fim_exemplo)) antes (py "123")).
Proof.
  apply (filtrar_usuario_primeiro (py "123") (usuarios (fst fim_exemplo)) (snd fim_exemplo)).
  repeat constructor. vm_compute. eauto.
Defined.

Lemma main_ledger_ok_witness :
  ledger_ok (saldo (fst fim_exemplo)) (numero_saques (fst fim_exemplo))
  /\ limite (fst fim_exemplo) = 500%float.
Proof.
  exact (main_ledger_ok float_exemplo [] [] mundo_exemplo
           (fst fim_exemplo) (snd fim_exemplo) alcanca_exemplo).
Defined.

(** ** Files that do not decode *)




















(** ** The statement and the balance *)

Lemma lancado_mesmo movs s s2 :
  lancado movs s ->
  saldo s2 = saldo s -> extrato s2 = extrato s -> numero_saques s2 = numero_saques s ->
  exists novo, lancado (movs ++ novo) s2.
Proof.
  intros (H1 & H2 & H3 & H4) E1 E2 E3. exists []. rewrite app_nil_r.
  unfold lancado. rewrite E1, E2, E3. auto.
Qed.

Lemma lancado_mais movs s o s2 :
  lancado movs s -> gt (valor_de o) 0 = true ->
  saldo s2 = aplicar (saldo s) o -> extrato s2 = extrato s ++ linha_de o ->
  numero_saques s2 = (numero_saques s + if eh_saque o then 1 else 0)%Z ->
  exists novo, lancado (movs ++ novo) s2.
Proof.
  intros (H1 & H2 & H3 & H4) Hv E1 E2 E3. exists [o]. unfold lancado.
  rewrite E1, E2, E3, H1, H2, H3. split; [|split; [|split]].
  - rewrite map_app, concat_app. cbn [map concat]. now rewrite app_nil_r.
  - now rewrite fold_left_app.
  - rewrite List.filter_app, length_app. cbn [List.filter].
    destruct (eh_saque o); cbn [length]; lia.
  - apply Forall_app. split; [exact H4|]. now repeat constructor.
Qed.

Lemma main_body_lancado py_float s w s' w' movs :
  main_body py_float s w = Ok (Some s') w' ->
  lancado movs s -> exists novo, lancado (movs ++ novo) s'.
Proof.
  intros H Hl. unfold main_body, menu in H.
  apply bind_Ok in H as (op & w1 & _ & H).
  set (Q := fun r : option sessao => forall s2, r = Some s2 ->
              exists novo, lancado (movs ++ novo) s2).
  assert (forall m : M (option sessao), quadro m Q -> m w1 = Ok (Some s') w' ->
            exists novo, lancado (movs ++ novo) s') as Hcons.
  { intros m Hm E. destruct (Hm _ _ _ E) as (_ & _ & _ & _ & Hs). now apply Hs. }
  assert (quadro (mret (Some s) : M (option sessao)) Q) as Hsame.
  { apply quadro_ret. intros s2 [= <-]. now apply (lancado_mesmo movs s). }
  destruct (decide (op = py "d")) as [_|_].
  { refine (Hcons _ _ H).
    apply (quadro_bind _ _ (fun _ => True)); [apply quadro_input|intros text _].
    eapply quadro_bind; [apply quadro_validar|intros valor Hv].
    destruct valor as [v|]; [|exact Hsame].
    destruct (truthy (Some v)); [|exact Hsame].
    eapply quadro_bind; [apply quadro_depositar|intros [sd ex] [= -> ->]].
    apply quadro_ret. intros s2 [= <-].
    apply (lancado_mais movs s (Deposito v)); auto. cbn. lia. }
  destruct (decide (op = py "s")) as [_|_].
  { refine (Hcons _ _ H).
    apply (quadro_bind _ _ (fun _ => True)); [apply quadro_input|intros text _].
    eapply quadro_bind; [apply quadro_validar|intros valor Hv].
    destruct valor as [v|]; [|exact Hsame].
    destruct (truthy (Some v)); [|exact Hsame].
    eapply quadro_bind; [apply quadro_sacar|intros [[sd ex] n] Hr].
    apply quadro_ret. intros s2 [= <-].
    destruct Hr as [[= -> -> ->]|([= -> -> ->] & _)].
    - now apply (lancado_mesmo movs s).
    - apply (lancado_mais movs s (Saque v)); auto. }
  destruct (decide (op = py "e")) as [_|_].
  { refine (Hcons _ _ H).
    apply (quadro_bind _ _ (fun _ => True)); [apply quadro_extrato|intros ? _].
    exact Hsame. }
  destruct (decide (op = py "nu")) as [_|_].
  { apply bind_Ok in H as (us' & w2 & _ & H). apply Ok_inj in H as [[= <-] _].
    now apply (lancado_mesmo movs s). }
  destruct (decide (op = py "nc")) as [_|_].
  { apply bind_Ok in H as (cs' & w2 & _ & H). apply Ok_inj in H as [[= <-] _].
    now apply (lancado_mesmo movs s). }
  refine (Hcons _ _ H).
  destruct (decide (op = py "lc")) as [_|_].
  { apply (quadro_bind _ _ (fun _ => True)); [apply quadro_listar|intros ? _].
    exact Hsame. }
  destruct (decide (op = py "q")) as [_|_].
  { apply (quadro_bind _ _ (fun _ => True)); [apply quadro_print|intros ? _].
    apply quadro_ret. discriminate. }
  apply (quadro_bind _ _ (fun _ => True)); [apply quadro_print|intros ? _].
  exact Hsame.
Qed.

(** X11: along every run of [main], the ledger is the one a sequence of
    movements with positive amounts makes from the empty ledger: the
    statement consists of their lines in order, the balance is their
    running total, and the count is the number of withdrawals among
    them. *)
Theorem main_extrato_confere py_float us cs w0 s w :
  alcanca py_float (sessao_inicial us cs) w0 s w ->
  exists movs, lancado movs s.
Proof.
  induction 1 as [|s w s' w' _ [movs IH] Hstep].
  - exists []. repeat split. constructor.
  - destruct (main_body_lancado _ _ _ _ _ movs Hstep IH) as [novo Hn]. eauto.
Qed.

Lemma main_extrato_confere_witness : exists movs, lancado movs (fst fim_exemplo).
Proof.
  exact (main_extrato_confere float_exemplo [] [] mundo_exemplo
           (fst fim_exemplo) (snd fim_exemplo) alcanca_exemplo).
Defined.
